(** * NextGo: a verification development for the project scaffolder [main.go]

    The program asks for a base path and a project name, creates the project
    directory, fills it with a fixed skeleton of directories and seed files
    copied from template resources, and runs [go mod init] and [go mod tidy].

    The development is a shallow embedding.  Go strings are byte strings
    ([string], one [ascii] per byte), file contents are [list Byte.byte], the
    file system is a finite map from resolved absolute paths to nodes, and the
    program is written in a small state-and-abort monad: [log.Fatalf] ends
    the run and hands back the world as it is at that moment. *)

From Stdlib Require Import Ascii String.
From stdpp Require Import gmap strings list fin_maps.

Open Scope string_scope.

(** ** Bytes and strings *)

Definition bytes := list Byte.byte.

Definition chr (n : N) : ascii := ascii_of_N n.
Definition nl : ascii := chr 10.
Definition slash : ascii := chr 47.

Definition str1 (c : ascii) : string := String c EmptyString.

Fixpoint string_rev_onto (s acc : string) : string :=
  match s with
  | EmptyString => acc
  | String c r => string_rev_onto r (String c acc)
  end.

Definition string_rev (s : string) : string := string_rev_onto s EmptyString.

(** [s[n:]] for [n <= len(s)]. *)
Fixpoint string_drop (n : nat) (s : string) : string :=
  match n, s with
  | O, _ => s
  | S n', String _ r => string_drop n' r
  | S _, EmptyString => EmptyString
  end.

(** ** package strings *)

(** [strings.HasPrefix]. *)
Definition strings_HasPrefix (s pre : string) : bool := String.prefix pre s.

(** The six single-byte white space characters of Go's [asciiSpace] table:
    tab, line feed, vertical tab, form feed, carriage return and space. *)
Definition asciiSpace (c : ascii) : bool :=
  let n := N_of_ascii c in
  ((9 <=? n)%N && (n <=? 13)%N) || (n =? 32)%N.

(** [unicode.IsSpace] on the runes above U+007F, read on their UTF-8 encoding.
    Two bytes: U+0085 (C2 85) and U+00A0 (C2 A0). *)
Definition space2 (c d : ascii) : bool :=
  (N_of_ascii c =? 194)%N && ((N_of_ascii d =? 133)%N || (N_of_ascii d =? 160)%N).

(** Three bytes: U+1680 (E1 9A 80), U+2000..U+200A (E2 80 80..8A), U+2028 and
    U+2029 (E2 80 A8, A9), U+202F (E2 80 AF), U+205F (E2 81 9F) and U+3000
    (E3 80 80). *)
Definition space3 (c d e : ascii) : bool :=
  let c := N_of_ascii c in
  let d := N_of_ascii d in
  let e := N_of_ascii e in
  ((c =? 225) && (d =? 154) && (e =? 128))%N
  || ((c =? 226) && (d =? 128)
      && (((128 <=? e) && (e <=? 138)) || (e =? 168) || (e =? 169) || (e =? 175)))%N
  || ((c =? 226) && (d =? 129) && (e =? 159))%N
  || ((c =? 227) && (d =? 128) && (e =? 128))%N.

(** Strip white space runes from the front of a byte string.  The two
    predicates say which two-byte and three-byte groups are white space, so
    that the same loop serves for the end of a string read backwards. *)
Fixpoint trim_front (w2 : ascii -> ascii -> bool) (w3 : ascii -> ascii -> ascii -> bool)
    (s : string) : string :=
  match s with
  | EmptyString => s
  | String c r =>
      if asciiSpace c then trim_front w2 w3 r
      else match r with
           | EmptyString => s
           | String d r2 =>
               if w2 c d then trim_front w2 w3 r2
               else match r2 with
                    | EmptyString => s
                    | String e r3 => if w3 c d e then trim_front w2 w3 r3 else s
                    end
           end
  end.

(** [strings.TrimLeftFunc(s, unicode.IsSpace)]. *)
Definition trim_left (s : string) : string := trim_front space2 space3 s.

(** The groups read backwards. *)
Definition space2_back (c d : ascii) : bool := space2 d c.
Definition space3_back (c d e : ascii) : bool := space3 e d c.

(** [strings.TrimRightFunc(s, unicode.IsSpace)]: the same on the reversed
    string, with the byte groups read backwards. *)
Definition trim_right (s : string) : string :=
  string_rev (trim_front space2_back space3_back (string_rev s)).

(** [strings.TrimSpace]: all leading and trailing white space removed. *)
Definition strings_TrimSpace (s : string) : string := trim_right (trim_left s).

(** ** package bufio *)

(** [reader.ReadString('\n')]: the bytes up to and including the first line
    feed, or everything that is left when there is none (the error returned
    at end of input is dropped by the caller).  Returns the line and the rest
    of the input. *)
Fixpoint reader_ReadString (input : string) : string * string :=
  match input with
  | EmptyString => (EmptyString, EmptyString)
  | String c r =>
      if Ascii.eqb c nl then (str1 nl, r)
      else let '(line, rest) := reader_ReadString r in (String c line, rest)
  end.

(** ** package path/filepath (Unix) *)

(** The elements of a path between separators, empty ones included:
    [split_path "/a//b" = [""; "a"; ""; "b"]]. *)
Fixpoint split_path (s : string) : list string :=
  match s with
  | EmptyString => [EmptyString]
  | String c r =>
      if Ascii.eqb c slash then EmptyString :: split_path r
      else match split_path r with
           | e :: es => String c e :: es
           | [] => [str1 c]
           end
  end.

(** [strings.Join(elems, "/")]. *)
Fixpoint join_path (es : list string) : string :=
  match es with
  | [] => EmptyString
  | [e] => e
  | e :: es' => e ++ String slash (join_path es')
  end.

Definition rooted (s : string) : bool :=
  match s with
  | String c _ => Ascii.eqb c slash
  | EmptyString => false
  end.

(** The element loop of [filepath.Clean].  [out] holds the elements kept so
    far, last one first.  Empty elements and [.] are dropped; [..] removes the
    element before it when there is one that is not itself [..], is dropped
    at the root of a rooted path, and is kept otherwise. *)
Fixpoint clean_elems (is_rooted : bool) (out : list string) (es : list string) : list string :=
  match es with
  | [] => rev out
  | e :: es' =>
      if decide (e = EmptyString) then clean_elems is_rooted out es'
      else if decide (e = ".") then clean_elems is_rooted out es'
      else if decide (e = "..") then
        match out with
        | top :: out' =>
            if decide (top = "..") then clean_elems is_rooted (e :: out) es'
            else clean_elems is_rooted out' es'
        | [] =>
            if is_rooted then clean_elems is_rooted [] es'
            else clean_elems is_rooted [e] es'
        end
      else clean_elems is_rooted (e :: out) es'
  end.

(** [filepath.Clean]: the shortest path name equivalent to [s] by purely
    lexical processing; the empty path and a relative path with nothing left
    become [.]. *)
Definition filepath_Clean (s : string) : string :=
  if decide (s = EmptyString) then "."
  else
    let out := clean_elems (rooted s) [] (split_path s) in
    if rooted s then String slash (join_path out)
    else match out with
         | [] => "."
         | _ => join_path out
         end.

(** [filepath.Join]: leading empty elements are ignored, the rest is joined
    with the separator and cleaned; all elements empty gives the empty
    string. *)
Fixpoint filepath_Join (elem : list string) : string :=
  match elem with
  | [] => EmptyString
  | e :: rest =>
      if decide (e = EmptyString) then filepath_Join rest
      else filepath_Clean (join_path elem)
  end.

(** ** The file system *)

(** A resolved path: the names from the root down, without [.] or [..]. *)
Abbreviation path := (list string).

Inductive node : Type :=
  | Dir
  | File (content : bytes).

#[global] Instance byte_eq_dec : EqDecision Byte.byte := Byte.byte_eq_dec.

#[global] Instance node_eq_dec : EqDecision node.
Proof. solve_decision. Defined.

(** The file system maps every path other than the root to its node; the
    root is a directory that is always there. *)
Abbreviation FS := (gmap (list string) node).

Definition parent (p : path) : path := removelast p.

Definition fs_lookup (fs : FS) (p : path) : option node :=
  match p with
  | [] => Some Dir
  | _ => fs !! p
  end.

(** A file system is a tree: whatever exists lies in a directory. *)
Definition fs_wf (fs : FS) : Prop :=
  map_Forall (fun p _ => p <> [] /\ fs_lookup fs (parent p) = Some Dir) fs.

#[global] Instance fs_wf_dec (m : FS) : Decision (fs_wf m).
Proof. unfold fs_wf. apply _. Defined.

(** Path resolution as the kernel does it for a process whose working
    directory is [cwd], read lexically: the model has no symbolic links, and
    the paths the program passes are cleaned, so that [..] only climbs from
    the working directory. *)
Definition resolve_step (acc : path) (e : string) : path :=
  if decide (e = EmptyString) then acc
  else if decide (e = ".") then acc
  else if decide (e = "..") then removelast acc
  else (acc ++ [e])%list.

Definition resolve_elems (base : path) (es : list string) : path :=
  foldl resolve_step base es.

Definition resolve (cwd : path) (s : string) : path :=
  resolve_elems (if rooted s then [] else cwd) (split_path s).

Inductive errno : Type := EEXIST | ENOENT | ENOTDIR | EISDIR | EACCES | EBADF | EIO.

Definition errno_Error (e : errno) : string :=
  match e with
  | EEXIST => "file exists"
  | ENOENT => "no such file or directory"
  | ENOTDIR => "not a directory"
  | EISDIR => "is a directory"
  | EACCES => "permission denied"
  | EBADF => "bad file descriptor"
  | EIO => "input/output error"
  end.

(** [*fs.PathError] and its [Error()] text. *)
Record PathError : Type := { pe_op : string; pe_path : string; pe_err : errno }.

Definition PathError_Error (e : PathError) : string :=
  pe_op e ++ " " ++ pe_path e ++ ": " ++ errno_Error (pe_err e).

(** The system calls the program makes.  The environment may refuse any of
    them (permissions, quotas, a failing disk): see [env_fault]. *)
Inductive syscall : Type :=
  | SysMkdir (p : path)
  | SysOpen (p : path)
  | SysRead (p : path)
  | SysWrite (p : path).

Section FileSystem.
Variable fault : syscall -> option errno.

(** mkdir(2): the parent must be a directory and the name must be free. *)
Definition mkdir (fs : FS) (p : path) : errno + FS :=
  match fault (SysMkdir p) with
  | Some e => inl e
  | None =>
      match fs_lookup fs (parent p) with
      | None => inl ENOENT
      | Some (File _) => inl ENOTDIR
      | Some Dir =>
          match fs_lookup fs p with
          | Some _ => inl EEXIST
          | None => inr (<[p := Dir]> fs)
          end
      end
  end.

(** [os.MkdirAll], on the path read from its last name up.  A path that is
    a directory is left alone, one that is a file is an error; otherwise
    the parent is made first and then the directory itself, and a failed
    mkdir is forgiven when the directory is there after all.  The parents
    made before a failure stay, so the file system comes back with the
    error. *)
Fixpoint mkdir_all_up (fs : FS) (rp : list string) : FS * option errno :=
  match fs_lookup fs (rev rp) with
  | Some Dir => (fs, None)
  | Some (File _) => (fs, Some ENOTDIR)
  | None =>
      match rp with
      | [] => (fs, None)
      | _ :: rq =>
          match mkdir_all_up fs rq with
          | (fs1, Some e) => (fs1, Some e)
          | (fs1, None) =>
              match mkdir fs1 (rev rp) with
              | inr fs2 => (fs2, None)
              | inl e =>
                  match fs_lookup fs1 (rev rp) with
                  | Some Dir => (fs1, None)
                  | _ => (fs1, Some e)
                  end
              end
          end
      end
  end.

Definition mkdir_all (fs : FS) (p : path) : FS * option errno := mkdir_all_up fs (rev p).

(** open(2) with [O_RDWR|O_CREATE|O_TRUNC]: the file is created empty, or
    emptied when it exists. *)
Definition create (fs : FS) (p : path) : errno + FS :=
  match fault (SysOpen p) with
  | Some e => inl e
  | None =>
      match fs_lookup fs (parent p) with
      | None => inl ENOENT
      | Some (File _) => inl ENOTDIR
      | Some Dir =>
          match fs_lookup fs p with
          | Some Dir => inl EISDIR
          | _ => inr (<[p := File []]> fs)
          end
      end
  end.

(** Reading a whole file. *)
Definition read_file (fs : FS) (p : path) : errno + bytes :=
  match fault (SysRead p) with
  | Some e => inl e
  | None =>
      match fs_lookup fs p with
      | None => inl ENOENT
      | Some Dir => inl EISDIR
      | Some (File c) => inr c
      end
  end.

(** write(2) through a handle that has only been written through since it
    was opened: the bytes go to the end of the file. *)
Definition write (fs : FS) (p : path) (b : bytes) : errno + FS :=
  match fault (SysWrite p) with
  | Some e => inl e
  | None =>
      match fs_lookup fs p with
      | Some (File old) => inr (<[p := File (old ++ b)%list]> fs)
      | _ => inl EBADF
      end
  end.
End FileSystem.

(** ** The world the program runs in *)

(** What the run writes to its streams, and the child processes it starts. *)
Inductive event : Type :=
  | Stdout (s : string)
  | Stderr (s : string)
  | Exec (dir : string) (argv : list string).

#[global] Instance event_eq_dec : EqDecision event.
Proof. solve_decision. Defined.

(** The mutable part: the file system, what is left of standard input, and
    the events so far, oldest first. *)
Record World : Type := { fs : FS; stdin : string; console : list event }.

Definition set_fs (m : FS) (w : World) : World :=
  {| fs := m; stdin := stdin w; console := console w |}.
Definition set_stdin (s : string) (w : World) : World :=
  {| fs := fs w; stdin := s; console := console w |}.
Definition emit (e : event) (w : World) : World :=
  {| fs := fs w; stdin := stdin w; console := (console w ++ [e])%list |}.

(** What the run cannot change: the executables on the search path, the
    current user's home directory (or the error of [user.Current]), the
    working directory, the calls the system refuses, and what an external
    command does to the file system together with the error of [cmd.Run]. *)
Record Env : Type := {
  env_path : string -> bool;
  env_user : string + string;
  env_cwd : path;
  env_fault : syscall -> option errno;
  env_exec : string -> list string -> FS -> FS * option string
}.

(** A run either goes on with a value, or has ended in [log.Fatal]:
    [os.Exit(1)] after the message, with the world as it is. *)
Inductive result (A : Type) : Type :=
  | Ok (a : A) (w : World)
  | Fatal (w : World).
Arguments Ok {A} a w.
Arguments Fatal {A} w.

Definition M (A : Type) : Type := World -> result A.

Definition ret {A} (a : A) : M A := fun w => Ok a w.

Definition bind {A B} (m : M A) (k : A -> M B) : M B :=
  fun w => match m w with
           | Ok a w' => k a w'
           | Fatal w' => Fatal w'
           end.

Notation "x <- m ;; k" := (bind m (fun x => k))
  (at level 100, m at next level, right associativity).
Notation "m ;;; k" := (bind m (fun _ => k))
  (at level 100, right associativity).

(** [for _, x := range l { body }] over a slice. *)
Fixpoint for_each {A} (l : list A) (body : A -> M unit) : M unit :=
  match l with
  | [] => ret tt
  | x :: l' => body x ;;; for_each l' body
  end.

(** [log.Fatal] and [log.Fatalf]: the message goes to standard error and the
    process exits.  The date and time the logger prints before the message
    are left out. *)
Definition log_Fatal {A} (msg : string) : M A := fun w => Fatal (emit (Stderr msg) w).

(** [fmt.Print], [fmt.Printf] and [fmt.Println] with the text already
    formatted. *)
Definition fmt_Print (msg : string) : M unit := fun w => Ok tt (emit (Stdout msg) w).

(** An open file: the name it was opened under and the node it refers to. *)
Record os_File : Type := { f_name : string; f_path : path }.

Section Os.
Variable env : Env.

Definition path_error (op name : string) (e : errno) : PathError :=
  {| pe_op := op; pe_path := name; pe_err := e |}.

Definition os_Mkdir (name : string) : M (option PathError) := fun w =>
  match mkdir (env_fault env) (fs w) (resolve (env_cwd env) name) with
  | inl e => Ok (Some (path_error "mkdir" name e)) w
  | inr m => Ok None (set_fs m w)
  end.

Definition os_MkdirAll (name : string) : M (option PathError) := fun w =>
  let '(m, err) := mkdir_all (env_fault env) (fs w) (resolve (env_cwd env) name) in
  Ok (path_error "mkdir" name <$> err) (set_fs m w).

Definition os_Create (name : string) : M (os_File + PathError) := fun w =>
  let p := resolve (env_cwd env) name in
  match create (env_fault env) (fs w) p with
  | inl e => Ok (inr (path_error "open" name e)) w
  | inr m => Ok (inl {| f_name := name; f_path := p |}) (set_fs m w)
  end.

Definition ioutil_ReadFile (name : string) : M (bytes + PathError) := fun w =>
  match read_file (env_fault env) (fs w) (resolve (env_cwd env) name) with
  | inl EISDIR => Ok (inr (path_error "read" name EISDIR)) w
  | inl e => Ok (inr (path_error "open" name e)) w
  | inr c => Ok (inl c) w
  end.

Definition file_Write (f : os_File) (b : bytes) : M (option PathError) := fun w =>
  match write (env_fault env) (fs w) (f_path f) b with
  | inl e => Ok (Some (path_error "write" (f_name f) e)) w
  | inr m => Ok None (set_fs m w)
  end.

(** [exec.LookPath]: only whether it found the command is used. *)
Definition exec_LookPath (cmd : string) : M bool := fun w => Ok (env_path env cmd) w.

(** [user.Current]: the home directory, or the error. *)
Definition user_Current : M (string + string) := fun w => Ok (env_user env) w.

(** [exec.Command(command, args...)] with [Dir] set, then [Run]: the child
    runs to its end before the call returns. *)
Definition cmd_Run (dir command : string) (args : list string) : M (option string) := fun w =>
  let '(m, err) := env_exec env dir (command :: args) (fs w) in
  Ok err (set_fs m (emit (Exec dir (command :: args)) w)).

(** [bufio.Reader.ReadString('\n')] on standard input. *)
Definition stdin_ReadString : M string := fun w =>
  let '(line, rest) := reader_ReadString (stdin w) in
  Ok line (set_stdin rest w).
End Os.

(** ** The program *)

Definition tab : ascii := chr 9.
Definition newline : string := str1 nl.

(** The command the diagnostic of a missing [air] tells the user to run. *)
Definition air_install_command : string :=
  "curl -sSfL https://raw.githubusercontent.com/air-verse/air/master/install.sh | sh -s -- -b $(go env GOPATH)/bin".

Definition air_missing_message : string :=
  "Error: 'air' is not installed. Please install it by running:"
  ++ String nl (String nl (String tab air_install_command)) ++ newline.

(** The directories and their initial files: a Go map, so that [range] visits
    its entries in an order of its own choosing. *)
Definition dirs : gmap string (list string) :=
  list_to_map
    [ ("cmd", ["main.go"]);
      ("pkg/router", ["router.go"]);
      ("pkg/middleware", ["middleware.go"]);
      ("pkg/handlers", ["handlers.go"]);
      ("pkg/models", ["models.go"]);
      ("pkg/db", ["db.go"]);
      ("config", ["config.yaml"]) ].

Definition dockerFiles : list string :=
  ["Dockerfile"; "docker-compose.yaml"; "Makefile"; ".air.toml"].

Definition templateMapping : gmap string string :=
  list_to_map
    [ ("main.go", "templates/main.txt");
      ("router.go", "templates/routes.txt");
      ("middleware.go", "templates/middleware.txt");
      ("handlers.go", "templates/handlers.txt");
      ("models.go", "templates/models.txt");
      ("db.go", "templates/db.txt");
      ("Dockerfile", "templates/dockers.txt");
      ("docker-compose.yaml", "templates/docker.txt");
      ("Makefile", "templates/makerun.txt");
      (".air.toml", "templates/air.txt");
      ("config.yaml", "templates/config.txt") ].

(** [getTemplateFileName]: indexing a Go map gives the empty string for a
    key that is not there. *)
Definition getTemplateFileName (fileName : string) : string :=
  default EmptyString (templateMapping !! fileName).

Section Program.
Variable env : Env.

Definition checkCommandExists (cmd : string) : M bool :=
  exec_LookPath env cmd.

Definition ensureAirInstalled : M unit :=
  found <- checkCommandExists "air" ;;
  if negb found then log_Fatal air_missing_message else ret tt.

Definition writeContentFromTemplate (f : os_File) (templatePath : string) : M unit :=
  r <- ioutil_ReadFile env templatePath ;;
  match r with
  | inr err =>
      log_Fatal ("Error reading template file " ++ templatePath ++ ": " ++ PathError_Error err)
  | inl content =>
      werr <- file_Write env f content ;;
      match werr with
      | Some err =>
          log_Fatal ("Error writing content to file " ++ f_name f ++ ": " ++ PathError_Error err)
      | None => ret tt
      end
  end.

(** Creating one file and filling it from its template: the body shared by
    the two file loops of [createDirectoriesAndFiles]. *)
Definition create_file (dirPath file : string) : M unit :=
  let filePath := filepath_Join [dirPath; file] in
  r <- os_Create env filePath ;;
  match r with
  | inr err =>
      log_Fatal ("Error creating file " ++ filePath ++ ": " ++ PathError_Error err)
  | inl f =>
      fmt_Print ("Created file: " ++ filePath ++ newline) ;;;
      let templateFileName := getTemplateFileName file in
      writeContentFromTemplate f templateFileName
  end.

(** The body of the loop over [dirs]. *)
Definition create_dir (basePath : string) (entry : string * list string) : M unit :=
  let '(dir, files) := entry in
  let dirPath := filepath_Join [basePath; dir] in
  err <- os_MkdirAll env dirPath ;;
  match err with
  | Some e =>
      log_Fatal ("Error creating directory " ++ dirPath ++ ": " ++ PathError_Error e)
  | None => fmt_Print ("Created directory: " ++ dirPath ++ newline)
  end ;;;
  for_each files (create_file dirPath).

(** [createDirectoriesAndFiles].  [order] is the order in which this run's
    [range dirs] visits the entries of the map: some arrangement of
    [map_to_list dirs]. *)
Definition createDirectoriesAndFiles (order : list (string * list string))
    (basePath : string) : M unit :=
  for_each order (create_dir basePath) ;;;
  for_each dockerFiles (create_file basePath).

(** [runCommand]: a failed command ends the run, so the error it returns is
    always nil. *)
Definition runCommand (dir command : string) (args : list string) : M (option string) :=
  err <- cmd_Run env dir command args ;;
  match err with
  | Some e => log_Fatal ("Error running command: " ++ e)
  | None => ret tt
  end ;;;
  ret err.

Definition initializeGoMod (basePath projectName : string) : M unit :=
  fmt_Print ("Initializing Go module..." ++ newline) ;;;
  err <- runCommand basePath "go" ["mod"; "init"; projectName] ;;
  match err with
  | Some e => log_Fatal ("Error initializing Go module: " ++ e)
  | None => ret tt
  end ;;;
  fmt_Print ("Tidying up Go module dependencies..." ++ newline) ;;;
  err <- runCommand basePath "go" ["mod"; "tidy"] ;;
  match err with
  | Some e => log_Fatal ("Error tidying Go module: " ++ e)
  | None => ret tt
  end ;;;
  fmt_Print ("Go module initialized successfully!" ++ newline).

(** [ExpandTilde]: the path and the error, as Go returns them. *)
Definition ExpandTilde (path : string) : M (string * option string) :=
  if strings_HasPrefix path "~/" then
    usr <- user_Current env ;;
    match usr with
    | inr err => ret (EmptyString, Some err)
    | inl homeDir => ret (filepath_Join [homeDir; string_drop 2 path], None)
    end
  else ret (path, None).

Definition main (order : list (string * list string)) : M unit :=
  ensureAirInstalled ;;;
  fmt_Print "Enter the base path where you want to create the project: " ;;;
  baseInput <- stdin_ReadString ;;
  let baseInput := strings_TrimSpace baseInput in
  (if decide (baseInput = EmptyString) then log_Fatal "Base path cannot be empty"
   else ret tt) ;;;
  expanded <- ExpandTilde baseInput ;;
  let '(expandedBasePath, err) := expanded in
  match err with
  | Some e => log_Fatal ("Error expanding base path: " ++ e)
  | None => ret tt
  end ;;;
  fmt_Print "Enter the project name: " ;;;
  projectName <- stdin_ReadString ;;
  let projectName := strings_TrimSpace projectName in
  (if decide (projectName = EmptyString) then log_Fatal "Project name cannot be empty"
   else ret tt) ;;;
  let basePath := filepath_Join [expandedBasePath; projectName] in
  merr <- os_Mkdir env basePath ;;
  match merr with
  | Some e =>
      log_Fatal ("Failed to create project base directory: " ++ PathError_Error e)
  | None =>
      fmt_Print ("Created project base directory: " ++ basePath ++ newline)
  end ;;;
  createDirectoriesAndFiles order basePath ;;;
  initializeGoMod basePath projectName.
End Program.

(** ** Derived notions used in the statements *)

Definition produced_files : list string :=
  (concat (snd <$> map_to_list dirs) ++ dockerFiles)%list.

Definition prompt_base : string := "Enter the base path where you want to create the project: ".
Definition prompt_name : string := "Enter the project name: ".

(** The two inputs as [main] uses them, and what is left of standard input
    once both lines are read. *)
Definition baseInput_of (w : World) : string :=
  strings_TrimSpace (reader_ReadString (stdin w)).1.
Definition stdin_after_base (w : World) : string := (reader_ReadString (stdin w)).2.
Definition projectName_of (w : World) : string :=
  strings_TrimSpace (reader_ReadString (stdin_after_base w)).1.
Definition stdin_after_name (w : World) : string :=
  (reader_ReadString (stdin_after_base w)).2.

(** What [ExpandTilde] returns, as a function of the environment. *)
Definition expand_tilde (env : Env) (path : string) : string * option string :=
  if strings_HasPrefix path "~/" then
    match env_user env with
    | inr err => (EmptyString, Some err)
    | inl homeDir => (filepath_Join [homeDir; string_drop 2 path], None)
    end
  else (path, None).

(** The world once both prompts are answered. *)
Definition prompted (w : World) : World :=
  {| fs := fs w; stdin := stdin_after_name w;
     console := (console w ++ [Stdout prompt_base; Stdout prompt_name])%list |}.

(** The part of [main] that follows the two prompts. *)
Definition build (env : Env) (order : list (string * list string))
    (basePath projectName : string) : M unit :=
  merr <- os_Mkdir env basePath ;;
  match merr with
  | Some e =>
      log_Fatal ("Failed to create project base directory: " ++ PathError_Error e)
  | None =>
      fmt_Print ("Created project base directory: " ++ basePath ++ newline)
  end ;;;
  createDirectoriesAndFiles env order basePath ;;;
  initializeGoMod env basePath projectName.

(** A path element holds no separator. *)
Fixpoint no_slash (s : string) : bool :=
  match s with
  | EmptyString => true
  | String c r => negb (Ascii.eqb c slash) && no_slash r
  end.

(** A name that path resolution appends: not empty, not [.] or [..], and
    without a separator. *)
Definition plain_name (e : string) : Prop :=
  e <> EmptyString /\ e <> "." /\ e <> ".." /\ no_slash e = true.

#[global] Instance plain_name_dec e : Decision (plain_name e).
Proof. unfold plain_name. apply _. Defined.

(** ** The scaffold as a sequence of creation steps *)

(** One creation step of [createDirectoriesAndFiles]: making the directory of
    an entry of [dirs], or creating and filling one file, in the directory of
    an entry or (no directory) at the root of the project. *)
Inductive step : Type :=
  | MkdirStep (dir : string)
  | FileStep (dir : option string) (file : string).

#[global] Instance step_eq_dec : EqDecision step.
Proof. solve_decision. Defined.

Definition dir_path (basePath : string) (dir : option string) : string :=
  match dir with
  | None => basePath
  | Some d => filepath_Join [basePath; d]
  end.

Definition run_step (env : Env) (basePath : string) (s : step) : M unit :=
  match s with
  | MkdirStep dir =>
      let dirPath := filepath_Join [basePath; dir] in
      err <- os_MkdirAll env dirPath ;;
      match err with
      | Some e =>
          log_Fatal ("Error creating directory " ++ dirPath ++ ": " ++ PathError_Error e)
      | None => fmt_Print ("Created directory: " ++ dirPath ++ newline)
      end
  | FileStep dir file => create_file env (dir_path basePath dir) file
  end.

Definition entry_steps (entry : string * list string) : list step :=
  MkdirStep entry.1 :: (FileStep (Some entry.1) <$> entry.2).

(** The steps of a run whose [range dirs] visits the entries in [order]. *)
Definition scaffold_steps (order : list (string * list string)) : list step :=
  (flat_map entry_steps order ++ (FileStep None <$> dockerFiles))%list.

(** The names below the project directory that a step fills in, as paths
    relative to it, with what it puts there: [None] for a directory, the file
    name for a file (its content is that of the file's template). *)
Fixpoint dir_chain (base ext : list string) : list (list string) :=
  match ext with
  | [] => []
  | x :: r => (base ++ [x])%list :: dir_chain (base ++ [x])%list r
  end.

Definition dir_ext (dir : option string) : list string :=
  match dir with
  | None => []
  | Some d => split_path d
  end.

Definition step_slots (s : step) : list (list string * option string) :=
  match s with
  | MkdirStep dir => (fun p => (p, None)) <$> dir_chain [] (split_path dir)
  | FileStep dir file => [((dir_ext dir ++ [file])%list, Some file)]
  end.

(** The line a completed step prints. *)
Definition step_line (basePath : string) (s : step) : event :=
  match s with
  | MkdirStep dir =>
      Stdout ("Created directory: " ++ filepath_Join [basePath; dir] ++ newline)
  | FileStep dir file =>
      Stdout ("Created file: " ++ filepath_Join [dir_path basePath dir; file] ++ newline)
  end.

(** The content of the template of [file] in the file system [m], read from
    the working directory [cwd]. *)
Definition template_path (cwd : path) (file : string) : path :=
  resolve cwd (getTemplateFileName file).

Definition template_bytes (cwd : path) (m : FS) (file : string) : bytes :=
  match m !! template_path cwd file with
  | Some (File c) => c
  | _ => []
  end.

(** A slot made real below the resolved project directory [root]. *)
Definition slot_item (cwd : path) (m0 : FS) (root : path)
    (slot : list string * option string) : path * node :=
  ((root ++ slot.1)%list,
   match slot.2 with
   | None => Dir
   | Some file => File (template_bytes cwd m0 file)
   end).

Definition insert_items (items : list (path * node)) (m : FS) : FS :=
  foldl (fun m kv => <[kv.1 := kv.2]> m) m items.

(** The tree of section 6, relative to the project directory: the
    directory itself, the eight directories below it and the eleven files. *)
Definition scaffold_slots : list (list string * option string) :=
  [ ([], None);
    (["cmd"], None); (["cmd"; "main.go"], Some "main.go");
    (["pkg"], None);
    (["pkg"; "router"], None); (["pkg"; "router"; "router.go"], Some "router.go");
    (["pkg"; "middleware"], None);
    (["pkg"; "middleware"; "middleware.go"], Some "middleware.go");
    (["pkg"; "handlers"], None); (["pkg"; "handlers"; "handlers.go"], Some "handlers.go");
    (["pkg"; "models"], None); (["pkg"; "models"; "models.go"], Some "models.go");
    (["pkg"; "db"], None); (["pkg"; "db"; "db.go"], Some "db.go");
    (["config"], None); (["config"; "config.yaml"], Some "config.yaml");
    (["Dockerfile"], Some "Dockerfile");
    (["docker-compose.yaml"], Some "docker-compose.yaml");
    (["Makefile"], Some "Makefile");
    ([".air.toml"], Some ".air.toml") ].

(** The tree as a file system: what a successful run adds. *)
Definition scaffold_tree (cwd : path) (m0 : FS) (root : path) : FS :=
  list_to_map (slot_item cwd m0 root <$> scaffold_slots).

(** Every name that occurs in the tree. *)
Definition scaffold_names : list string :=
  concat (fst <$> scaffold_slots).

(** A path whose last name is one of the names of the tree. *)
Definition ends_in_scaffold_name (p : list string) : Prop :=
  match last p with
  | Some x => x ∈ scaffold_names
  | None => False
  end.

#[global] Instance ends_in_scaffold_name_dec p : Decision (ends_in_scaffold_name p).
Proof. unfold ends_in_scaffold_name. destruct (last p); apply _. Defined.

(** What the proofs need of the names in a step: directory and file names
    are plain names of the tree, and the template of a file is a relative
    path of plain names that does not end in a name of the tree. *)
Definition step_ok (s : step) : Prop :=
  match s with
  | MkdirStep dir =>
      Forall plain_name (split_path dir)
      /\ Forall (fun x => x ∈ scaffold_names) (split_path dir)
  | FileStep dir file =>
      Forall plain_name (dir_ext dir) /\ plain_name file /\ file ∈ scaffold_names
      /\ rooted (getTemplateFileName file) = false
      /\ Forall plain_name (split_path (getTemplateFileName file))
      /\ ~ ends_in_scaffold_name (split_path (getTemplateFileName file))
  end.

#[global] Instance step_ok_dec s : Decision (step_ok s).
Proof. destruct s; unfold step_ok; apply _. Defined.

(** The state of a run between two steps, for a project directory that
    resolves to [root]: the file system is a tree, the project directory is
    there, and apart from it nothing has changed at paths that do not end in
    a name of the tree (the templates among them) since the file system was
    [m0]. *)
Definition scaffolding (m0 : FS) (root : path) (w : World) : Prop :=
  fs_wf (fs w) /\ fs_lookup (fs w) root = Some Dir
  /\ forall q, ~ ends_in_scaffold_name q -> q <> root -> fs w !! q = m0 !! q.

(** What [clean_elems] keeps on its stack: names and [..], never an empty
    element or [.]. *)
Definition kept (e : string) : Prop :=
  e <> EmptyString /\ e <> "." /\ no_slash e = true.

(** No key is given two different nodes. *)
Definition functional (items : list (path * node)) : Prop :=
  forall k v v', (k, v) ∈ items -> (k, v') ∈ items -> v = v'.

Definition dir_items (l : list path) : list (path * node) := (fun p => (p, Dir)) <$> l.

(** The two commands of [initializeGoMod]. *)
Definition go_mod_init (projectName : string) : list string :=
  ["go"; "mod"; "init"; projectName].
Definition go_mod_tidy : list string := ["go"; "mod"; "tidy"].

(** The files that a list of steps creates. *)
Definition step_files (l : list step) : list string :=
  omap (fun s => match s with FileStep _ f => Some f | MkdirStep _ => None end) l.

(** What [initializeGoMod] prints and runs when both commands succeed. *)
Definition go_mod_events (basePath projectName : string) : list event :=
  [ Stdout ("Initializing Go module..." ++ newline);
    Exec basePath (go_mod_init projectName);
    Stdout ("Tidying up Go module dependencies..." ++ newline);
    Exec basePath go_mod_tidy;
    Stdout ("Go module initialized successfully!" ++ newline) ].

Definition base_created_line (basePath : string) : event :=
  Stdout ("Created project base directory: " ++ basePath ++ newline).

(** The path of the project directory as [main] computes it. *)
Definition project_path (env : Env) (w : World) : string :=
  filepath_Join [(expand_tilde env (baseInput_of w)).1; projectName_of w].

(** ** A concrete world *)

(** A small file system with the eleven templates below the working
    directory [/work], an empty [/tmp/x] to build in, and a user who answers
    the two prompts with [/tmp/x] and [demo], white space around both. *)
Definition text (s : string) : bytes := list_byte_of_string s.

Definition demo_fs : FS :=
  list_to_map
    [ (["tmp"], Dir); (["tmp"; "x"], Dir); (["home"], Dir); (["home"; "u"], Dir);
      (["work"], Dir); (["work"; "templates"], Dir);
      (["work"; "templates"; "main.txt"], File (text "package main"));
      (["work"; "templates"; "routes.txt"], File (text "package router"));
      (["work"; "templates"; "middleware.txt"], File (text "package middleware"));
      (["work"; "templates"; "handlers.txt"], File (text "package handlers"));
      (["work"; "templates"; "models.txt"], File (text "package models"));
      (["work"; "templates"; "db.txt"], File (text "package db"));
      (["work"; "templates"; "dockers.txt"], File (text "FROM golang"));
      (["work"; "templates"; "docker.txt"], File (text "services:"));
      (["work"; "templates"; "makerun.txt"], File (text "run:"));
      (["work"; "templates"; "air.txt"], File (text "root = ."));
      (["work"; "templates"; "config.txt"], File (text "port: 8080")) ].

(** A command with a third argument ([go mod init name]) writes [go.mod] in
    its working directory; any other ([go mod tidy]) leaves the file system
    as it is. *)
Definition demo_exec (dir : string) (argv : list string) (m : FS) : FS * option string :=
  match argv !! 3 with
  | Some name =>
      (<[(resolve ["work"] dir ++ ["go.mod"])%list := File (text ("module " ++ name))]> m, None)
  | None => (m, None)
  end.

Definition demo_env : Env :=
  {| env_path := fun _ => true;
     env_user := inl "/home/u";
     env_cwd := ["work"];
     env_fault := fun _ => None;
     env_exec := demo_exec |}.

Definition demo_input : string :=
  "  /tmp/x " ++ newline ++ String tab "demo  " ++ newline.

Definition demo_world : World :=
  {| fs := demo_fs; stdin := demo_input; console := [] |}.

Definition demo_order : list (string * list string) := map_to_list dirs.

(** The world a run ends in, whichever way it ends. *)
Definition final_world {A} (r : result A) : World :=
  match r with
  | Ok _ w => w
  | Fatal w => w
  end.

(** What "exactly the tree of section 6, each file a copy of its template"
    says of a run from [w] to [w']: below the project directory the whole
    tree is new, every template is a file of the initial file system whose
    content the tree holds, and the final file system is the initial one
    with the tree added, as the two [go mod] commands leave it. *)
Definition scaffold_created (env : Env) (w w' : World) : Prop :=
  let cwd := env_cwd env in
  let basePath := project_path env w in
  let tree := scaffold_tree cwd (fs w) (resolve cwd basePath) in
  tree ##ₘ fs w
  /\ (forall file, file ∈ produced_files ->
        fs w !! template_path cwd file = Some (File (template_bytes cwd (fs w) file)))
  /\ exists m1 m2,
       env_exec env basePath (go_mod_init (projectName_of w)) (tree ∪ fs w) = (m1, None)
       /\ env_exec env basePath go_mod_tidy m1 = (m2, None)
       /\ fs w' = m2.

Definition demo_final : World := final_world (main demo_env demo_order demo_world).

Definition completes {A} (r : result A) : bool :=
  match r with
  | Ok _ _ => true
  | Fatal _ => false
  end.

(** The progress lines of the loop over [dirs], in the order of the run. *)
Definition dir_lines (basePath : string) (order : list (string * list string)) : list event :=
  step_line basePath <$> flat_map entry_steps order.

(** The progress lines of the files at the root of the project. *)
Definition root_file_lines (basePath : string) : list event :=
  step_line basePath <$> (FileStep None <$> dockerFiles).

Definition demo_order_reversed : list (string * list string) := reverse (map_to_list dirs).

Definition demo_final_reversed : World :=
  final_world (main demo_env demo_order_reversed demo_world).

(** The project directory is there and nothing is in it. *)
Definition empty_dir (m : FS) (root : path) : Prop :=
  fs_lookup m root = Some Dir
  /\ map_Forall (fun q _ => ~ (root `prefix_of` q /\ q <> root)) m.

#[global] Instance empty_dir_dec m root : Decision (empty_dir m root).
Proof. unfold empty_dir. apply _. Defined.

(** The file of step [s2] is not among the paths that step [s1] fills in. *)
Definition file_apart (s1 s2 : step) : Prop :=
  match s2 with
  | FileStep dir file => (dir_ext dir ++ [file])%list ∉ (step_slots s1).*1
  | MkdirStep _ => True
  end.

#[global] Instance file_apart_dec s1 s2 : Decision (file_apart s1 s2).
Proof. destruct s2; unfold file_apart; apply _. Defined.

(** What an aborted scaffold leaves, for the run [createDirectoriesAndFiles]
    from [w] to the abort in [w']: step number [k] is the one that failed;
    the steps before it completed, in the world [wk]; the run ended in the
    failing step itself; and whatever was on disk when it started, the work
    of the earlier steps included, is on disk unchanged. *)
Definition aborted_at (env : Env) (order : list (string * list string))
    (basePath : string) (w w' : World) (k : nat) (s : step) (wk : World) : Prop :=
  scaffold_steps order !! k = Some s
  /\ for_each (take k (scaffold_steps order)) (run_step env basePath) w = Ok tt wk
  /\ run_step env basePath s wk = Fatal w'
  /\ fs wk = insert_items
               (slot_item (env_cwd env) (fs w) (resolve (env_cwd env) basePath)
                  <$> flat_map step_slots (take k (scaffold_steps order)))
               (fs w)
  /\ console wk = (console w ++ (step_line basePath <$> take k (scaffold_steps order)))%list
  /\ fs wk ⊆ fs w'
  /\ stdin w' = stdin w
  /\ exists msg, console w' = (console wk ++ [Stderr msg])%list
              \/ console w' = (console wk ++ [step_line basePath s; Stderr msg])%list.

(** The same world once the project directory [/tmp/x/demo] is made, in an
    environment that refuses to create the [Makefile]. *)
Definition demo_project : string := "/tmp/x/demo".

Definition demo_started : World :=
  {| fs := <[["tmp"; "x"; "demo"] := Dir]> demo_fs; stdin := EmptyString; console := [] |}.

Definition demo_refusing : Env :=
  {| env_path := fun _ => true;
     env_user := inl "/home/u";
     env_cwd := ["work"];
     env_fault := fun c =>
       match c with
       | SysOpen p => if decide (p = ["tmp"; "x"; "demo"; "Makefile"]) then Some EACCES else None
       | _ => None
       end;
     env_exec := demo_exec |}.

Definition demo_aborted : World :=
  final_world (createDirectoriesAndFiles demo_refusing demo_order demo_project demo_started).

(** An environment without [air] on the search path. *)
Definition demo_no_air : Env :=
  {| env_path := fun cmd => negb (String.eqb cmd "air");
     env_user := inl "/home/u";
     env_cwd := ["work"];
     env_fault := fun _ => None;
     env_exec := demo_exec |}.

(** An environment in which [user.Current] fails. *)
Definition demo_no_user : Env :=
  {| env_path := fun _ => true;
     env_user := inr "user: Current requires cgo";
     env_cwd := ["work"];
     env_fault := fun _ => None;
     env_exec := demo_exec |}.

(** The eleven file names of section 6. *)
Definition section6_files : gset string :=
  list_to_set
    [ "main.go"; "router.go"; "middleware.go"; "handlers.go"; "models.go"; "db.go";
      "config.yaml"; "Dockerfile"; "docker-compose.yaml"; "Makefile"; ".air.toml" ].

(** No event of the list starts a process. *)
Definition no_exec (evs : list event) : Prop :=
  Forall (fun e => match e with Exec _ _ => False | _ => True end) evs.

(** A second run after a first one that went from [w] to [w1]: the file
    system and console as the first run left them, the same answers typed
    again. *)
Definition rerun (w w1 : World) : World :=
  {| fs := fs w1; stdin := stdin w; console := console w1 |}.

(** The external commands leave what is at [p] in place. *)
Definition exec_keeps (env : Env) (p : path) : Prop :=
  forall dir argv (m : FS), is_Some (m !! p) -> is_Some ((env_exec env dir argv m).1 !! p).

(** The world in which a run stops at the base directory, with the error
    [e] of [os.Mkdir]. *)
Definition base_directory_failure (env : Env) (w : World) (e : errno) : World :=
  {| fs := fs w; stdin := stdin_after_name w;
     console :=
       (console w
        ++ [ Stdout prompt_base; Stdout prompt_name;
             Stderr ("Failed to create project base directory: "
                     ++ PathError_Error (path_error "mkdir" (project_path env w) e)) ])%list |}.

(** An environment in which [go mod init] fails. *)
Definition demo_init_fails : Env :=
  {| env_path := fun _ => true;
     env_user := inl "/home/u";
     env_cwd := ["work"];
     env_fault := fun _ => None;
     env_exec := fun _ argv m =>
       match argv !! 3 with
       | Some _ => (m, Some "exit status 1")
       | None => (m, None)
       end |}.

(** A user who answers the first prompt with white space only, and one who
    does so at the second prompt. *)
Definition demo_blank_base : World :=
  {| fs := demo_fs; stdin := "   " ++ newline ++ "demo" ++ newline; console := [] |}.

Definition demo_blank_name : World :=
  {| fs := demo_fs; stdin := "/tmp/x" ++ newline ++ String tab newline; console := [] |}.

(** The first run of the concrete world, and the same user at a second run. *)
Definition demo_rerun : World := rerun demo_world demo_final.

(** The concrete user in a world where [/tmp/x/demo] is already there. *)
Definition demo_existing : World :=
  {| fs := fs demo_started; stdin := demo_input; console := [] |}.

(** ** White space *)

(** A string made of white space runes only, for given two-byte and
    three-byte groups. *)
Inductive spaces (w2 : ascii -> ascii -> bool) (w3 : ascii -> ascii -> ascii -> bool) :
    string -> Prop :=
  | spaces_nil : spaces w2 w3 EmptyString
  | spaces_1 c s : asciiSpace c = true -> spaces w2 w3 s -> spaces w2 w3 (String c s)
  | spaces_2 c d s : w2 c d = true -> spaces w2 w3 s -> spaces w2 w3 (String c (String d s))
  | spaces_3 c d e s :
      w3 c d e = true -> spaces w2 w3 s -> spaces w2 w3 (String c (String d (String e s))).

(** White space as [unicode.IsSpace] has it. *)
Definition white (s : string) : Prop := spaces space2 space3 s.

(** A string with no white space at either end. *)
Definition tight (s : string) : Prop := trim_left s = s /\ trim_right s = s.

Fixpoint no_newline (s : string) : bool :=
  match s with
  | EmptyString => true
  | String c r => negb (Ascii.eqb c nl) && no_newline r
  end.

(** Two runs end the same way, with the same file system and console. *)
Definition same_outcome {A} (r r' : result A) : Prop :=
  completes r = completes r'
  /\ fs (final_world r) = fs (final_world r')
  /\ console (final_world r) = console (final_world r').

(** The bytes a white space rune can start with. *)
Definition white_start (c : ascii) : bool :=
  let n := N_of_ascii c in
  asciiSpace c || (n =? 194)%N || (n =? 225)%N || (n =? 226)%N || (n =? 227)%N.

(** What a user types, with white space around the two answers, and the
    same answers typed without it. *)
Definition typed_world (m : FS) (con : list event)
    (w1 b w2 w3 n w4 rest : string) : World :=
  {| fs := m;
     stdin := (w1 ++ b ++ w2) ++ newline ++ (w3 ++ n ++ w4) ++ newline ++ rest;
     console := con |}.


(** The white space of the concrete answers: two spaces, a no-break space
    (U+00A0, bytes C2 A0) and a space, a tab, and two spaces. *)
Definition demo_nbsp_space : string := String (chr 194) (String (chr 160) " ").

Definition demo_typed : World :=
  typed_world demo_fs [] "  " "/tmp/x" demo_nbsp_space (str1 tab) "demo" "  " EmptyString.


(** The world in which [main] calls [createDirectoriesAndFiles]: both
    prompts answered and the base directory made, the file system being
    [m1]. *)
Definition started (env : Env) (w : World) (m1 : FS) : World :=
  emit (base_created_line (project_path env w)) (set_fs m1 (prompted w)).

(** ** Notions for the further properties *)

(** The names of the directories of the tree. *)
Definition dir_names : list string := concat (split_path <$> (map_to_list dirs).*1).

(** Below the project directory [root], directories carry directory names
    and files carry file names. *)
Definition well_named (root : path) (m : FS) : Prop :=
  forall ext x n, last ext = Some x -> m !! (root ++ ext)%list = Some n ->
    match n with
    | Dir => x ∈ dir_names
    | File _ => x ∈ produced_files
    end.

(** The template of [file] is a file of [m]. *)
Definition has_template (cwd : path) (m : FS) (file : string) : Prop :=
  match m !! template_path cwd file with
  | Some (File _) => True
  | _ => False
  end.

#[global] Instance has_template_dec cwd m file : Decision (has_template cwd m file).
Proof. unfold has_template. destruct (m !! template_path cwd file) as [[|c]|]; apply _. Defined.

(** A step names directories by directory names and files by file names. *)
Definition step_named (s : step) : Prop :=
  match s with
  | MkdirStep dir => Forall (fun x => x ∈ dir_names) (split_path dir)
  | FileStep dir file =>
      Forall (fun x => x ∈ dir_names) (dir_ext dir)
      /\ file ∈ produced_files /\ file ∉ dir_names
  end.

#[global] Instance step_named_dec s : Decision (step_named s).
Proof. destruct s; unfold step_named; apply _. Defined.

(** Nothing the environment can refuse is refused, and the external
    commands succeed. *)
Definition no_fault (env : Env) : Prop := forall c, env_fault env c = None.

Definition commands_succeed (env : Env) : Prop :=
  forall dir argv (m : FS), (env_exec env dir argv m).2 = None.

(** A discipline that a run may keep: [RO] relates the world before a
    computation to the world it goes on from, [RF] to the world it ends the
    run in.  Going on composes, and an end after going on is an end. *)
Class Discipline (RO RF : World -> World -> Prop) : Prop := {
  ro_refl : forall w, RO w w;
  ro_trans : forall a b c, RO a b -> RO b c -> RO a c;
  rf_after : forall a b c, RO a b -> RF b c -> RF a c
}.

Definition respects (RO RF : World -> World -> Prop) {A} (m : M A) : Prop :=
  forall w, match m w with
            | Ok _ w' => RO w w'
            | Fatal w' => RF w w'
            end.

(** Everything on the console but the diagnostics of [log.Fatal]. *)
Definition silent (e : event) : bool :=
  match e with
  | Stderr _ => false
  | _ => true
  end.

(** The console grew, and no diagnostic was written. *)
Definition went_on (w w' : World) : Prop :=
  exists l, console w' = (console w ++ l)%list /\ forallb silent l = true.

(** The console grew, and the one diagnostic is the last event. *)
Definition gave_up (w w' : World) : Prop :=
  exists l msg, console w' = (console w ++ l ++ [Stderr msg])%list /\ forallb silent l = true.

Definition same_stdin (w w' : World) : Prop := stdin w' = stdin w.

(** A computation that always goes on, and leaves the streams alone. *)
Definition streams_alone {A} (m : M A) : Prop :=
  forall w, exists a w', m w = Ok a w' /\ console w' = console w /\ stdin w' = stdin w.

(** Whatever does not lie at or below [root] is in [m'] as it is in [m]. *)
Definition outside_kept (root : path) (m m' : FS) : Prop :=
  forall q, ~ root `prefix_of` q -> m' !! q = m !! q.

(** The external commands, run in the project directory, write only there. *)
Definition exec_inside (env : Env) (basePath : string) : Prop :=
  forall argv (m : FS),
    outside_kept (resolve (env_cwd env) basePath) m (env_exec env basePath argv m).1.

(** The discipline of the scaffold on the file system: from a state of the
    scaffold it goes on to a state of the scaffold, and whether it goes on
    or ends the run, it has kept what lies outside the project directory. *)
Definition scaffold_on (m0 : FS) (root : path) (w w' : World) : Prop :=
  scaffolding m0 root w -> scaffolding m0 root w' /\ outside_kept root (fs w) (fs w').

Definition scaffold_off (m0 : FS) (root : path) (w w' : World) : Prop :=
  scaffolding m0 root w -> outside_kept root (fs w) (fs w').

(** The world after the scaffold has been made in [demo_started]. *)
Definition demo_scaffolded : World :=
  final_world (createDirectoriesAndFiles demo_env demo_order "/tmp/x/demo" demo_started).

(** One of the files of the steps [l] has no template that is a file of
    [m0], and stands empty in the project directory [root] of [w']. *)
Definition left_empty (cwd : path) (m0 : FS) (root : path) (l : list step) (w' : World) : Prop :=
  exists dir file,
    FileStep dir file ∈ l /\ ~ has_template cwd m0 file
    /\ fs w' !! (root ++ dir_ext dir ++ [file])%list = Some (File []).

(** The file system of [demo_fs] without the template of the [Makefile],
    and the world in which the project directory has just been made there. *)
Definition demo_fs_no_makerun : FS := delete ["work"; "templates"; "makerun.txt"] demo_fs.

Definition demo_started_no_makerun : World :=
  {| fs := <[["tmp"; "x"; "demo"] := Dir]> demo_fs_no_makerun;
     stdin := EmptyString; console := [] |}.

Definition demo_left_empty : World :=
  final_world (createDirectoriesAndFiles demo_env demo_order "/tmp/x/demo"
                 demo_started_no_makerun).


(** What a user types when the input ends right after the second answer,
    with no line feed behind it. *)
Definition unfinished_world (m : FS) (con : list event)
    (w1 b w2 w3 n w4 : string) : World :=
  {| fs := m;
     stdin := (w1 ++ b ++ w2) ++ newline ++ (w3 ++ n ++ w4);
     console := con |}.

Definition demo_unfinished : World :=
  unfinished_world demo_fs [] "  " "/tmp/x" demo_nbsp_space (str1 tab) "demo" "  ".


(** The processes that a list of events starts, in order: the directory each
    runs in and its command line. *)
Definition commands_of (evs : list event) : list (string * list string) :=
  omap (fun e => match e with
                 | Exec dir argv => Some (dir, argv)
                 | _ => None
                 end) evs.

(** The console grew, and no process was started. *)
Definition no_process (w w' : World) : Prop :=
  exists evs, console w' = (console w ++ evs)%list /\ commands_of evs = [].




(** * Properties *)

Section Inputs.
Variable env : Env.
Variable order : list (string * list string).

Lemma ensureAirInstalled_found w :
  env_path env "air" = true -> ensureAirInstalled env w = Ok tt w.
Proof.
  intros H. unfold ensureAirInstalled, checkCommandExists, exec_LookPath, bind.
  by rewrite H.
Qed.

Lemma ensureAirInstalled_missing w :
  env_path env "air" = false ->
  ensureAirInstalled env w = Fatal (emit (Stderr air_missing_message) w).
Proof.
  intros H. unfold ensureAirInstalled, checkCommandExists, exec_LookPath, bind.
  by rewrite H.
Qed.

Lemma ExpandTilde_run p w : ExpandTilde env p w = Ok (expand_tilde env p) w.
Proof.
  unfold ExpandTilde, expand_tilde, bind, user_Current, ret.
  destruct (strings_HasPrefix p "~/"); [|done].
  by destruct (env_user env).
Qed.

Lemma main_missing_air w :
  env_path env "air" = false ->
  main env order w = Fatal (emit (Stderr air_missing_message) w).
Proof.
  intros H. unfold main, bind at 1. by rewrite ensureAirInstalled_missing.
Qed.

Lemma main_empty_base w :
  env_path env "air" = true ->
  baseInput_of w = EmptyString ->
  main env order w =
    Fatal {| fs := fs w; stdin := stdin_after_base w;
             console := (console w ++ [Stdout prompt_base;
                                       Stderr "Base path cannot be empty"])%list |}.
Proof.
  intros Hair Hb. unfold main, bind. rewrite ensureAirInstalled_found by done.
  unfold fmt_Print, stdin_ReadString, baseInput_of, stdin_after_base in *. simpl.
  destruct (reader_ReadString (stdin w)) as [line rest] eqn:E. simpl in *.
  rewrite Hb. simpl. unfold log_Fatal, emit, set_stdin. simpl.
  by rewrite <- app_assoc.
Qed.
End Inputs.

Section Prompts.
Variable env : Env.
Variable order : list (string * list string).

Lemma main_expand_error w e :
  env_path env "air" = true ->
  baseInput_of w <> EmptyString ->
  (expand_tilde env (baseInput_of w)).2 = Some e ->
  main env order w =
    Fatal {| fs := fs w; stdin := stdin_after_base w;
             console := (console w ++ [Stdout prompt_base;
                                       Stderr ("Error expanding base path: " ++ e)])%list |}.
Proof.
  intros Hair Hb He. unfold main, bind. rewrite ensureAirInstalled_found by done.
  unfold fmt_Print, stdin_ReadString, baseInput_of, stdin_after_base in *. simpl.
  destruct (reader_ReadString (stdin w)) as [line rest] eqn:E. simpl in *.
  destruct (decide (strings_TrimSpace line = EmptyString)) as [|_]; [done|]. simpl.
  rewrite ExpandTilde_run.
  destruct (expand_tilde env (strings_TrimSpace line)) as [x err]. simpl in He. subst err.
  unfold log_Fatal, emit, set_stdin. simpl. by rewrite <- app_assoc.
Qed.

Lemma main_empty_name w :
  env_path env "air" = true ->
  baseInput_of w <> EmptyString ->
  (expand_tilde env (baseInput_of w)).2 = None ->
  projectName_of w = EmptyString ->
  main env order w =
    Fatal {| fs := fs w; stdin := stdin_after_name w;
             console := (console w ++ [Stdout prompt_base; Stdout prompt_name;
                                       Stderr "Project name cannot be empty"])%list |}.
Proof.
  intros Hair Hb He Hn. unfold main, bind. rewrite ensureAirInstalled_found by done.
  unfold fmt_Print, stdin_ReadString, baseInput_of, projectName_of, stdin_after_name,
    stdin_after_base in *. simpl.
  destruct (reader_ReadString (stdin w)) as [line rest] eqn:E. simpl in *.
  destruct (decide (strings_TrimSpace line = EmptyString)) as [|_]; [done|]. simpl.
  rewrite ExpandTilde_run.
  destruct (expand_tilde env (strings_TrimSpace line)) as [x err]. simpl in He. subst err.
  simpl.
  destruct (reader_ReadString rest) as [line2 rest2] eqn:E2. simpl in *.
  rewrite Hn. simpl. unfold log_Fatal, emit, set_stdin. simpl.
  by rewrite <- !app_assoc.
Qed.

(** With the tool installed, two non-empty inputs and the home directory
    known, [main] is [build] on the joined path. *)
Lemma main_reaches_build w :
  env_path env "air" = true ->
  baseInput_of w <> EmptyString ->
  (expand_tilde env (baseInput_of w)).2 = None ->
  projectName_of w <> EmptyString ->
  main env order w =
    build env order
      (filepath_Join [(expand_tilde env (baseInput_of w)).1; projectName_of w])
      (projectName_of w) (prompted w).
Proof.
  intros Hair Hb He Hn. unfold main, bind. rewrite ensureAirInstalled_found by done.
  unfold prompted, fmt_Print, stdin_ReadString, baseInput_of, projectName_of,
    stdin_after_name, stdin_after_base in *. simpl.
  destruct (reader_ReadString (stdin w)) as [line rest] eqn:E. simpl in *.
  destruct (decide (strings_TrimSpace line = EmptyString)) as [|_]; [done|]. simpl.
  rewrite ExpandTilde_run.
  destruct (expand_tilde env (strings_TrimSpace line)) as [x err]. simpl in He. subst err.
  simpl.
  destruct (reader_ReadString rest) as [line2 rest2] eqn:E2. simpl in *.
  destruct (decide (strings_TrimSpace line2 = EmptyString)) as [|_]; [done|]. simpl.
  unfold set_stdin, emit. simpl. rewrite <- !app_assoc. simpl.
  reflexivity.
Qed.
End Prompts.

(** ** Paths: [filepath.Clean] and [filepath.Join] against resolution *)

Section Paths.
Implicit Types (s a b e : string) (es out : list string) (base : path).

Lemma split_path_nonempty s : split_path s <> [].
Proof.
  destruct s as [|c r]; simpl; [done|].
  destruct (Ascii.eqb c slash); [done|]. by destruct (split_path r).
Qed.

Lemma split_path_app a b :
  split_path (a ++ String slash b) = (split_path a ++ split_path b)%list.
Proof.
  induction a as [|c a IH]; simpl.
  - done.
  - destruct (Ascii.eqb c slash); [by rewrite IH|].
    rewrite IH. pose proof (split_path_nonempty a).
    by destruct (split_path a).
Qed.

Lemma split_path_no_slash e : no_slash e = true -> split_path e = [e].
Proof.
  induction e as [|c e IH]; simpl; [done|].
  intros [Hc He]%andb_prop. apply negb_true_iff in Hc. rewrite Hc.
  by rewrite IH.
Qed.

Lemma split_path_elems s : Forall (fun e => no_slash e = true) (split_path s).
Proof.
  induction s as [|c s IH]; simpl.
  - by constructor.
  - destruct (Ascii.eqb c slash) eqn:Hc; [by constructor|].
    destruct (split_path s) as [|e es]; simpl.
    + constructor; [|done]. simpl. by rewrite Hc.
    + inversion IH; subst. constructor; [|done]. simpl. by rewrite Hc.
Qed.

Lemma split_join_path es :
  es <> [] -> Forall (fun e => no_slash e = true) es -> split_path (join_path es) = es.
Proof.
  induction es as [|e es IH]; [done|]. intros _ Hall.
  inversion Hall as [|? ? He Hes]; subst.
  destruct es as [|e' es'].
  - simpl. by apply split_path_no_slash.
  - change (join_path (e :: e' :: es')) with (e ++ String slash (join_path (e' :: es'))).
    rewrite split_path_app, IH by done. by rewrite split_path_no_slash.
Qed.

Lemma resolve_elems_app base es1 es2 :
  resolve_elems base (es1 ++ es2) = resolve_elems (resolve_elems base es1) es2.
Proof. apply foldl_app. Qed.

Lemma resolve_step_plain base e : plain_name e -> resolve_step base e = (base ++ [e])%list.
Proof.
  intros (H1 & H2 & H3 & _). unfold resolve_step.
  by repeat case_decide.
Qed.

Lemma resolve_elems_plain base es :
  Forall plain_name es -> resolve_elems base es = (base ++ es)%list.
Proof.
  revert base. induction es as [|e es IH]; intros base Hall; simpl.
  - by rewrite app_nil_r.
  - inversion Hall; subst. unfold resolve_elems in *. simpl.
    rewrite resolve_step_plain by done. rewrite IH by done.
    by rewrite <- app_assoc.
Qed.

Lemma clean_elems_kept is_rooted out es :
  Forall kept out -> Forall (fun e => no_slash e = true) es ->
  Forall kept (clean_elems is_rooted out es).
Proof.
  revert out. induction es as [|e es IH]; intros out Hout Hes; simpl.
  - by apply Forall_rev.
  - inversion Hes as [|? ? He Hes']; subst.
    repeat case_decide; subst; try by apply IH.
    + destruct out as [|top out'].
      * destruct is_rooted; apply IH; try done.
        constructor; [|done]. by repeat split.
      * inversion Hout; subst. case_decide; apply IH; try done.
        constructor; [|done]. by repeat split.
    + apply IH; [|done]. constructor; [|done]. by repeat split.
Qed.

Lemma resolve_elems_cons base e es :
  resolve_elems base (e :: es) = resolve_elems (resolve_step base e) es.
Proof. reflexivity. Qed.

Lemma resolve_elems_snoc base es e :
  resolve_elems base (es ++ [e]) = resolve_step (resolve_elems base es) e.
Proof. by rewrite resolve_elems_app. Qed.

Lemma resolve_step_dotdot base : resolve_step base ".." = removelast base.
Proof. reflexivity. Qed.

Lemma resolve_step_kept base e :
  kept e -> e <> ".." -> resolve_step base e = (base ++ [e])%list.
Proof. intros (? & ? & ?) ?. unfold resolve_step. by repeat case_decide. Qed.

Lemma kept_dotdot : kept "..".
Proof. by repeat split. Qed.

Lemma resolve_clean_elems is_rooted base out es :
  (is_rooted = true -> base = []) ->
  Forall kept out ->
  Forall (fun e => no_slash e = true) es ->
  resolve_elems base (clean_elems is_rooted out es)
  = resolve_elems (resolve_elems base (rev out)) es.
Proof.
  intros Hroot. revert out. induction es as [|e es IH]; intros out Hout Hes.
  { reflexivity. }
  inversion Hes as [|? ? He Hes']; subst.
  rewrite resolve_elems_cons.
  cbn [clean_elems].
  destruct (decide (e = EmptyString)) as [->|He1]; [by rewrite IH|].
  destruct (decide (e = ".")) as [->|He2]; [by rewrite IH|].
  destruct (decide (e = "..")) as [->|He3].
  - rewrite resolve_step_dotdot.
    destruct out as [|top out'].
    + destruct is_rooted.
      * rewrite IH by done. cbn [rev]. by rewrite (Hroot eq_refl).
      * rewrite IH by first [done | constructor; [apply kept_dotdot|done]].
        cbn [rev app]. by rewrite resolve_elems_cons.
    + inversion Hout as [|? ? Htop Hout']; subst.
      destruct (decide (top = "..")) as [->|Htop'].
      * rewrite IH by first [done | constructor; [apply kept_dotdot|done]].
        cbn [rev]. by rewrite !resolve_elems_snoc.
      * rewrite IH by done. cbn [rev]. rewrite resolve_elems_snoc.
        rewrite (resolve_step_kept _ top) by done.
        by rewrite removelast_last.
  - assert (Hk : kept e) by (by repeat split).
    rewrite IH by first [done | by constructor].
    cbn [rev]. by rewrite resolve_elems_snoc.
Qed.

Lemma rooted_join_kept out :
  Forall kept out -> out <> [] -> rooted (join_path out) = false.
Proof.
  intros Hall Hne. destruct out as [|e rest]; [done|].
  inversion Hall as [|? ? (He & _ & Hs) _]; subst.
  destruct e as [|c r]; [done|]. simpl in Hs.
  apply andb_prop in Hs as [Hc _]. apply negb_true_iff in Hc.
  by destruct rest.
Qed.

Lemma kept_no_slash out : Forall kept out -> Forall (fun e => no_slash e = true) out.
Proof. intros H. eapply Forall_impl; [exact H|]. by intros e (_ & _ & ?). Qed.

(** Cleaning a path does not change what it names. *)
Lemma resolve_Clean cwd s : resolve cwd (filepath_Clean s) = resolve cwd s.
Proof.
  unfold filepath_Clean. destruct (decide (s = EmptyString)) as [->|Hs]; [done|].
  pose proof (clean_elems_kept (rooted s) [] (split_path s) (Forall_nil_2 _)
                (split_path_elems s)) as Hk.
  assert (Hres : forall base, (rooted s = true -> base = []) ->
            resolve_elems base (clean_elems (rooted s) [] (split_path s))
            = resolve_elems base (split_path s)).
  { intros base Hb. rewrite resolve_clean_elems; [done|done|done|apply split_path_elems]. }
  set (out := clean_elems (rooted s) [] (split_path s)) in *.
  unfold resolve at 2.
  destruct (rooted s) eqn:Hr.
  - rewrite <- Hres by done.
    unfold resolve. cbn [rooted]. change (Ascii.eqb slash slash) with true.
    cbn [split_path]. change (Ascii.eqb slash slash) with true. cbv iota.
    rewrite resolve_elems_cons. change (resolve_step [] EmptyString) with (@nil string).
    destruct out as [|e rest] eqn:Eo; [done|].
    rewrite split_join_path; [done|done|by apply kept_no_slash].
  - rewrite <- Hres by done.
    destruct out as [|e rest] eqn:Eo; [done|].
    unfold resolve. rewrite rooted_join_kept by done.
    rewrite split_join_path; [done|done|by apply kept_no_slash].
Qed.

Lemma Clean_nonempty s : filepath_Clean s <> EmptyString.
Proof.
  unfold filepath_Clean. destruct (decide (s = EmptyString)); [done|].
  pose proof (clean_elems_kept (rooted s) [] (split_path s) (Forall_nil_2 _)
                (split_path_elems s)) as Hk.
  destruct (rooted s); [done|].
  destruct (clean_elems false [] (split_path s)) as [|e rest]; [done|].
  inversion Hk as [|? ? (He & _) _]; subst.
  destruct e; [done|]. by destruct rest.
Qed.

Lemma Join2 a b :
  a <> EmptyString -> filepath_Join [a; b] = filepath_Clean (a ++ String slash b).
Proof. intros Ha. cbn [filepath_Join]. by destruct (decide (a = EmptyString)). Qed.

Lemma Join2_nonempty a b :
  a <> EmptyString \/ b <> EmptyString -> filepath_Join [a; b] <> EmptyString.
Proof.
  intros H. cbn [filepath_Join].
  destruct (decide (a = EmptyString)) as [->|]; [|apply Clean_nonempty].
  destruct (decide (b = EmptyString)) as [->|]; [|apply Clean_nonempty].
  by destruct H.
Qed.

Lemma rooted_app a b : a <> EmptyString -> rooted (a ++ b) = rooted a.
Proof. by destruct a. Qed.

(** Joining a relative path onto a non-empty one names the relative path
    resolved from what the first one names. *)
Lemma resolve_Join2 cwd a b :
  a <> EmptyString ->
  resolve cwd (filepath_Join [a; b]) = resolve_elems (resolve cwd a) (split_path b).
Proof.
  intros Ha. rewrite Join2, resolve_Clean by done.
  unfold resolve. rewrite rooted_app by done.
  by rewrite split_path_app, resolve_elems_app.
Qed.
End Paths.

(** ** The file system: trees, and what each call does *)

Section FsLemmas.
Local Open Scope list_scope.
Implicit Types (m : FS) (p q r : path) (n : node).

Lemma fs_lookup_ne m p : p <> [] -> fs_lookup m p = m !! p.
Proof. by destruct p. Qed.

Lemma fs_lookup_None m p : fs_lookup m p = None -> p <> [] /\ m !! p = None.
Proof. by destruct p. Qed.

Lemma fs_lookup_insert m p n q :
  p <> [] ->
  fs_lookup (<[p := n]> m) q = if decide (p = q) then Some n else fs_lookup m q.
Proof.
  intros Hp. destruct q as [|x q].
  - simpl. by case_decide.
  - simpl. apply lookup_insert.
Qed.

Lemma parent_snoc q x : parent (q ++ [x]) = q.
Proof. apply removelast_last. Qed.

Lemma snoc_cases p : p = [] \/ exists q x, p = (q ++ [x])%list.
Proof.
  destruct p as [|y p] using rev_ind; [by left|]. right. by eexists _, _.
Qed.

Lemma parent_ne p : p <> [] -> parent p <> p.
Proof.
  intros Hp. destruct (snoc_cases p) as [?|(q & x & ->)]; [done|].
  rewrite parent_snoc. intros H. apply (f_equal length) in H.
  rewrite length_app in H. simpl in H. lia.
Qed.

Lemma wf_parent m p n :
  fs_wf m -> m !! p = Some n -> p <> [] /\ fs_lookup m (parent p) = Some Dir.
Proof. intros Hwf Hp. exact (Hwf p n Hp). Qed.

Lemma app_snoc_ne q r (x : string) : q ++ r ++ [x] <> [].
Proof.
  intros H. apply (f_equal length) in H. rewrite !length_app in H. simpl in H. lia.
Qed.

Lemma app_cons_ne q (x : string) r : q ++ x :: r <> [].
Proof. by destruct q. Qed.

(** Above whatever exists there are only directories. *)
Lemma wf_prefix_dir m q r n :
  fs_wf m -> r <> [] -> m !! (q ++ r) = Some n -> fs_lookup m q = Some Dir.
Proof.
  intros Hwf. revert n. induction r as [|x r IH] using rev_ind; [done|].
  intros n _ Hl. rewrite app_assoc in Hl.
  destruct (wf_parent _ _ _ Hwf Hl) as [_ Hpar]. rewrite parent_snoc in Hpar.
  destruct r as [|y r'] using rev_ind.
  - by rewrite app_nil_r in Hpar.
  - clear IHr'. rewrite fs_lookup_ne in Hpar by apply app_snoc_ne.
    eapply IH; [|done]. by destruct r'.
Qed.

(** Below what does not exist there is nothing. *)
Lemma wf_fresh_under m p ext :
  fs_wf m -> fs_lookup m p = None -> m !! (p ++ ext) = None.
Proof.
  intros Hwf Hp. destruct (m !! (p ++ ext)) as [n|] eqn:E; [|done].
  destruct ext as [|x ext].
  - rewrite app_nil_r in E. apply fs_lookup_None in Hp as [_ Hp]. congruence.
  - apply wf_prefix_dir in E; [congruence|done|done].
Qed.

Lemma wf_insert m p n :
  fs_wf m -> p <> [] -> fs_lookup m (parent p) = Some Dir ->
  (n = Dir \/ m !! p <> Some Dir) ->
  fs_wf (<[p := n]> m).
Proof.
  intros Hwf Hp Hpar Hn q nq Hq.
  destruct (decide (p = q)) as [<-|Hne].
  - split; [done|]. rewrite fs_lookup_insert by done.
    case_decide as Hd; [|done]. by apply parent_ne in Hp.
  - rewrite lookup_insert_ne in Hq by done.
    destruct (wf_parent _ _ _ Hwf Hq) as [Hq0 Hqpar]. split; [done|].
    rewrite fs_lookup_insert by done. case_decide as Hd; [|done].
    subst p. destruct Hn as [->|Hn]; [done|].
    rewrite fs_lookup_ne in Hqpar by done. done.
Qed.
End FsLemmas.

Section Calls.
Local Open Scope list_scope.
Variable fault : syscall -> option errno.
Implicit Types (m : FS) (p q r : path) (n : node).

Lemma mkdir_inr m p m' :
  mkdir fault m p = inr m' ->
  p <> [] /\ m !! p = None /\ fs_lookup m (parent p) = Some Dir /\ m' = <[p := Dir]> m.
Proof.
  unfold mkdir. intros H.
  destruct (fault (SysMkdir p)); [done|].
  destruct (fs_lookup m (parent p)) as [[|c]|] eqn:Hpar; try done.
  destruct (fs_lookup m p) eqn:Hp; [done|].
  apply fs_lookup_None in Hp as [? ?]. by simplify_eq.
Qed.

Lemma mkdir_exists m p n : fs_lookup m p = Some n -> exists e, mkdir fault m p = inl e.
Proof.
  unfold mkdir. intros H. destruct (fault (SysMkdir p)); [by eexists|].
  destruct (fs_lookup m (parent p)) as [[|c]|]; try by eexists.
  rewrite H. by eexists.
Qed.

Lemma create_inr m p m' :
  create fault m p = inr m' ->
  p <> [] /\ fs_lookup m (parent p) = Some Dir /\ m !! p <> Some Dir
  /\ m' = <[p := File []]> m.
Proof.
  unfold create. intros H.
  destruct (fault (SysOpen p)); [done|].
  destruct (fs_lookup m (parent p)) as [[|c]|] eqn:Hpar; try done.
  destruct p as [|x p]; [done|]. simpl in H.
  destruct (m !! (x :: p)) as [[|c]|] eqn:Hp; try done; by simplify_eq.
Qed.

Lemma read_file_inr m p c : read_file fault m p = inr c -> m !! p = Some (File c).
Proof.
  unfold read_file. intros H. destruct (fault (SysRead p)); [done|].
  destruct p as [|x p]; [done|]. simpl in H.
  destruct (m !! (x :: p)) as [[|c']|]; try done. by simplify_eq.
Qed.

Lemma write_inr m p b m' :
  write fault m p b = inr m' ->
  exists old, m !! p = Some (File old) /\ m' = <[p := File (old ++ b)]> m.
Proof.
  unfold write. intros H. destruct (fault (SysWrite p)); [done|].
  destruct p as [|x p]; [done|]. simpl in H.
  destruct (m !! (x :: p)) as [[|c']|]; try done. simplify_eq. by eexists.
Qed.

(** [os.MkdirAll] one level at a time. *)
Lemma mkdir_all_nil m : mkdir_all fault m [] = (m, None).
Proof. reflexivity. Qed.

Lemma mkdir_all_snoc m q x :
  mkdir_all fault m (q ++ [x]) =
    match fs_lookup m (q ++ [x]) with
    | Some Dir => (m, None)
    | Some (File _) => (m, Some ENOTDIR)
    | None =>
        match mkdir_all fault m q with
        | (m1, Some e) => (m1, Some e)
        | (m1, None) =>
            match mkdir fault m1 (q ++ [x]) with
            | inr m2 => (m2, None)
            | inl e =>
                match fs_lookup m1 (q ++ [x]) with
                | Some Dir => (m1, None)
                | _ => (m1, Some e)
                end
            end
        end
    end.
Proof.
  unfold mkdir_all. rewrite rev_app_distr. cbn [rev app mkdir_all_up].
  by rewrite rev_involutive.
Qed.

(** Whatever [os.MkdirAll] returns, nothing that was there is touched. *)
Lemma mkdir_all_subseteq m p m' (o : option errno) :
  mkdir_all fault m p = (m', o) -> m ⊆ m'.
Proof.
  revert m' o. induction p as [|x q IH] using rev_ind; intros m' o.
  - rewrite mkdir_all_nil. by intros [= <- _].
  - rewrite mkdir_all_snoc.
    destruct (fs_lookup m (q ++ [x])) as [[|c]|]; try by intros [= <- _].
    destruct (mkdir_all fault m q) as [m1 [e|]] eqn:E.
    + intros [= <- _]. by eapply IH.
    + specialize (IH _ _ eq_refl).
      destruct (mkdir fault m1 (q ++ [x])) as [e|m2] eqn:Em.
      * destruct (fs_lookup m1 (q ++ [x])) as [[|c]|]; by intros [= <- _].
      * intros [= <- _]. apply mkdir_inr in Em as (_ & Hnone & _ & ->).
        etrans; [exact IH|]. by apply insert_subseteq.
Qed.

Lemma mkdir_all_wf m p m' (o : option errno) :
  fs_wf m -> mkdir_all fault m p = (m', o) -> fs_wf m'.
Proof.
  intros Hwf. revert m' o. induction p as [|x q IH] using rev_ind; intros m' o.
  - rewrite mkdir_all_nil. by intros [= <- _].
  - rewrite mkdir_all_snoc.
    destruct (fs_lookup m (q ++ [x])) as [[|c]|]; try by intros [= <- _].
    destruct (mkdir_all fault m q) as [m1 [e|]] eqn:E.
    + intros [= <- _]. by eapply IH.
    + specialize (IH _ _ eq_refl).
      destruct (mkdir fault m1 (q ++ [x])) as [e|m2] eqn:Em.
      * destruct (fs_lookup m1 (q ++ [x])) as [[|c]|]; by intros [= <- _].
      * intros [= <- _]. apply mkdir_inr in Em as (Hne & Hnone & Hpar & ->).
        apply wf_insert; auto.
Qed.
End Calls.

(** ** Filling in a list of nodes *)

Section Items.
Local Open Scope list_scope.
Implicit Types (m : FS) (p q : path) (n : node) (items : list (path * node)).

Lemma insert_items_app items1 items2 m :
  insert_items (items1 ++ items2) m = insert_items items2 (insert_items items1 m).
Proof. apply foldl_app. Qed.

Lemma insert_items_snoc items k v m :
  insert_items (items ++ [(k, v)]) m = <[k := v]> (insert_items items m).
Proof. by rewrite insert_items_app. Qed.

Lemma insert_items_id items m :
  Forall (fun kv => m !! kv.1 = Some kv.2) items -> insert_items items m = m.
Proof.
  induction 1 as [|[k v] items Hk _ IH]; [done|].
  cbn [insert_items foldl]. simpl in Hk. rewrite insert_id by done. exact IH.
Qed.

Lemma lookup_insert_items_notin items m q :
  q ∉ items.*1 -> insert_items items m !! q = m !! q.
Proof.
  induction items as [|[k v] items IH] using rev_ind; [done|].
  rewrite fmap_app, not_elem_of_app. intros [H1 H2].
  rewrite insert_items_snoc. simpl in H2. apply not_elem_of_cons in H2 as [H2 _].
  rewrite lookup_insert_ne by done. by apply IH.
Qed.

Lemma lookup_insert_items_in items m q n :
  functional items -> (q, n) ∈ items -> insert_items items m !! q = Some n.
Proof.
  induction items as [|[k v] items IH] using rev_ind; [by intros _ ?%elem_of_nil|].
  intros Hf Hin. rewrite insert_items_snoc.
  destruct (decide (k = q)) as [->|Hne].
  - rewrite lookup_insert_eq. f_equal. apply (Hf q); [|done].
    apply elem_of_app. right. by apply list_elem_of_singleton.
  - rewrite lookup_insert_ne by done. apply IH.
    + intros k' v1 v2 H1 H2. apply (Hf k'); apply elem_of_app; by left.
    + apply elem_of_app in Hin as [?|Hin]; [done|].
      apply list_elem_of_singleton in Hin. by simplify_eq.
Qed.

Lemma insert_items_subseteq items m :
  (forall k, k ∈ items.*1 -> m !! k = None) -> functional items ->
  m ⊆ insert_items items m.
Proof.
  intros Hnew Hf. apply map_subseteq_spec. intros q n Hq.
  rewrite lookup_insert_items_notin; [done|].
  intros Hin. apply Hnew in Hin. congruence.
Qed.

Lemma dir_chain_snoc base ext x :
  dir_chain base (ext ++ [x]) = dir_chain base ext ++ [base ++ ext ++ [x]].
Proof.
  revert base. induction ext as [|y ext IH]; intros base; [done|].
  cbn [dir_chain app]. rewrite IH. by rewrite <- !app_assoc.
Qed.

Lemma elem_of_dir_chain base ext p :
  p ∈ dir_chain base ext ->
  exists pre suf, pre <> [] /\ ext = pre ++ suf /\ p = base ++ pre.
Proof.
  induction ext as [|x ext IH] using rev_ind; [by intros ?%elem_of_nil|].
  rewrite dir_chain_snoc. intros [Hin|Hin]%elem_of_app.
  - destruct (IH Hin) as (pre & suf & ? & -> & ->).
    exists pre, (suf ++ [x]). by rewrite app_assoc.
  - apply list_elem_of_singleton in Hin as ->.
    exists (ext ++ [x]), []. split; [by destruct ext|]. by rewrite app_nil_r.
Qed.

Lemma dir_chain_base base ext :
  dir_chain base ext = (fun p => base ++ p) <$> dir_chain [] ext.
Proof.
  induction ext as [|x ext IH] using rev_ind; [done|].
  rewrite !dir_chain_snoc, fmap_app, <- IH. done.
Qed.

(** A successful [os.MkdirAll] below an existing directory leaves a
    directory at every level of the path. *)
Lemma mkdir_all_ok fault m base ext m' :
  fs_wf m -> fs_lookup m base = Some Dir ->
  mkdir_all fault m (base ++ ext) = (m', None) ->
  m' = insert_items (dir_items (dir_chain base ext)) m.
Proof.
  intros Hwf Hbase. revert m'. induction ext as [|x ext IH] using rev_ind; intros m'.
  - rewrite app_nil_r. destruct base as [|b base]; [by intros [= <-]|].
    destruct (snoc_cases (b :: base)) as [?|(q & y & Hq)]; [done|].
    rewrite Hq in *. rewrite mkdir_all_snoc, Hbase. by intros [= <-].
  - rewrite app_assoc, mkdir_all_snoc, <- app_assoc.
    rewrite dir_chain_snoc. unfold dir_items. rewrite fmap_app, insert_items_app.
    fold (dir_items (dir_chain base ext)). cbn [fmap list_fmap insert_items foldl fst snd].
    destruct (fs_lookup m (base ++ ext ++ [x])) as [[|c]|] eqn:Hl; [|done|].
    + intros [= <-]. rewrite fs_lookup_ne in Hl by apply app_snoc_ne.
      rewrite insert_items_id.
      * by rewrite insert_id.
      * apply Forall_fmap, Forall_forall. intros p Hp. simpl.
        apply elem_of_dir_chain in Hp as (pre & suf & Hpre & -> & ->).
        rewrite <- !app_assoc in Hl.
        assert (Hd : fs_lookup m (base ++ pre) = Some Dir).
        { rewrite app_assoc in Hl. eapply wf_prefix_dir; [done| |exact Hl].
          by destruct suf. }
        rewrite fs_lookup_ne in Hd; [done|]. destruct pre; [done|apply app_cons_ne].
    + destruct (mkdir_all fault m (base ++ ext)) as [m1 [e|]] eqn:E; [done|].
      rewrite (IH m1 eq_refl).
      set (mi := insert_items (dir_items (dir_chain base ext)) m).
      destruct (mkdir fault mi (base ++ ext ++ [x])) as [e|m2] eqn:Em.
      * destruct (fs_lookup mi (base ++ ext ++ [x])) as [[|c]|] eqn:Hl'; try done.
        intros [= <-]. rewrite fs_lookup_ne in Hl' by apply app_snoc_ne.
        by rewrite insert_id.
      * intros [= <-]. by apply mkdir_inr in Em as (_ & _ & _ & ->).
Qed.
End Items.

(** ** One step of the scaffold *)

Arguments filepath_Join : simpl never.
Arguments filepath_Clean : simpl never.
Arguments resolve : simpl never.
Arguments strings_TrimSpace : simpl never.
Arguments getTemplateFileName : simpl never.
Arguments template_path : simpl never.

Section Steps.
Local Open Scope list_scope.
Variable env : Env.
Variable basePath : string.
Variable m0 : FS.
Hypothesis basePath_nonempty : basePath <> EmptyString.

Local Abbreviation cwd := (env_cwd env).
Local Abbreviation root := (resolve (env_cwd env) basePath).
Local Abbreviation item := (slot_item (env_cwd env) m0 (resolve (env_cwd env) basePath)).

Lemma canonical_steps_ok : Forall step_ok (scaffold_steps (map_to_list dirs)).
Proof. compute_done. Qed.

Lemma resolve_dir dir :
  Forall plain_name (split_path dir) ->
  resolve cwd (filepath_Join [basePath; dir]) = root ++ split_path dir.
Proof.
  intros H. rewrite resolve_Join2 by done. by apply resolve_elems_plain.
Qed.

Lemma dir_path_nonempty dir : dir_path basePath dir <> EmptyString.
Proof. destruct dir; simpl; [|done]. apply Join2_nonempty. by left. Qed.

Lemma resolve_dir_path dir :
  Forall plain_name (dir_ext dir) ->
  resolve cwd (dir_path basePath dir) = root ++ dir_ext dir.
Proof.
  destruct dir as [d|]; simpl.
  - apply resolve_dir.
  - by rewrite app_nil_r.
Qed.

Lemma resolve_file dir file :
  Forall plain_name (dir_ext dir) -> plain_name file ->
  resolve cwd (filepath_Join [dir_path basePath dir; file]) = root ++ dir_ext dir ++ [file].
Proof.
  intros Hd Hf. rewrite resolve_Join2 by apply dir_path_nonempty.
  rewrite resolve_dir_path by done.
  pose proof Hf as (_ & _ & _ & Hs). rewrite split_path_no_slash by done.
  rewrite resolve_elems_plain; [by rewrite app_assoc|].
  by constructor.
Qed.

Lemma ends_in_app q ext :
  ext <> [] -> ends_in_scaffold_name (q ++ ext) <-> ends_in_scaffold_name ext.
Proof.
  intros Hne. unfold ends_in_scaffold_name. rewrite last_app.
  destruct (last ext) eqn:E; [done|]. by apply last_None in E.
Qed.

Lemma ends_in_names ext :
  ext <> [] -> Forall (fun x => x ∈ scaffold_names) ext -> ends_in_scaffold_name ext.
Proof.
  intros Hne Hall. unfold ends_in_scaffold_name.
  destruct (last ext) as [x|] eqn:E; [|by apply last_None in E].
  apply last_Some_elem_of in E. by eapply Forall_forall in Hall.
Qed.

Lemma template_path_outside dir file :
  step_ok (FileStep dir file) -> ~ ends_in_scaffold_name (template_path cwd file).
Proof.
  intros (_ & _ & _ & Hr & Hp & Hn). unfold template_path, resolve. rewrite Hr.
  rewrite resolve_elems_plain by done.
  rewrite ends_in_app; [done|apply split_path_nonempty].
Qed.

Lemma fs_lookup_subseteq (m m' : FS) p n :
  m ⊆ m' -> fs_lookup m p = Some n -> fs_lookup m' p = Some n.
Proof.
  intros Hsub. destruct p; [done|]. simpl. intros H. by eapply lookup_weaken.
Qed.

Lemma mkdir_step_slots dir :
  item <$> step_slots (MkdirStep dir) = dir_items (dir_chain root (split_path dir)).
Proof.
  cbn [step_slots]. rewrite (dir_chain_base root). unfold dir_items.
  rewrite <- !list_fmap_compose. by apply list_fmap_ext.
Qed.

Lemma file_step_slots dir file :
  item <$> step_slots (FileStep dir file)
  = [(root ++ dir_ext dir ++ [file], File (template_bytes cwd m0 file))].
Proof. reflexivity. Qed.

(** Every path a step fills in ends in a name of the tree. *)
Lemma step_keys_end s k :
  step_ok s -> k ∈ (item <$> step_slots s).*1 -> ends_in_scaffold_name k.
Proof.
  destruct s as [dir|dir file]; intros Hok Hk.
  - destruct Hok as [_ Hnames]. rewrite mkdir_step_slots in Hk.
    unfold dir_items in Hk. rewrite <- list_fmap_compose in Hk.
    apply list_elem_of_fmap in Hk as (p & -> & Hp). simpl.
    apply elem_of_dir_chain in Hp as (pre & suf & Hpre & Hsplit & ->).
    rewrite ends_in_app by done. apply ends_in_names; [done|].
    rewrite Hsplit in Hnames. by apply Forall_app in Hnames as [? _].
  - destruct Hok as (_ & _ & Hin & _). rewrite file_step_slots in Hk.
    apply list_elem_of_singleton in Hk as ->. simpl.
    rewrite app_assoc. rewrite ends_in_app by done.
    unfold ends_in_scaffold_name. done.
Qed.

Lemma step_keys_below s k :
  k ∈ (item <$> step_slots s).*1 -> exists ext, ext <> [] /\ k = root ++ ext.
Proof.
  destruct s as [dir|dir file]; intros Hk.
  - rewrite mkdir_step_slots in Hk.
    unfold dir_items in Hk. rewrite <- list_fmap_compose in Hk.
    apply list_elem_of_fmap in Hk as (p & -> & Hp). simpl.
    apply elem_of_dir_chain in Hp as (pre & suf & Hpre & Hsplit & ->). eauto.
  - rewrite file_step_slots in Hk.
    apply list_elem_of_singleton in Hk as ->. simpl.
    eexists; split; [|done]. by destruct (dir_ext dir).
Qed.

(** A step that completes fills in its slots, prints its line and leaves
    the run in a state from which the next step can start. *)
Lemma run_step_Ok s w w' :
  scaffolding m0 root w -> step_ok s ->
  run_step env basePath s w = Ok tt w' ->
  fs w' = insert_items (item <$> step_slots s) (fs w)
  /\ stdin w' = stdin w
  /\ console w' = console w ++ [step_line basePath s]
  /\ scaffolding m0 root w'
  /\ forall dir file, s = FileStep dir file ->
       m0 !! template_path cwd file = Some (File (template_bytes cwd m0 file)).
Proof.
  intros (Hwf & Hroot & Hframe) Hok Hrun.
  assert (Hfs : fs w' = insert_items (item <$> step_slots s) (fs w)
                /\ stdin w' = stdin w
                /\ console w' = console w ++ [step_line basePath s]
                /\ fs_wf (fs w') /\ fs_lookup (fs w') root = Some Dir
                /\ forall dir file, s = FileStep dir file ->
                     m0 !! template_path cwd file
                     = Some (File (template_bytes cwd m0 file))).
  { destruct s as [dir|dir file].
    - destruct Hok as [Hplain Hnames]. rewrite mkdir_step_slots.
      unfold run_step, bind, os_MkdirAll in Hrun.
      rewrite resolve_dir in Hrun by done.
      destruct (mkdir_all (env_fault env) (fs w) (root ++ split_path dir))
        as [m' [e|]] eqn:Emk; [done|].
      simpl in Hrun. injection Hrun as <-. cbn [fs stdin console set_fs emit].
      split_and!; try done.
      + by eapply mkdir_all_ok.
      + by eapply mkdir_all_wf.
      + eapply fs_lookup_subseteq; [by eapply mkdir_all_subseteq|done].
    - pose proof Hok as (Hd & Hf & Hin & Hr & Hp & Hn). rewrite file_step_slots.
      unfold run_step, create_file, bind, os_Create in Hrun.
      rewrite resolve_file in Hrun by done.
      set (key := root ++ dir_ext dir ++ [file]) in *.
      destruct (create (env_fault env) (fs w) key) as [e|m1] eqn:Ecr; [done|].
      apply create_inr in Ecr as (Hkey & Hpar & Hnd & ->).
      unfold fmt_Print, writeContentFromTemplate, bind, ioutil_ReadFile in Hrun.
      simpl in Hrun.
      fold (template_path cwd file) in Hrun.
      destruct (read_file (env_fault env) _ (template_path cwd file)) as [e|c] eqn:Erd;
        [by destruct e|].
      apply read_file_inr in Erd.
      assert (Hkt : key <> template_path cwd file).
      { intros Heq. eapply (template_path_outside dir file); [done|].
        rewrite <- Heq. unfold key. rewrite app_assoc. by rewrite ends_in_app. }
      rewrite lookup_insert_ne in Erd by done.
      assert (Hrt : template_path cwd file <> root).
      { intros Heq. rewrite <- Heq in Hroot.
        destruct (wf_parent _ _ _ Hwf Erd) as [Hne _].
        rewrite fs_lookup_ne in Hroot by done. congruence. }
      unfold file_Write in Hrun. simpl in Hrun.
      destruct (write (env_fault env) _ key c) as [e|m2] eqn:Ewr; [done|].
      apply write_inr in Ewr as (old & Hold & ->).
      rewrite lookup_insert_eq in Hold. injection Hold as <-.
      simpl in Hrun. injection Hrun as <-. cbn [fs stdin console set_fs emit].
      rewrite insert_insert_eq.
      assert (Hm0 : m0 !! template_path cwd file = Some (File c)).
      { rewrite <- Hframe; [done| |done]. by eapply template_path_outside. }
      assert (Htc : template_bytes cwd m0 file = c).
      { unfold template_bytes. by rewrite Hm0. }
      rewrite Htc. fold key.
      split_and!; try done.
      + apply wf_insert; auto.
      + rewrite fs_lookup_insert by done. case_decide as Hd'; [|done].
        apply (f_equal length) in Hd'. unfold key in Hd'.
        rewrite !length_app in Hd'. simpl in Hd'. lia.
      + intros dir' file' [= _ <-]. by rewrite Htc. }
  destruct Hfs as (Hfs & Hin & Hcon & Hwf' & Hroot' & Htpl).
  split_and!; try done. unfold scaffolding. split_and!; try done.
  intros q Hq Hqr. rewrite Hfs, lookup_insert_items_notin; [by apply Hframe|].
  intros Hk. apply Hq. by eapply step_keys_end.
Qed.

(** A step that fails ends the run there: what was on disk is still there,
    untouched, and the last thing printed is the diagnostic (after the line
    of the file when the file was created but could not be filled). *)
Lemma run_step_Fatal s w w' :
  scaffolding m0 root w -> step_ok s ->
  (forall dir file, s = FileStep dir file -> fs w !! (root ++ dir_ext dir ++ [file]) = None) ->
  run_step env basePath s w = Fatal w' ->
  fs w ⊆ fs w' /\ stdin w' = stdin w
  /\ exists msg, console w' = console w ++ [Stderr msg]
               \/ console w' = console w ++ [step_line basePath s; Stderr msg].
Proof.
  intros (Hwf & Hroot & Hframe) Hok Hfresh Hrun.
  destruct s as [dir|dir file].
  - destruct Hok as [Hplain Hnames].
    unfold run_step, bind, os_MkdirAll in Hrun.
    rewrite resolve_dir in Hrun by done.
    destruct (mkdir_all (env_fault env) (fs w) (root ++ split_path dir))
      as [m' [e|]] eqn:Emk; [|done].
    simpl in Hrun. injection Hrun as <-. cbn [fs stdin console set_fs emit].
    split_and!; [by eapply mkdir_all_subseteq|done|]. eexists. by left.
  - pose proof Hok as (Hd & Hf & Hin & Hr & Hp & Hn).
    specialize (Hfresh _ _ eq_refl).
    unfold run_step, create_file, bind, os_Create in Hrun.
    rewrite resolve_file in Hrun by done.
    set (key := root ++ dir_ext dir ++ [file]) in *.
    destruct (create (env_fault env) (fs w) key) as [e|m1] eqn:Ecr.
    { simpl in Hrun. injection Hrun as <-. cbn [fs stdin console set_fs emit].
      split_and!; [done|done|]. eexists. by left. }
    apply create_inr in Ecr as (Hkey & Hpar & Hnd & ->).
    unfold fmt_Print, writeContentFromTemplate, bind, ioutil_ReadFile in Hrun.
    simpl in Hrun.
    destruct (read_file (env_fault env) _ _) as [e|c] eqn:Erd.
    { assert (Hw' : exists msg, w' = emit (Stderr msg)
                      (emit (step_line basePath (FileStep dir file))
                         (set_fs (<[key := File []]> (fs w)) w))).
      { destruct e; simpl in Hrun; injection Hrun as <-; by eexists. }
      destruct Hw' as [msg ->]. cbn [fs stdin console set_fs emit].
      split_and!; [by apply insert_subseteq|done|].
      eexists. right. by rewrite <- app_assoc. }
    unfold file_Write in Hrun. simpl in Hrun.
    destruct (write (env_fault env) _ key c) as [e|m2] eqn:Ewr; [|done].
    simpl in Hrun. injection Hrun as <-. cbn [fs stdin console set_fs emit].
    split_and!; [by apply insert_subseteq|done|].
    eexists. right. by rewrite <- app_assoc.
Qed.
End Steps.

(** ** Loops *)

Section Loops.
Local Open Scope list_scope.
Context {A : Type}.
Implicit Types (l : list A) (body : A -> M unit).

Lemma for_each_app l1 l2 body w :
  for_each (l1 ++ l2) body w = (for_each l1 body ;;; for_each l2 body) w.
Proof.
  revert w. induction l1 as [|x l1 IH]; intros w; [done|].
  cbn [app for_each]. unfold bind. destruct (body x w); [|done].
  rewrite IH. done.
Qed.

Lemma for_each_fmap {B} (f : B -> A) (l : list B) body w :
  for_each (f <$> l) body w = for_each l (fun x => body (f x)) w.
Proof.
  revert w. induction l as [|x l IH]; intros w; [done|].
  cbn [fmap list_fmap for_each]. unfold bind. destruct (body (f x) w); [|done].
  apply IH.
Qed.

Lemma for_each_ext l body1 body2 w :
  (forall x w, body1 x w = body2 x w) -> for_each l body1 w = for_each l body2 w.
Proof.
  intros Hext. revert w. induction l as [|x l IH]; intros w; [done|].
  cbn [for_each]. unfold bind. rewrite Hext. destruct (body2 x w); [|done]. apply IH.
Qed.

(** A loop that ends the run does so in one of its rounds, after the rounds
    before it have completed. *)
Lemma for_each_Fatal l body w w' :
  for_each l body w = Fatal w' ->
  exists k x wk,
    l !! k = Some x /\ for_each (take k l) body w = Ok tt wk /\ body x wk = Fatal w'.
Proof.
  revert w. induction l as [|x l IH]; intros w; [done|].
  cbn [for_each]. unfold bind at 1.
  destruct (body x w) as [[] w1|w1] eqn:E.
  - intros H. destruct (IH _ H) as (k & y & wk & Hk & Hpre & Hy).
    exists (S k), y, wk. split_and!; try done.
    cbn [take for_each]. unfold bind. by rewrite E.
  - intros [= ->]. exists 0, x, w. by split_and!.
Qed.
End Loops.

(** ** The scaffold as a whole *)

Section Scaffold.
Local Open Scope list_scope.
Variable env : Env.
Variable basePath : string.
Variable m0 : FS.
Hypothesis basePath_nonempty : basePath <> EmptyString.

Local Abbreviation cwd := (env_cwd env).
Local Abbreviation root := (resolve (env_cwd env) basePath).
Local Abbreviation item := (slot_item (env_cwd env) m0 (resolve (env_cwd env) basePath)).

(** [createDirectoriesAndFiles] runs the steps one after the other. *)
Lemma create_dir_steps entry w :
  create_dir env basePath entry w = for_each (entry_steps entry) (run_step env basePath) w.
Proof.
  destruct entry as [dir files]. unfold entry_steps. cbn [fst snd for_each].
  unfold create_dir, run_step at 1, bind.
  destruct (os_MkdirAll env (filepath_Join [basePath; dir]) w) as [[e|] w1|w1]; try done.
  unfold fmt_Print. by rewrite for_each_fmap.
Qed.

Lemma createDirectoriesAndFiles_steps order w :
  createDirectoriesAndFiles env order basePath w
  = for_each (scaffold_steps order) (run_step env basePath) w.
Proof.
  unfold createDirectoriesAndFiles, scaffold_steps. rewrite for_each_app.
  unfold bind.
  assert (H : forall w, for_each order (create_dir env basePath) w
              = for_each (flat_map entry_steps order) (run_step env basePath) w).
  { clear w. induction order as [|e l IH]; intros w; [done|].
    cbn [flat_map for_each]. rewrite for_each_app. unfold bind.
    rewrite create_dir_steps. destruct (for_each (entry_steps e) _ w); [|done].
    apply IH. }
  rewrite H. destruct (for_each (flat_map entry_steps order) _ w); [|done].
  by rewrite for_each_fmap.
Qed.

Lemma scaffold_steps_perm order :
  order ≡ₚ map_to_list dirs -> scaffold_steps order ≡ₚ scaffold_steps (map_to_list dirs).
Proof.
  intros H. unfold scaffold_steps. apply Permutation_app_tail.
  by apply Permutation_flat_map.
Qed.

Lemma scaffold_steps_ok order :
  order ≡ₚ map_to_list dirs -> Forall step_ok (scaffold_steps order).
Proof.
  intros H. rewrite (scaffold_steps_perm order H). apply canonical_steps_ok.
Qed.

Lemma scaffold_steps_NoDup order :
  order ≡ₚ map_to_list dirs -> NoDup (scaffold_steps order).
Proof.
  intros H. rewrite (scaffold_steps_perm order H). compute_done.
Qed.

(** Steps that all complete fill in their slots in turn. *)
Lemma run_steps_Ok l w w' :
  Forall step_ok l -> scaffolding m0 root w ->
  for_each l (run_step env basePath) w = Ok tt w' ->
  fs w' = insert_items (item <$> flat_map step_slots l) (fs w)
  /\ stdin w' = stdin w
  /\ console w' = console w ++ (step_line basePath <$> l)
  /\ scaffolding m0 root w'
  /\ forall dir file, FileStep dir file ∈ l ->
       m0 !! template_path cwd file = Some (File (template_bytes cwd m0 file)).
Proof.
  intros Hall. revert w. induction Hall as [|s l Hs _ IH]; intros w Hinv Hrun.
  - injection Hrun as <-. rewrite app_nil_r. split_and!; try done.
    by intros ? ? ?%elem_of_nil.
  - cbn [for_each] in Hrun. unfold bind in Hrun.
    destruct (run_step env basePath s w) as [[] w1|w1] eqn:E; [|done].
    destruct (run_step_Ok env basePath m0 basePath_nonempty s w w1 Hinv Hs E)
      as (Hfs1 & Hin1 & Hcon1 & Hinv1 & Htpl1).
    destruct (IH w1 Hinv1 Hrun) as (Hfs & Hin & Hcon & Hinv' & Htpl).
    cbn [flat_map]. rewrite fmap_app, insert_items_app, <- Hfs1.
    split_and!; try done.
    + congruence.
    + rewrite Hcon, Hcon1, <- app_assoc. done.
    + intros dir file [Heq|Hin']%elem_of_cons; [by eapply Htpl1|by eapply Htpl].
Qed.
End Scaffold.

(** ** External commands *)

Section Commands.
Local Open Scope list_scope.
Variable env : Env.

Lemma runCommand_run dir command args w :
  runCommand env dir command args w =
    let w1 := emit (Exec dir (command :: args)) w in
    match env_exec env dir (command :: args) (fs w) with
    | (m, None) => Ok None (set_fs m w1)
    | (m, Some e) =>
        Fatal (emit (Stderr ("Error running command: " +:+ e)) (set_fs m w1))
    end.
Proof.
  unfold runCommand, bind, cmd_Run.
  by destruct (env_exec env dir (command :: args) (fs w)) as [m [e|]].
Qed.

Lemma initializeGoMod_run basePath projectName w :
  initializeGoMod env basePath projectName w =
    let w1 := emit (Exec basePath (go_mod_init projectName))
                (emit (Stdout ("Initializing Go module..." +:+ newline)) w) in
    match env_exec env basePath (go_mod_init projectName) (fs w) with
    | (m1, Some e) =>
        Fatal (emit (Stderr ("Error running command: " +:+ e)) (set_fs m1 w1))
    | (m1, None) =>
        let w2 := emit (Exec basePath go_mod_tidy)
                    (emit (Stdout ("Tidying up Go module dependencies..." +:+ newline))
                       (set_fs m1 w1)) in
        match env_exec env basePath go_mod_tidy m1 with
        | (m2, Some e) =>
            Fatal (emit (Stderr ("Error running command: " +:+ e)) (set_fs m2 w2))
        | (m2, None) =>
            Ok tt (emit (Stdout ("Go module initialized successfully!" +:+ newline))
                     (set_fs m2 w2))
        end
    end.
Proof.
  unfold initializeGoMod, runCommand, bind, fmt_Print, cmd_Run, ret, log_Fatal.
  unfold go_mod_init, go_mod_tidy. cbn [fs emit set_fs].
  destruct (env_exec env basePath _ (fs w)) as [m1 [e|]]; [done|].
  cbn [fs emit set_fs].
  by destruct (env_exec env basePath _ m1) as [m2 [e|]].
Qed.
End Commands.

(** ** The tree a complete scaffold leaves *)

Section Tree.
Local Open Scope list_scope.
Variable cwd : path.
Variable m0 : FS.
Variable root : path.

Local Abbreviation item := (slot_item cwd m0 root).

Lemma insert_items_union (L T : list (path * node)) (m : FS) :
  NoDup T.*1 -> (forall x, x ∈ L <-> x ∈ T) -> insert_items L m = list_to_map T ∪ m.
Proof.
  intros Hnd Heq.
  assert (Hf : functional L).
  { intros k v v' H1%Heq H2%Heq.
    apply (elem_of_list_to_map (M := gmap path)) in H1, H2; try done. congruence. }
  apply map_eq. intros q.
  destruct (decide (q ∈ T.*1)) as [Hin|Hnin].
  - apply list_elem_of_fmap in Hin as ([k n] & -> & Hin). simpl.
    rewrite (lookup_insert_items_in L m k n Hf) by by apply Heq.
    symmetry. apply lookup_union_Some_l. by apply elem_of_list_to_map.
  - rewrite lookup_insert_items_notin.
    + symmetry. rewrite lookup_union_r; [done|]. by apply not_elem_of_list_to_map.
    + intros Hin. apply Hnin.
      apply list_elem_of_fmap in Hin as (x & -> & Hin). apply list_elem_of_fmap.
      exists x. split; [done|]. by apply Heq.
Qed.

Lemma canonical_slots_in :
  Forall (fun sl => sl ∈ scaffold_slots)
    (([], None) :: flat_map step_slots (scaffold_steps (map_to_list dirs))).
Proof. compute_done. Qed.

Lemma canonical_slots_all :
  Forall (fun sl => sl ∈ ([], None) :: flat_map step_slots (scaffold_steps (map_to_list dirs)))
    scaffold_slots.
Proof. compute_done. Qed.

Lemma scaffold_slots_NoDup : NoDup scaffold_slots.*1.
Proof. compute_done. Qed.

Lemma slot_items_NoDup : NoDup (item <$> scaffold_slots).*1.
Proof.
  rewrite <- list_fmap_compose.
  change (fst ∘ item) with ((fun p => root ++ p) ∘ (fst : list string * option string -> _)).
  rewrite list_fmap_compose. apply NoDup_fmap_2; [|apply scaffold_slots_NoDup].
  intros p1 p2. apply app_inv_head.
Qed.

Lemma root_item : item ([], None) = (root, Dir).
Proof. unfold slot_item. simpl. by rewrite app_nil_r. Qed.

Lemma steps_items_tree (order : list (string * list string)) x :
  order ≡ₚ map_to_list dirs ->
  x ∈ (root, Dir) :: (item <$> flat_map step_slots (scaffold_steps order))
  <-> x ∈ item <$> scaffold_slots.
Proof.
  intros Hperm. rewrite <- root_item, <- fmap_cons.
  assert (Hp : ([], None) :: flat_map step_slots (scaffold_steps order)
              ≡ₚ ([], None) :: flat_map step_slots (scaffold_steps (map_to_list dirs))).
  { constructor. apply Permutation_flat_map. unfold scaffold_steps.
    apply Permutation_app_tail. by apply Permutation_flat_map. }
  rewrite Hp. rewrite !list_elem_of_fmap. split; intros (sl & -> & Hin); exists sl.
  - split; [done|]. by eapply Forall_forall in Hin; [|apply canonical_slots_in].
  - split; [done|]. by eapply Forall_forall in Hin; [|apply canonical_slots_all].
Qed.

(** Filling in the slots of all the steps, in whatever order, on top of the
    new project directory gives the tree. *)
Lemma scaffold_fs (order : list (string * list string)) (m : FS) :
  order ≡ₚ map_to_list dirs ->
  insert_items (item <$> flat_map step_slots (scaffold_steps order)) (<[root := Dir]> m)
  = scaffold_tree cwd m0 root ∪ m.
Proof.
  intros Hperm. unfold scaffold_tree.
  rewrite <- (insert_items_union
                ((root, Dir) :: (item <$> flat_map step_slots (scaffold_steps order)))).
  - done.
  - apply slot_items_NoDup.
  - intros x. by apply steps_items_tree.
Qed.

(** Below a directory that is not there yet, the whole tree is new. *)
Lemma scaffold_tree_fresh (m : FS) :
  fs_wf m -> fs_lookup m root = None -> scaffold_tree cwd m0 root ##ₘ m.
Proof.
  intros Hwf Hroot. apply map_disjoint_spec. intros q n1 n2 H1 H2.
  unfold scaffold_tree in H1.
  apply elem_of_list_to_map in H1; [|apply slot_items_NoDup].
  apply list_elem_of_fmap in H1 as (sl & Heq & _). unfold slot_item in Heq.
  injection Heq as -> _. rewrite wf_fresh_under in H2 by done. done.
Qed.
End Tree.

(** ** A run from the base directory on *)

Section Build.
Local Open Scope list_scope.
Variable env : Env.
Variable order : list (string * list string).
Variable basePath projectName : string.
Hypothesis order_perm : order ≡ₚ map_to_list dirs.
Hypothesis basePath_nonempty : basePath <> EmptyString.

Local Abbreviation cwd := (env_cwd env).
Local Abbreviation root := (resolve (env_cwd env) basePath).

Lemma produced_files_steps :
  Forall (fun f => f ∈ step_files (scaffold_steps (map_to_list dirs))) produced_files.
Proof. compute_done. Qed.

Lemma produced_file_step file :
  file ∈ produced_files -> exists dir, FileStep dir file ∈ scaffold_steps order.
Proof.
  intros Hin. eapply Forall_forall in Hin; [|apply produced_files_steps].
  unfold step_files in Hin. apply list_elem_of_omap in Hin as (s & Hs & Hf).
  destruct s as [|dir f]; [done|]. injection Hf as ->.
  exists dir. by rewrite (scaffold_steps_perm order order_perm).
Qed.

(** The state in which the scaffold starts, once the base directory is made. *)
Lemma scaffolding_start (w : World) (m : FS) :
  fs_wf m -> root <> [] -> m !! root = None -> fs_lookup m (parent root) = Some Dir ->
  fs w = <[root := Dir]> m -> scaffolding m root w.
Proof.
  intros Hwf Hne Hnone Hpar Hfs. unfold scaffolding. rewrite Hfs. split_and!.
  - apply wf_insert; auto.
  - rewrite fs_lookup_insert by done. by case_decide.
  - intros q _ Hq. by rewrite lookup_insert_ne.
Qed.

Lemma build_Ok w w' :
  fs_wf (fs w) ->
  build env order basePath projectName w = Ok tt w' ->
  fs_lookup (fs w) root = None
  /\ fs_lookup (fs w) (parent root) = Some Dir
  /\ (forall file, file ∈ produced_files ->
        fs w !! template_path cwd file = Some (File (template_bytes cwd (fs w) file)))
  /\ (exists m1 m2,
        env_exec env basePath (go_mod_init projectName)
          (scaffold_tree cwd (fs w) root ∪ fs w) = (m1, None)
        /\ env_exec env basePath go_mod_tidy m1 = (m2, None)
        /\ fs w' = m2)
  /\ stdin w' = stdin w
  /\ console w' = console w ++ base_created_line basePath
                   :: (step_line basePath <$> scaffold_steps order)
                   ++ go_mod_events basePath projectName.
Proof.
  intros Hwf Hrun. unfold build, bind, os_Mkdir in Hrun.
  destruct (mkdir (env_fault env) (fs w) root) as [e|m1] eqn:Emk; [done|].
  apply mkdir_inr in Emk as (Hne & Hnone & Hpar & ->).
  cbn [fmt_Print] in Hrun.
  set (w1 := emit _ (set_fs _ w)) in Hrun.
  rewrite createDirectoriesAndFiles_steps in Hrun.
  destruct (for_each (scaffold_steps order) (run_step env basePath) w1) as [[] w2|w2] eqn:Erun;
    [|done].
  assert (Hstart : scaffolding (fs w) root w1) by by apply scaffolding_start.
  destruct (run_steps_Ok env basePath (fs w) basePath_nonempty _ w1 w2
              (scaffold_steps_ok order order_perm) Hstart Erun)
    as (Hfs & Hin & Hcon & _ & Htpl).
  rewrite initializeGoMod_run in Hrun. cbn zeta in Hrun.
  change (fs w1) with (<[root := Dir]> (fs w)) in Hfs.
  rewrite scaffold_fs in Hfs by done.
  rewrite Hfs in Hrun.
  destruct (env_exec env basePath (go_mod_init projectName) _) as [m1 [e|]] eqn:E1; [done|].
  destruct (env_exec env basePath go_mod_tidy m1) as [m2 [e|]] eqn:E2; [done|].
  injection Hrun as <-. cbn [fs stdin console emit set_fs].
  split_and!; try done.
  - by rewrite fs_lookup_ne.
  - intros file Hf. destruct (produced_file_step file Hf) as [dir Hd]. by eapply Htpl.
  - by exists m1, m2.
  - rewrite Hcon. unfold w1. cbn [console emit set_fs]. unfold go_mod_events, base_created_line.
    rewrite <- !app_assoc. done.
Qed.
End Build.

(** ** Complete runs *)

Section Main.
Local Open Scope list_scope.
Variable env : Env.

Lemma bool_cases (b : bool) : b = true \/ b = false.
Proof. destruct b; auto. Qed.

(** A run that completes got both inputs and went through [build]. *)
Lemma main_Ok_inv order w w' :
  main env order w = Ok tt w' ->
  env_path env "air" = true
  /\ baseInput_of w <> EmptyString
  /\ (expand_tilde env (baseInput_of w)).2 = None
  /\ projectName_of w <> EmptyString
  /\ build env order (project_path env w) (projectName_of w) (prompted w) = Ok tt w'.
Proof.
  intros Hrun.
  destruct (bool_cases (env_path env "air")) as [Hair|Hair];
    [|by rewrite main_missing_air in Hrun].
  destruct (decide (baseInput_of w = EmptyString)) as [Hb|Hb];
    [by rewrite main_empty_base in Hrun|].
  destruct ((expand_tilde env (baseInput_of w)).2) as [e|] eqn:He;
    [by rewrite (main_expand_error env order w e) in Hrun|].
  destruct (decide (projectName_of w = EmptyString)) as [Hn|Hn];
    [by rewrite main_empty_name in Hrun|].
  rewrite main_reaches_build in Hrun by done. done.
Qed.

Lemma completes_final (r : result unit) : completes r = true -> r = Ok tt (final_world r).
Proof. by destruct r as [[] w|w]. Qed.

Lemma aborts_final {A} (r : result A) : completes r = false -> r = Fatal (final_world r).
Proof. by destruct r. Qed.

Lemma project_path_nonempty w :
  projectName_of w <> EmptyString -> project_path env w <> EmptyString.
Proof. intros H. apply Join2_nonempty. by right. Qed.
End Main.

(** * The properties of the specification *)

(** C1.  For well-formed input (a base path and a project name that are not
    empty, a project directory that does not exist yet), a run that completes
    has created exactly the tree of section 6 below the project directory:
    the directory, its eight sub-directories and the eleven files, all of
    them new, each file with the bytes of its template, and nothing else of
    the file system has changed before the two [go mod] commands run. *)
Theorem successful_run_creates_scaffold env order w w' :
  order ≡ₚ map_to_list dirs ->
  fs_wf (fs w) ->
  baseInput_of w <> EmptyString ->
  projectName_of w <> EmptyString ->
  fs_lookup (fs w) (resolve (env_cwd env) (project_path env w)) = None ->
  main env order w = Ok tt w' ->
  scaffold_created env w w'.
Proof.
  intros Hperm Hwf _ Hname _ Hrun.
  apply main_Ok_inv in Hrun as (_ & _ & _ & _ & Hbuild).
  apply build_Ok in Hbuild as (Hroot & _ & Htpl & Hexec & _);
    [|done|by apply project_path_nonempty|done].
  unfold scaffold_created. cbn zeta. split_and!.
  - by apply scaffold_tree_fresh.
  - exact Htpl.
  - exact Hexec.
Qed.

Lemma successful_run_creates_scaffold_witness :
  demo_order ≡ₚ map_to_list dirs
  /\ fs_wf (fs demo_world)
  /\ baseInput_of demo_world <> EmptyString
  /\ projectName_of demo_world <> EmptyString
  /\ fs_lookup (fs demo_world) (resolve (env_cwd demo_env) (project_path demo_env demo_world))
     = None
  /\ main demo_env demo_order demo_world = Ok tt demo_final
  /\ scaffold_created demo_env demo_world demo_final.
Proof.
  assert (H1 : demo_order ≡ₚ map_to_list dirs) by reflexivity.
  assert (H2 : fs_wf (fs demo_world)) by compute_done.
  assert (H3 : baseInput_of demo_world <> EmptyString) by compute_done.
  assert (H4 : projectName_of demo_world <> EmptyString) by compute_done.
  assert (H5 : fs_lookup (fs demo_world)
                 (resolve (env_cwd demo_env) (project_path demo_env demo_world)) = None)
    by (vm_compute; reflexivity).
  assert (H6 : main demo_env demo_order demo_world = Ok tt demo_final)
    by (unfold demo_final; apply completes_final; vm_compute; reflexivity).
  split_and!; try assumption.
  exact (successful_run_creates_scaffold demo_env demo_order demo_world demo_final
           H1 H2 H3 H4 H5 H6).
Defined.

Lemma main_Ok_console env order w w' :
  order ≡ₚ map_to_list dirs -> fs_wf (fs w) ->
  main env order w = Ok tt w' ->
  stdin w' = stdin_after_name w
  /\ console w' =
       ((console w ++ [Stdout prompt_base; Stdout prompt_name;
                       base_created_line (project_path env w)])
        ++ dir_lines (project_path env w) order
        ++ root_file_lines (project_path env w)
           ++ go_mod_events (project_path env w) (projectName_of w))%list.
Proof.
  intros Hperm Hwf Hrun.
  apply main_Ok_inv in Hrun as (_ & _ & _ & Hname & Hbuild).
  apply build_Ok in Hbuild as (_ & _ & _ & _ & Hin & Hcon);
    [|done|by apply project_path_nonempty|done].
  split; [done|]. rewrite Hcon. unfold scaffold_steps, dir_lines, root_file_lines.
  cbn [prompted console]. rewrite fmap_app, <- !app_assoc. done.
Qed.

(** C10.  Two runs that complete from the same world (the same inputs and
    templates) create the same directories and files with the same contents,
    whatever the order in which each visits the entries of [dirs]: both leave
    the tree of section 6 and the same final file system.  Their consoles are
    the same before and after the progress lines of the loop over [dirs], and
    those lines are the same up to their order. *)
Theorem runs_differ_only_in_line_order env order1 order2 w w1 w2 :
  order1 ≡ₚ map_to_list dirs ->
  order2 ≡ₚ map_to_list dirs ->
  fs_wf (fs w) ->
  main env order1 w = Ok tt w1 ->
  main env order2 w = Ok tt w2 ->
  scaffold_created env w w1 /\ scaffold_created env w w2
  /\ fs w1 = fs w2 /\ stdin w1 = stdin w2
  /\ exists before after,
       console w1 = (before ++ dir_lines (project_path env w) order1 ++ after)%list
       /\ console w2 = (before ++ dir_lines (project_path env w) order2 ++ after)%list
       /\ dir_lines (project_path env w) order1 ≡ₚ dir_lines (project_path env w) order2.
Proof.
  intros Hp1 Hp2 Hwf Hrun1 Hrun2.
  destruct (main_Ok_console _ _ _ _ Hp1 Hwf Hrun1) as [Hin1 Hcon1].
  destruct (main_Ok_console _ _ _ _ Hp2 Hwf Hrun2) as [Hin2 Hcon2].
  assert (Hc : forall order w', order ≡ₚ map_to_list dirs ->
            main env order w = Ok tt w' -> scaffold_created env w w').
  { intros order w' Hperm Hrun.
    apply main_Ok_inv in Hrun as (_ & _ & _ & Hname & Hbuild).
    apply build_Ok in Hbuild as (Hroot & _ & Htpl & Hexec & _);
      [|done|by apply project_path_nonempty|done].
    unfold scaffold_created. cbn zeta. split_and!.
    - by apply scaffold_tree_fresh.
    - exact Htpl.
    - exact Hexec. }
  pose proof (Hc _ _ Hp1 Hrun1) as Hc1. pose proof (Hc _ _ Hp2 Hrun2) as Hc2.
  split_and!; [exact Hc1|exact Hc2| |congruence|].
  - destruct Hc1 as (_ & _ & m1 & m2 & E1 & E2 & ->).
    destruct Hc2 as (_ & _ & m1' & m2' & E1' & E2' & ->).
    congruence.
  - eexists _, _. split_and!; [exact Hcon1|exact Hcon2|].
    unfold dir_lines. apply fmap_Permutation, Permutation_flat_map.
    by rewrite Hp1, Hp2.
Qed.

Lemma runs_differ_only_in_line_order_witness :
  demo_order ≡ₚ map_to_list dirs
  /\ demo_order_reversed ≡ₚ map_to_list dirs
  /\ fs_wf (fs demo_world)
  /\ main demo_env demo_order demo_world = Ok tt demo_final
  /\ main demo_env demo_order_reversed demo_world = Ok tt demo_final_reversed
  /\ fs demo_final = fs demo_final_reversed
  /\ dir_lines (project_path demo_env demo_world) demo_order
     <> dir_lines (project_path demo_env demo_world) demo_order_reversed.
Proof.
  assert (H1 : demo_order ≡ₚ map_to_list dirs) by reflexivity.
  assert (H2 : demo_order_reversed ≡ₚ map_to_list dirs) by apply reverse_Permutation.
  assert (H3 : fs_wf (fs demo_world)) by compute_done.
  assert (H4 : main demo_env demo_order demo_world = Ok tt demo_final)
    by (unfold demo_final; apply completes_final; vm_compute; reflexivity).
  assert (H5 : main demo_env demo_order_reversed demo_world = Ok tt demo_final_reversed)
    by (unfold demo_final_reversed; apply completes_final; vm_compute; reflexivity).
  split_and!; try assumption.
  - exact (proj1 (proj2 (proj2 (runs_differ_only_in_line_order demo_env demo_order
                                  demo_order_reversed demo_world demo_final
                                  demo_final_reversed H1 H2 H3 H4 H5)))).
  - compute_done.
Defined.

(** ** A scaffold that fails part of the way *)

Section Abort.
Local Open Scope list_scope.
Variable env : Env.
Variable order : list (string * list string).
Variable basePath : string.
Hypothesis order_perm : order ≡ₚ map_to_list dirs.
Hypothesis basePath_nonempty : basePath <> EmptyString.

Local Abbreviation cwd := (env_cwd env).
Local Abbreviation root := (resolve (env_cwd env) basePath).

Lemma canonical_files_apart :
  Forall (fun s1 => Forall (fun s2 => s1 = s2 \/ file_apart s1 s2)
                      (scaffold_steps (map_to_list dirs)))
    (scaffold_steps (map_to_list dirs)).
Proof. compute_done. Qed.

Lemma steps_file_apart s1 s2 :
  s1 ∈ scaffold_steps order -> s2 ∈ scaffold_steps order -> s1 <> s2 -> file_apart s1 s2.
Proof.
  rewrite !(scaffold_steps_perm order order_perm). intros H1 H2 Hne.
  pose proof canonical_files_apart as Hc.
  eapply Forall_forall in Hc; [|exact H1]. eapply Forall_forall in Hc; [|exact H2].
  by destruct Hc.
Qed.

Lemma empty_dir_below m ext :
  empty_dir m root -> ext <> [] -> m !! (root ++ ext) = None.
Proof.
  intros [_ Hall] Hext. destruct (m !! (root ++ ext)) as [n|] eqn:E; [|done].
  exfalso. apply (Hall _ _ E). split; [by apply prefix_app_r|].
  intros Heq. apply (f_equal length) in Heq. rewrite length_app in Heq.
  destruct ext; [done|]. simpl in Heq. lia.
Qed.

Lemma scaffolding_empty w : fs_wf (fs w) -> empty_dir (fs w) root -> scaffolding (fs w) root w.
Proof. intros Hwf [Hroot _]. by split_and!. Qed.

(** The file of a step is not on disk when the step starts. *)
Lemma file_step_fresh w k wk dir file :
  empty_dir (fs w) root ->
  scaffold_steps order !! k = Some (FileStep dir file) ->
  fs wk = insert_items
            (slot_item cwd (fs w) root <$> flat_map step_slots (take k (scaffold_steps order)))
            (fs w) ->
  fs wk !! (root ++ dir_ext dir ++ [file]) = None.
Proof.
  intros Hempty Hk ->. rewrite lookup_insert_items_notin.
  { apply empty_dir_below; [done|]. by destruct (dir_ext dir). }
  intros Hin. rewrite <- list_fmap_compose in Hin.
  apply list_elem_of_fmap in Hin as (sl & Hkey & Hsl).
  apply list_elem_of_In, in_flat_map in Hsl as (s1 & Hs1 & Hsl).
  apply list_elem_of_In in Hs1, Hsl.
  simpl in Hkey. apply app_inv_head in Hkey.
  apply elem_of_take in Hs1 as (i & Hi & Hlt).
  assert (Hne : s1 <> FileStep dir file).
  { intros ->.
    pose proof (scaffold_steps_NoDup order order_perm) as Hnd.
    pose proof (NoDup_lookup _ _ _ _ Hnd Hi Hk). lia. }
  assert (Hap : file_apart s1 (FileStep dir file)).
  { apply steps_file_apart; [by eapply list_elem_of_lookup_2|by eapply list_elem_of_lookup_2|done]. }
  apply Hap. rewrite Hkey. apply list_elem_of_fmap. by exists sl.
Qed.

Lemma scaffold_Fatal w w' :
  fs_wf (fs w) -> empty_dir (fs w) root ->
  createDirectoriesAndFiles env order basePath w = Fatal w' ->
  exists k s wk, aborted_at env order basePath w w' k s wk.
Proof.
  intros Hwf Hempty Hrun. rewrite createDirectoriesAndFiles_steps in Hrun.
  apply for_each_Fatal in Hrun as (k & s & wk & Hk & Hpre & Hs).
  exists k, s, wk.
  pose proof (scaffold_steps_ok order order_perm) as Hok.
  destruct (run_steps_Ok env basePath (fs w) basePath_nonempty _ w wk
              (Forall_take _ k _ Hok) (scaffolding_empty w Hwf Hempty) Hpre)
    as (Hfs & Hin & Hcon & Hinv & _).
  assert (Hsok : step_ok s).
  { eapply Forall_forall in Hok; [done|]. by eapply list_elem_of_lookup_2. }
  destruct (run_step_Fatal env basePath (fs w) basePath_nonempty s wk w' Hinv Hsok)
    as (Hsub & Hin' & Hmsg); [|done|].
  { intros dir file ->. by eapply file_step_fresh. }
  unfold aborted_at. split_and!; try done. congruence.
Qed.
End Abort.

(** The base directory that [main] has just made is empty. *)
Lemma mkdir_empty_dir (fault : syscall -> option errno) (m : FS) (p : path) (m' : FS) :
  fs_wf m -> mkdir fault m p = inr m' -> fs_wf m' /\ empty_dir m' p.
Proof.
  intros Hwf Hmk. apply mkdir_inr in Hmk as (Hne & Hnone & Hpar & ->).
  split; [apply wf_insert; auto|]. split.
  - rewrite fs_lookup_insert by done. by case_decide.
  - intros q n Hq [[ext ->] Hqp].
    rewrite lookup_insert_ne in Hq by done.
    rewrite wf_fresh_under in Hq; [done|done|by rewrite fs_lookup_ne].
Qed.

(** Once the base directory is made, [main] goes on with the scaffold. *)
Lemma main_scaffold_Fatal env order w m1 w' :
  env_path env "air" = true ->
  baseInput_of w <> EmptyString ->
  (expand_tilde env (baseInput_of w)).2 = None ->
  projectName_of w <> EmptyString ->
  mkdir (env_fault env) (fs w) (resolve (env_cwd env) (project_path env w)) = inr m1 ->
  createDirectoriesAndFiles env order (project_path env w) (started env w m1) = Fatal w' ->
  main env order w = Fatal w'.
Proof.
  intros Hair Hb He Hn Hmk Hrun. rewrite main_reaches_build by done.
  unfold build, bind, os_Mkdir. cbn [prompted fs]. fold (project_path env w).
  rewrite Hmk. cbn [fmt_Print]. fold (prompted w).
  fold (base_created_line (project_path env w)). fold (started env w m1).
  by rewrite Hrun.
Qed.

(** C6.  When a directory-creation or file-creation step of the scaffold
    fails, the run ends in that very step: the steps before it have
    completed, no later step runs, the last thing on the console is the
    diagnostic, and everything that was on disk when the failing step
    started (the directories and files of the earlier steps, each file with
    the bytes of its template) is on disk unchanged in the world the run
    leaves behind.  Nothing is rolled back.  This holds of
    [createDirectoriesAndFiles] in a project directory that is there and
    empty, and so of [main], which calls it on the base directory it has just
    made and ends where it ends. *)
Theorem failed_step_keeps_earlier_work env order :
  order ≡ₚ map_to_list dirs ->
  (forall basePath w w',
     basePath <> EmptyString ->
     fs_wf (fs w) ->
     empty_dir (fs w) (resolve (env_cwd env) basePath) ->
     createDirectoriesAndFiles env order basePath w = Fatal w' ->
     exists k s wk, aborted_at env order basePath w w' k s wk)
  /\ (forall w m1 w',
        fs_wf (fs w) ->
        env_path env "air" = true ->
        baseInput_of w <> EmptyString ->
        (expand_tilde env (baseInput_of w)).2 = None ->
        projectName_of w <> EmptyString ->
        mkdir (env_fault env) (fs w) (resolve (env_cwd env) (project_path env w)) = inr m1 ->
        createDirectoriesAndFiles env order (project_path env w) (started env w m1)
        = Fatal w' ->
        main env order w = Fatal w'
        /\ exists k s wk,
             aborted_at env order (project_path env w) (started env w m1) w' k s wk).
Proof.
  intros Hperm. split.
  - intros basePath w w' H2 H3 H4 H5.
    exact (scaffold_Fatal env order basePath Hperm H2 w w' H3 H4 H5).
  - intros w m1 w' Hwf Hair Hb He Hn Hmk Hrun.
    split; [by eapply main_scaffold_Fatal|].
    destruct (mkdir_empty_dir _ _ _ _ Hwf Hmk) as [Hwf1 Hempty].
    exact (scaffold_Fatal env order (project_path env w) Hperm
             (project_path_nonempty env w Hn) (started env w m1) w' Hwf1 Hempty Hrun).
Qed.

Lemma failed_step_keeps_earlier_work_witness :
  demo_order ≡ₚ map_to_list dirs
  /\ demo_project <> EmptyString
  /\ fs_wf (fs demo_started)
  /\ empty_dir (fs demo_started) (resolve (env_cwd demo_refusing) demo_project)
  /\ createDirectoriesAndFiles demo_refusing demo_order demo_project demo_started
     = Fatal demo_aborted
  /\ (exists k s wk,
        aborted_at demo_refusing demo_order demo_project demo_started demo_aborted k s wk)
  /\ fs demo_aborted !! ["tmp"; "x"; "demo"; "cmd"; "main.go"]
     = Some (File (text "package main"))
  /\ fs demo_aborted !! ["tmp"; "x"; "demo"; "Makefile"] = None.
Proof.
  assert (H1 : demo_order ≡ₚ map_to_list dirs) by reflexivity.
  assert (H2 : demo_project <> EmptyString) by done.
  assert (H3 : fs_wf (fs demo_started)) by compute_done.
  assert (H4 : empty_dir (fs demo_started) (resolve (env_cwd demo_refusing) demo_project))
    by compute_done.
  assert (H5 : createDirectoriesAndFiles demo_refusing demo_order demo_project demo_started
               = Fatal demo_aborted)
    by (unfold demo_aborted; apply aborts_final; vm_compute; reflexivity).
  split_and!; try assumption.
  - exact (proj1 (failed_step_keeps_earlier_work demo_refusing demo_order H1)
             demo_project demo_started demo_aborted H2 H3 H4 H5).
  - vm_compute. reflexivity.
  - vm_compute. reflexivity.
Defined.

(** C3.  The mapping from file name to template is exact and total over the
    files the program produces: those are the eleven names of section 6,
    [templateMapping] has an entry for each of them and for nothing else,
    [getTemplateFileName] returns that entry, which is not empty, and
    different files have different templates. *)
Theorem every_produced_file_has_its_template :
  list_to_set produced_files = section6_files
  /\ length produced_files = 11
  /\ NoDup produced_files
  /\ Forall (fun f => templateMapping !! f = Some (getTemplateFileName f)
                      /\ getTemplateFileName f <> EmptyString) produced_files
  /\ dom templateMapping = section6_files
  /\ NoDup (getTemplateFileName <$> produced_files).
Proof. split_and!; compute_done. Qed.

(** C8.  When [air] is not on the search path the run ends at once: the
    only event is the diagnostic on standard error, which holds the install
    command; no prompt is printed, standard input is not read and the file
    system is not touched. *)
Theorem missing_air_exits_before_prompts env order w :
  env_path env "air" = false ->
  main env order w =
    Fatal {| fs := fs w; stdin := stdin w;
             console := (console w ++ [Stderr air_missing_message])%list |}
  /\ exists before after,
       air_missing_message = before ++ air_install_command ++ after.
Proof.
  intros Hair. split; [by apply main_missing_air|].
  exists ("Error: 'air' is not installed. Please install it by running:"
          ++ String nl (String nl (String tab EmptyString))), newline.
  reflexivity.
Qed.

Lemma missing_air_exits_before_prompts_witness :
  env_path demo_no_air "air" = false
  /\ main demo_no_air demo_order demo_world =
       Fatal {| fs := fs demo_world; stdin := stdin demo_world;
                console := [Stderr air_missing_message] |}.
Proof.
  assert (H : env_path demo_no_air "air" = false) by reflexivity.
  split; [exact H|].
  exact (proj1 (missing_air_exits_before_prompts demo_no_air demo_order demo_world H)).
Defined.

(** C2.  [ExpandTilde] on a path that starts with [~/] returns the home
    directory of the current user joined with the rest of the path, which
    names the same place as the home directory, a separator and the rest; it
    returns the error of [user.Current] when the home directory cannot be
    determined, and fails in no other case; a path that does not start with
    [~/] comes back unchanged.  In every case the world is left as it was. *)
Theorem ExpandTilde_cases env w :
  (forall rest home, env_user env = inl home ->
     ExpandTilde env ("~/" ++ rest) w = Ok (filepath_Join [home; rest], None) w)
  /\ (forall rest home, home <> EmptyString ->
        resolve (env_cwd env) (filepath_Join [home; rest])
        = resolve (env_cwd env) (home ++ "/" ++ rest))
  /\ (forall rest e, env_user env = inr e ->
        ExpandTilde env ("~/" ++ rest) w = Ok (EmptyString, Some e) w)
  /\ (forall path, strings_HasPrefix path "~/" = false ->
        ExpandTilde env path w = Ok (path, None) w)
  /\ (forall path, exists r,
        ExpandTilde env path w = Ok r w
        /\ (is_Some r.2 <-> strings_HasPrefix path "~/" = true
                            /\ exists e, env_user env = inr e)).
Proof.
  split_and!.
  - intros rest home Hu. rewrite ExpandTilde_run. unfold expand_tilde.
    change (strings_HasPrefix ("~/" ++ rest) "~/") with (String.prefix EmptyString rest).
    destruct rest; simpl; by rewrite Hu.
  - intros rest home Hh. by rewrite Join2, resolve_Clean.
  - intros rest e Hu. rewrite ExpandTilde_run. unfold expand_tilde.
    change (strings_HasPrefix ("~/" ++ rest) "~/") with (String.prefix EmptyString rest).
    destruct rest; simpl; by rewrite Hu.
  - intros path Hp. rewrite ExpandTilde_run. unfold expand_tilde. by rewrite Hp.
  - intros path. exists (expand_tilde env path). split; [apply ExpandTilde_run|].
    unfold expand_tilde. destruct (strings_HasPrefix path "~/").
    + destruct (env_user env) as [home|e]; simpl.
      * split; [by intros [? ?]|]. by intros [_ [e [=]]].
      * split; [|by eauto]. intros _. split; [done|]. by exists e.
    + simpl. split; [by intros [? ?]|]. by intros [? _].
Qed.

Lemma ExpandTilde_cases_witness :
  ExpandTilde demo_env "~/projects" demo_world = Ok ("/home/u/projects", None) demo_world
  /\ ExpandTilde demo_env "~/../etc/" demo_world = Ok ("/home/etc", None) demo_world
  /\ ExpandTilde demo_no_user "~/projects" demo_world
     = Ok (EmptyString, Some "user: Current requires cgo") demo_world
  /\ ExpandTilde demo_env "~projects" demo_world = Ok ("~projects", None) demo_world.
Proof.
  pose proof (ExpandTilde_cases demo_env demo_world) as (H1 & _ & _ & H4 & _).
  pose proof (ExpandTilde_cases demo_no_user demo_world) as (_ & _ & H3 & _).
  split_and!.
  - exact (H1 "projects" "/home/u" eq_refl).
  - exact (H1 "../etc/" "/home/u" eq_refl).
  - exact (H3 "projects" "user: Current requires cgo" eq_refl).
  - exact (H4 "~projects" eq_refl).
Defined.

(** C7.  [runCommand] starts the command in the given directory and has
    its effect on the file system in place when it returns; it returns nil
    when the command succeeds and ends the run when the command fails,
    whatever the failure.  So [initializeGoMod] starts [go mod tidy] only
    after [go mod init] has succeeded. *)
Theorem runCommand_ends_run_on_failure env w :
  (forall dir command args,
     runCommand env dir command args w =
       let w1 := emit (Exec dir (command :: args)) w in
       match env_exec env dir (command :: args) (fs w) with
       | (m, None) => Ok None (set_fs m w1)
       | (m, Some e) => Fatal (emit (Stderr ("Error running command: " ++ e)) (set_fs m w1))
       end)
  /\ (forall basePath projectName,
        initializeGoMod env basePath projectName w =
          let w1 := emit (Exec basePath (go_mod_init projectName))
                      (emit (Stdout ("Initializing Go module..." ++ newline)) w) in
          match env_exec env basePath (go_mod_init projectName) (fs w) with
          | (m1, Some e) =>
              Fatal (emit (Stderr ("Error running command: " ++ e)) (set_fs m1 w1))
          | (m1, None) =>
              let w2 := emit (Exec basePath go_mod_tidy)
                          (emit (Stdout ("Tidying up Go module dependencies..." ++ newline))
                             (set_fs m1 w1)) in
              match env_exec env basePath go_mod_tidy m1 with
              | (m2, Some e) =>
                  Fatal (emit (Stderr ("Error running command: " ++ e)) (set_fs m2 w2))
              | (m2, None) =>
                  Ok tt (emit (Stdout ("Go module initialized successfully!" ++ newline))
                           (set_fs m2 w2))
              end
          end).
Proof.
  split.
  - intros. apply runCommand_run.
  - intros. apply initializeGoMod_run.
Qed.

Lemma runCommand_ends_run_on_failure_witness :
  initializeGoMod demo_init_fails demo_project "demo" demo_started =
    Fatal {| fs := fs demo_started; stdin := stdin demo_started;
             console := [ Stdout ("Initializing Go module..." ++ newline);
                          Exec demo_project (go_mod_init "demo");
                          Stderr "Error running command: exit status 1" ] |}.
Proof.
  exact (proj2 (runCommand_ends_run_on_failure demo_init_fails demo_started)
           demo_project "demo").
Defined.

(** An empty answer ends the run before anything is created. *)
Lemma main_empty_input env order w :
  baseInput_of w = EmptyString \/ projectName_of w = EmptyString ->
  exists w',
    main env order w = Fatal w'
    /\ fs w' = fs w
    /\ (exists evs, console w' = (console w ++ evs)%list /\ no_exec evs)
    /\ (env_path env "air" = true -> baseInput_of w = EmptyString ->
        last (console w') = Some (Stderr "Base path cannot be empty"))
    /\ (env_path env "air" = true -> baseInput_of w <> EmptyString ->
        (expand_tilde env (baseInput_of w)).2 = None ->
        last (console w') = Some (Stderr "Project name cannot be empty")).
Proof.
  intros Hempty.
  destruct (bool_cases (env_path env "air")) as [Hair|Hair].
  2:{ eexists. split; [by apply main_missing_air|]. cbn [fs console emit].
      split_and!; [done| |congruence|congruence].
      eexists. split; [done|]. by repeat constructor. }
  destruct (decide (baseInput_of w = EmptyString)) as [Hb|Hb].
  { eexists. split; [by apply main_empty_base|]. cbn [fs console].
    split_and!; [done| |by rewrite last_app|done].
    eexists. split; [done|]. by repeat constructor. }
  destruct ((expand_tilde env (baseInput_of w)).2) as [e|] eqn:He.
  { eexists. split; [by apply (main_expand_error env order w e)|]. cbn [fs console].
    split_and!; [done| |done|done].
    eexists. split; [done|]. by repeat constructor. }
  destruct Hempty as [?|Hn]; [done|].
  eexists. split; [by apply main_empty_name|]. cbn [fs console].
  split_and!; [done| |done|by rewrite last_app].
  eexists. split; [done|]. by repeat constructor.
Qed.

(** C4.  When the answer to either prompt is empty the run ends in
    [log.Fatal] with the file system as it was and without having started a
    process; with [air] installed the diagnostic is "Base path cannot be
    empty" for the first prompt and, once the base path is accepted,
    "Project name cannot be empty" for the second. *)
Theorem empty_input_aborts_before_any_mutation env order w :
  baseInput_of w = EmptyString \/ projectName_of w = EmptyString ->
  exists w',
    main env order w = Fatal w'
    /\ fs w' = fs w
    /\ (exists evs, console w' = (console w ++ evs)%list /\ no_exec evs)
    /\ (env_path env "air" = true -> baseInput_of w = EmptyString ->
        last (console w') = Some (Stderr "Base path cannot be empty"))
    /\ (env_path env "air" = true -> baseInput_of w <> EmptyString ->
        (expand_tilde env (baseInput_of w)).2 = None ->
        last (console w') = Some (Stderr "Project name cannot be empty")).
Proof. exact (main_empty_input env order w). Qed.

Lemma empty_input_aborts_before_any_mutation_witness :
  (baseInput_of demo_blank_base = EmptyString
   /\ exists w', main demo_env demo_order demo_blank_base = Fatal w' /\ fs w' = demo_fs
        /\ last (console w') = Some (Stderr "Base path cannot be empty"))
  /\ (projectName_of demo_blank_name = EmptyString
      /\ exists w', main demo_env demo_order demo_blank_name = Fatal w' /\ fs w' = demo_fs
           /\ last (console w') = Some (Stderr "Project name cannot be empty")).
Proof.
  assert (H1 : baseInput_of demo_blank_base = EmptyString) by reflexivity.
  assert (H2 : projectName_of demo_blank_name = EmptyString) by reflexivity.
  split; (split; [assumption|]).
  - destruct (empty_input_aborts_before_any_mutation demo_env demo_order demo_blank_base
                (or_introl H1)) as (w' & Hrun & Hfs & _ & Hmsg & _).
    exists w'. split_and!; [exact Hrun|exact Hfs|exact (Hmsg eq_refl H1)].
  - destruct (empty_input_aborts_before_any_mutation demo_env demo_order demo_blank_name
                (or_intror H2)) as (w' & Hrun & Hfs & _ & _ & Hmsg).
    exists w'. split_and!; [exact Hrun|exact Hfs|].
    apply Hmsg; [reflexivity|by vm_compute|reflexivity].
Defined.

(** ** The base directory *)

Section BaseDirectory.
Local Open Scope list_scope.
Variable env : Env.

Lemma main_mkdir_fails order w e :
  env_path env "air" = true ->
  baseInput_of w <> EmptyString ->
  (expand_tilde env (baseInput_of w)).2 = None ->
  projectName_of w <> EmptyString ->
  mkdir (env_fault env) (fs w) (resolve (env_cwd env) (project_path env w)) = inl e ->
  main env order w = Fatal (base_directory_failure env w e).
Proof.
  intros Hair Hb He Hn Hmk. rewrite main_reaches_build by done.
  unfold build, bind, os_Mkdir. cbn [prompted fs]. fold (project_path env w).
  rewrite Hmk. unfold log_Fatal, emit, base_directory_failure.
  cbn [prompted fs stdin console]. by rewrite <- app_assoc.
Qed.

Lemma scaffold_tree_root cwd m0 root : scaffold_tree cwd m0 root !! root = Some Dir.
Proof.
  unfold scaffold_tree. apply elem_of_list_to_map; [apply slot_items_NoDup|].
  rewrite <- (root_item cwd m0 root). apply list_elem_of_fmap_2. compute_done.
Qed.

(** After a complete run the project directory is there, as long as the
    external commands leave it there. *)
Lemma main_Ok_root order w w1 :
  order ≡ₚ map_to_list dirs -> fs_wf (fs w) ->
  exec_keeps env (resolve (env_cwd env) (project_path env w)) ->
  main env order w = Ok tt w1 ->
  is_Some (fs w1 !! resolve (env_cwd env) (project_path env w)).
Proof.
  intros Hperm Hwf Hkeep Hrun.
  apply main_Ok_inv in Hrun as (_ & _ & _ & Hname & Hbuild).
  apply build_Ok in Hbuild as (_ & _ & _ & (m1 & m2 & E1 & E2 & ->) & _);
    [|done|by apply project_path_nonempty|done].
  cbn [prompted fs] in *.
  pose proof (Hkeep (project_path env w) go_mod_tidy m1) as H2. rewrite E2 in H2.
  apply H2.
  pose proof (Hkeep (project_path env w) (go_mod_init (projectName_of w))
                (scaffold_tree (env_cwd env) (fs w)
                   (resolve (env_cwd env) (project_path env w)) ∪ fs w)) as H1.
  rewrite E1 in H1. apply H1.
  exists Dir. apply lookup_union_Some_l, scaffold_tree_root.
Qed.
End BaseDirectory.

(** C5.  Creating the base directory of the project ends the run when the
    directory already exists or cannot be created, with the file system as
    it was.  So a second run with the same answers, started where a complete
    first run ended, stops at the base directory and changes nothing of what
    the first run left (the external commands are taken to leave the project
    directory in place). *)
Theorem base_directory_creation_is_one_shot env :
  (forall order w,
     env_path env "air" = true ->
     baseInput_of w <> EmptyString ->
     (expand_tilde env (baseInput_of w)).2 = None ->
     projectName_of w <> EmptyString ->
     (is_Some (fs_lookup (fs w) (resolve (env_cwd env) (project_path env w)))
      \/ exists e, mkdir (env_fault env) (fs w)
                     (resolve (env_cwd env) (project_path env w)) = inl e) ->
     exists e, main env order w = Fatal (base_directory_failure env w e))
  /\ (forall order order2 w w1,
        order ≡ₚ map_to_list dirs ->
        fs_wf (fs w) ->
        exec_keeps env (resolve (env_cwd env) (project_path env w)) ->
        main env order w = Ok tt w1 ->
        exists e, main env order2 (rerun w w1)
                  = Fatal (base_directory_failure env (rerun w w1) e)).
Proof.
  assert (HA : forall order w,
     env_path env "air" = true ->
     baseInput_of w <> EmptyString ->
     (expand_tilde env (baseInput_of w)).2 = None ->
     projectName_of w <> EmptyString ->
     (is_Some (fs_lookup (fs w) (resolve (env_cwd env) (project_path env w)))
      \/ exists e, mkdir (env_fault env) (fs w)
                     (resolve (env_cwd env) (project_path env w)) = inl e) ->
     exists e, main env order w = Fatal (base_directory_failure env w e)).
  { intros order w Hair Hb He Hn Hcase.
    assert (Hmk : exists e, mkdir (env_fault env) (fs w)
                              (resolve (env_cwd env) (project_path env w)) = inl e).
    { destruct Hcase as [[n Hex]|Hmk]; [|done]. by eapply mkdir_exists. }
    destruct Hmk as [e Hmk]. exists e. by apply main_mkdir_fails. }
  split; [exact HA|].
  intros order order2 w w1 Hperm Hwf Hkeep Hrun.
  pose proof (main_Ok_root env order w w1 Hperm Hwf Hkeep Hrun) as Hroot.
  apply main_Ok_inv in Hrun as (Hair & Hb & He & Hn & _).
  apply (HA order2 (rerun w w1)); try done.
  left. change (project_path env (rerun w w1)) with (project_path env w).
  cbn [rerun fs]. destruct (resolve (env_cwd env) (project_path env w)); [by eexists|done].
Qed.

Lemma demo_exec_keeps p : exec_keeps demo_env p.
Proof.
  intros dir argv m H. cbn [demo_env env_exec]. unfold demo_exec.
  destruct (argv !! 3); cbn [fst]; [|done].
  rewrite lookup_insert. by case_decide.
Qed.

Lemma base_directory_creation_is_one_shot_witness :
  (env_path demo_env "air" = true
   /\ baseInput_of demo_existing <> EmptyString
   /\ (expand_tilde demo_env (baseInput_of demo_existing)).2 = None
   /\ projectName_of demo_existing <> EmptyString
   /\ is_Some (fs_lookup (fs demo_existing)
                 (resolve (env_cwd demo_env) (project_path demo_env demo_existing)))
   /\ exists e, main demo_env demo_order demo_existing
                = Fatal (base_directory_failure demo_env demo_existing e))
  /\ (demo_order ≡ₚ map_to_list dirs
      /\ fs_wf (fs demo_world)
      /\ exec_keeps demo_env (resolve (env_cwd demo_env) (project_path demo_env demo_world))
      /\ main demo_env demo_order demo_world = Ok tt demo_final
      /\ exists e, main demo_env demo_order_reversed demo_rerun
                   = Fatal (base_directory_failure demo_env demo_rerun e)).
Proof.
  pose proof (base_directory_creation_is_one_shot demo_env) as [HA HB].
  assert (A1 : env_path demo_env "air" = true) by reflexivity.
  assert (A2 : baseInput_of demo_existing <> EmptyString) by compute_done.
  assert (A3 : (expand_tilde demo_env (baseInput_of demo_existing)).2 = None)
    by (vm_compute; reflexivity).
  assert (A4 : projectName_of demo_existing <> EmptyString) by compute_done.
  assert (A5 : is_Some (fs_lookup (fs demo_existing)
                 (resolve (env_cwd demo_env) (project_path demo_env demo_existing))))
    by (exists Dir; vm_compute; reflexivity).
  assert (B1 : demo_order ≡ₚ map_to_list dirs) by reflexivity.
  assert (B2 : fs_wf (fs demo_world)) by compute_done.
  assert (B3 : exec_keeps demo_env
                 (resolve (env_cwd demo_env) (project_path demo_env demo_world)))
    by apply demo_exec_keeps.
  assert (B4 : main demo_env demo_order demo_world = Ok tt demo_final)
    by (unfold demo_final; apply completes_final; vm_compute; reflexivity).
  split; split_and!; try assumption.
  - exact (HA demo_order demo_existing A1 A2 A3 A4 (or_introl A5)).
  - exact (HB demo_order demo_order_reversed demo_world demo_final B1 B2 B3 B4).
Defined.

(** ** Trimming *)

Ltac byte_facts :=
  unfold space2_back, space3_back, space2, space3, white_start, asciiSpace in *;
  cbv zeta in *;
  repeat match goal with
         | |- _ /\ _ => split
         | |- _ = false => apply not_true_iff_false; intros ?
         end;
  repeat first [ rewrite andb_true_iff in * | rewrite orb_true_iff in *
               | rewrite N.eqb_eq in * | rewrite N.leb_le in * ];
  lia.

Lemma space2_first c d : space2 c d = true -> asciiSpace c = false.
Proof. intros H. byte_facts. Qed.

Lemma space3_first c d e : space3 c d e = true -> asciiSpace c = false /\ space2 c d = false.
Proof. intros H. byte_facts. Qed.

Lemma space2_back_first c d : space2_back c d = true -> asciiSpace c = false.
Proof. intros H. byte_facts. Qed.

Lemma space3_back_first c d e :
  space3_back c d e = true -> asciiSpace c = false /\ space2_back c d = false.
Proof. intros H. byte_facts. Qed.

Lemma space2_second c d : space2 c d = true -> white_start d = false.
Proof. intros H. byte_facts. Qed.

Lemma space3_rest c d e :
  space3 c d e = true -> white_start d = false /\ white_start e = false.
Proof. intros H. byte_facts. Qed.

Lemma white_start_1 c : asciiSpace c = true -> white_start c = true.
Proof. intros H. unfold white_start. by rewrite H. Qed.

Lemma white_start_2 c d : space2 c d = true -> white_start c = true.
Proof. intros H. byte_facts. Qed.

Lemma white_start_3 c d e : space3 c d e = true -> white_start c = true.
Proof. intros H. byte_facts. Qed.

Lemma append_cons c (a b : string) : String c a ++ b = String c (a ++ b).
Proof. reflexivity. Qed.

Lemma append_nil_l (b : string) : EmptyString ++ b = b.
Proof. reflexivity. Qed.

Section TrimFront.
Variable w2 : ascii -> ascii -> bool.
Variable w3 : ascii -> ascii -> ascii -> bool.
Hypothesis w2_first : forall c d, w2 c d = true -> asciiSpace c = false.
Hypothesis w3_first : forall c d e, w3 c d e = true -> asciiSpace c = false /\ w2 c d = false.

Lemma spaces_app a b : spaces w2 w3 a -> spaces w2 w3 b -> spaces w2 w3 (a ++ b).
Proof.
  intros Ha Hb. induction Ha; rewrite ?append_cons; [done| | |].
  - by apply spaces_1.
  - by apply spaces_2.
  - by apply spaces_3.
Qed.

(** White space in front of a string is trimmed away. *)
Lemma trim_front_spaces w s :
  spaces w2 w3 w -> trim_front w2 w3 (w ++ s) = trim_front w2 w3 s.
Proof.
  induction 1 as [|c w Hc _ IH|c d w Hcd _ IH|c d e w Hcde _ IH]; [done| | |].
  - rewrite append_cons. cbn [trim_front]. by rewrite Hc.
  - rewrite !append_cons. cbn [trim_front]. by rewrite (w2_first _ _ Hcd), Hcd.
  - rewrite !append_cons. cbn [trim_front].
    destruct (w3_first _ _ _ Hcde) as [-> ->]. by rewrite Hcde.
Qed.

Lemma trim_front_length_le n s :
  String.length s <= n -> String.length (trim_front w2 w3 s) <= String.length s.
Proof.
  revert s. induction n as [|n IH]; intros s Hn.
  { destruct s; [done|]. cbn [String.length] in Hn. lia. }
  destruct s as [|c r]; [done|]. cbn [trim_front String.length] in *.
  destruct (asciiSpace c).
  { specialize (IH r). lia. }
  destruct r as [|d r2]; [done|]. cbn [String.length] in *.
  destruct (w2 c d).
  { specialize (IH r2). lia. }
  destruct r2 as [|e r3]; [done|]. cbn [String.length] in *.
  destruct (w3 c d e); [|done].
  specialize (IH r3). lia.
Qed.

Lemma trim_front_length s : String.length (trim_front w2 w3 s) <= String.length s.
Proof. by apply (trim_front_length_le (String.length s)). Qed.
End TrimFront.

Section StringRev.
Implicit Types (s a b acc : string).

Lemma append_nil_r s : s ++ EmptyString = s.
Proof. induction s as [|c s IH]; [reflexivity|]. by rewrite append_cons, IH. Qed.

Lemma append_assoc a b c : (a ++ b) ++ c = a ++ b ++ c.
Proof. induction a as [|x a IH]; [reflexivity|]. by rewrite !append_cons, IH. Qed.

Lemma string_rev_onto_app s acc : string_rev_onto s acc = string_rev s ++ acc.
Proof.
  unfold string_rev. revert acc. induction s as [|c s IH]; intros acc; [done|].
  cbn [string_rev_onto]. rewrite IH, (IH (String c EmptyString)).
  by rewrite append_assoc.
Qed.

Lemma string_rev_cons c s : string_rev (String c s) = string_rev s ++ String c EmptyString.
Proof. unfold string_rev at 1. cbn [string_rev_onto]. apply string_rev_onto_app. Qed.

Lemma string_rev_app a b : string_rev (a ++ b) = string_rev b ++ string_rev a.
Proof.
  induction a as [|c a IH]; rewrite ?append_cons.
  - by rewrite append_nil_l, append_nil_r.
  - by rewrite !string_rev_cons, IH, append_assoc.
Qed.

Lemma spaces_rev w2 w3 s :
  spaces w2 w3 s ->
  spaces (fun c d => w2 d c) (fun c d e => w3 e d c) (string_rev s).
Proof.
  induction 1 as [|c w Hc _ IH|c d w Hcd _ IH|c d e w Hcde _ IH].
  - constructor.
  - rewrite string_rev_cons. apply spaces_app; [done|]. apply spaces_1; [done|constructor].
  - rewrite !string_rev_cons, append_assoc. apply spaces_app; [done|].
    apply spaces_2; [done|constructor].
  - rewrite !string_rev_cons, !append_assoc. apply spaces_app; [done|].
    apply spaces_3; [done|constructor].
Qed.
End StringRev.

Section TrimSpace.
Implicit Types (s b w : string).

Lemma white_head d r : white (String d r) -> white_start d = true.
Proof.
  inversion 1; subst.
  - by apply white_start_1.
  - by eapply white_start_2.
  - by eapply white_start_3.
Qed.

Lemma trim_left_white w s : white w -> trim_left (w ++ s) = trim_left s.
Proof. apply trim_front_spaces; [apply space2_first|apply space3_first]. Qed.

Lemma white_rev w : white w -> spaces space2_back space3_back (string_rev w).
Proof.
  intros H. apply (spaces_rev space2 space3) in H. exact H.
Qed.

Lemma trim_right_white s w : white w -> trim_right (s ++ w) = trim_right s.
Proof.
  intros H. unfold trim_right. rewrite string_rev_app.
  rewrite trim_front_spaces; [done|apply space2_back_first|apply space3_back_first|].
  by apply white_rev.
Qed.

Lemma trim_left_shorter c s : trim_front space2 space3 s <> String c s.
Proof.
  intros H. pose proof (trim_front_length space2 space3 s) as Hl.
  rewrite H in Hl. cbn [String.length] in Hl. lia.
Qed.

Lemma trim_left_shorter2 c d s : trim_front space2 space3 s <> String c (String d s).
Proof.
  intros H. pose proof (trim_front_length space2 space3 s) as Hl.
  rewrite H in Hl. cbn [String.length] in Hl. lia.
Qed.

Lemma trim_left_shorter3 c d e s :
  trim_front space2 space3 s <> String c (String d (String e s)).
Proof.
  intros H. pose proof (trim_front_length space2 space3 s) as Hl.
  rewrite H in Hl. cbn [String.length] in Hl. lia.
Qed.

(** White space after a string that starts with none is not trimmed from
    the left. *)
Lemma trim_left_tight_white b w :
  trim_left b = b -> b <> EmptyString -> white w -> trim_left (b ++ w) = b ++ w.
Proof.
  unfold trim_left. intros Hb Hne Hw.
  destruct b as [|c b1]; [done|]. rewrite append_cons.
  cbn [trim_front] in *.
  destruct (asciiSpace c); [by apply trim_left_shorter in Hb|].
  destruct b1 as [|d b2].
  - rewrite append_nil_l. destruct w as [|d r2]; [done|].
    pose proof (white_head _ _ Hw) as Hd.
    destruct (space2 c d) eqn:E2.
    { apply space2_second in E2. congruence. }
    destruct r2 as [|e r3]; [done|].
    destruct (space3 c d e) eqn:E3; [|done].
    apply space3_rest in E3 as [? _]. congruence.
  - rewrite append_cons.
    destruct (space2 c d); [by apply trim_left_shorter2 in Hb|].
    destruct b2 as [|e b3].
    + rewrite append_nil_l. destruct w as [|e r3]; [done|].
      pose proof (white_head _ _ Hw) as He.
      destruct (space3 c d e) eqn:E3; [|done].
      apply space3_rest in E3 as [_ ?]. congruence.
    + rewrite append_cons.
      destruct (space3 c d e); [by apply trim_left_shorter3 in Hb|done].
Qed.

(** [strings.TrimSpace] gives back what stands between the white space. *)
Lemma TrimSpace_strip w1 b w2 :
  white w1 -> white w2 -> tight b -> strings_TrimSpace (w1 ++ b ++ w2) = b.
Proof.
  intros H1 H2 [Hl Hr]. unfold strings_TrimSpace. rewrite trim_left_white by done.
  destruct (decide (b = EmptyString)) as [->|Hne].
  - rewrite append_nil_l. rewrite <- (append_nil_r w2), trim_left_white by done. reflexivity.
  - rewrite trim_left_tight_white by done. by rewrite trim_right_white.
Qed.



Lemma white_newline : white newline.
Proof. apply spaces_1; [reflexivity|constructor]. Qed.

Lemma white_app w1 w2 : white w1 -> white w2 -> white (w1 ++ w2).
Proof. apply spaces_app. Qed.


(** Reading a line that ends in a line feed. *)
Lemma ReadString_line a rest :
  no_newline a = true -> reader_ReadString (a ++ newline ++ rest) = (a ++ newline, rest).
Proof.
  induction a as [|c a IH]; intros Ha.
  - reflexivity.
  - cbn [no_newline] in Ha. apply andb_prop in Ha as [Hc Ha].
    apply negb_true_iff in Hc. rewrite !append_cons. cbn [reader_ReadString].
    rewrite Hc, IH by done. done.
Qed.
End TrimSpace.

(** ** Runs that differ in the white space typed *)

Section Typing.
Variable env : Env.
Variable order : list (string * list string).

Lemma same_outcome_refl {A} (r : result A) : same_outcome r r.
Proof. by split_and!. Qed.

(** A run depends on standard input through the two trimmed answers and
    what is left after them. *)
Lemma main_same_outcome w w' :
  fs w = fs w' -> console w = console w' ->
  baseInput_of w = baseInput_of w' ->
  projectName_of w = projectName_of w' ->
  stdin_after_name w = stdin_after_name w' ->
  same_outcome (main env order w) (main env order w').
Proof.
  intros Hfs Hcon Hb Hn Hrest.
  destruct (bool_cases (env_path env "air")) as [Hair|Hair].
  2:{ rewrite !main_missing_air by done. unfold same_outcome. simpl.
      split_and!; congruence. }
  destruct (decide (baseInput_of w = EmptyString)) as [Hbe|Hbe].
  { rewrite !main_empty_base by congruence. unfold same_outcome. simpl.
    split_and!; congruence. }
  destruct ((expand_tilde env (baseInput_of w)).2) as [e|] eqn:He.
  { rewrite (main_expand_error env order w e), (main_expand_error env order w' e)
      by congruence.
    unfold same_outcome. simpl. split_and!; congruence. }
  destruct (decide (projectName_of w = EmptyString)) as [Hne|Hne].
  { rewrite !main_empty_name by congruence. unfold same_outcome. simpl.
    split_and!; congruence. }
  rewrite !main_reaches_build by congruence.
  assert (Hp : prompted w = prompted w').
  { unfold prompted. by rewrite Hfs, Hcon, Hrest. }
  rewrite Hp, Hb, Hn. apply same_outcome_refl.
Qed.

Lemma typed_inputs m con w1 b w2 w3 n w4 rest :
  white w1 -> white w2 -> white w3 -> white w4 -> tight b -> tight n ->
  no_newline (w1 ++ b ++ w2) = true -> no_newline (w3 ++ n ++ w4) = true ->
  baseInput_of (typed_world m con w1 b w2 w3 n w4 rest) = b
  /\ projectName_of (typed_world m con w1 b w2 w3 n w4 rest) = n
  /\ stdin_after_name (typed_world m con w1 b w2 w3 n w4 rest) = rest.
Proof.
  intros H1 H2 H3 H4 Hb Hn Hl1 Hl2.
  unfold baseInput_of, projectName_of, stdin_after_name, stdin_after_base, typed_world.
  cbn [stdin]. rewrite ReadString_line by done. cbn [fst snd].
  rewrite ReadString_line by done. cbn [fst snd].
  split_and!; [| |done].
  - rewrite !append_assoc. apply TrimSpace_strip; [done| |done].
    apply white_app; [done|apply white_newline].
  - rewrite !append_assoc. apply TrimSpace_strip; [done| |done].
    apply white_app; [done|apply white_newline].
Qed.
End Typing.



(** * Further properties of the code *)

(** ** [os.MkdirAll]: what it touches and when it succeeds *)

Section MkdirAll.
Local Open Scope list_scope.
Variable fault : syscall -> option errno.
Implicit Types (m : FS) (p q : path).

(** Only prefixes of the path can change. *)
Lemma mkdir_all_frame m p m' (o : option errno) q :
  mkdir_all fault m p = (m', o) -> ~ q `prefix_of` p -> m' !! q = m !! q.
Proof.
  revert m' o. induction p as [|x p IH] using rev_ind; intros m' o.
  - rewrite mkdir_all_nil. by intros [= <- _].
  - rewrite mkdir_all_snoc. intros Hrun Hq.
    assert (Hq' : ~ q `prefix_of` p).
    { intros Hp. apply Hq. by apply prefix_app_r. }
    destruct (fs_lookup m (p ++ [x])) as [[|c]|]; try by injection Hrun as <- _.
    destruct (mkdir_all fault m p) as [m1 [e|]] eqn:E.
    + injection Hrun as <- _. by eapply IH.
    + specialize (IH _ _ eq_refl Hq').
      destruct (mkdir fault m1 (p ++ [x])) as [e|m2] eqn:Em.
      * destruct (fs_lookup m1 (p ++ [x])) as [[|c]|]; by injection Hrun as <- _.
      * injection Hrun as <- _. apply mkdir_inr in Em as (_ & _ & _ & ->).
        rewrite lookup_insert_ne; [done|]. intros <-. by apply Hq.
Qed.

(** After a successful call the path is a directory. *)
Lemma mkdir_all_target m p m' :
  mkdir_all fault m p = (m', None) -> fs_lookup m' p = Some Dir.
Proof.
  destruct (snoc_cases p) as [->|(q & x & ->)]; [done|].
  rewrite mkdir_all_snoc.
  destruct (fs_lookup m (q ++ [x])) as [[|c]|] eqn:Hl; try done.
  { by intros [= <-]. }
  destruct (mkdir_all fault m q) as [m1 [e|]]; [done|].
  destruct (mkdir fault m1 (q ++ [x])) as [e|m2] eqn:Em.
  - destruct (fs_lookup m1 (q ++ [x])) as [[|c]|] eqn:Hl'; try done. by intros [= <-].
  - intros [= <-]. apply mkdir_inr in Em as (Hne & _ & _ & ->).
    rewrite fs_lookup_insert by done. by case_decide.
Qed.

(** With nothing refused, [os.MkdirAll] below an existing directory succeeds
    as long as no file stands where a directory is wanted. *)
Lemma mkdir_all_succeeds m base ext :
  (forall c, fault c = None) -> fs_wf m -> fs_lookup m base = Some Dir ->
  (forall pre suf c, pre <> [] -> ext = pre ++ suf -> m !! (base ++ pre) <> Some (File c)) ->
  (mkdir_all fault m (base ++ ext)).2 = None.
Proof.
  intros Hfault Hwf Hbase. induction ext as [|x ext IH] using rev_ind; intros Hfile.
  - rewrite app_nil_r. destruct (snoc_cases base) as [->|(q & y & ->)]; [done|].
    rewrite mkdir_all_snoc, Hbase. done.
  - rewrite app_assoc, mkdir_all_snoc, <- app_assoc.
    destruct (fs_lookup m (base ++ ext ++ [x])) as [[|c]|] eqn:Hl; [done| |].
    { rewrite fs_lookup_ne in Hl by apply app_snoc_ne.
      exfalso. eapply (Hfile (ext ++ [x]) []); [by destruct ext|by rewrite app_nil_r|done]. }
    destruct (mkdir_all fault m (base ++ ext)) as [m1 o] eqn:E.
    assert (Ho : o = None).
    { apply IH. intros pre suf c Hpre ->. apply (Hfile pre (suf ++ [x])); [done|].
      by rewrite app_assoc. }
    subst o. pose proof (mkdir_all_target _ _ _ E) as Htarget.
    assert (Hfresh : fs_lookup m1 (base ++ ext ++ [x]) = None).
    { rewrite fs_lookup_ne by apply app_snoc_ne.
      rewrite (mkdir_all_frame _ _ _ _ _ E).
      - by apply fs_lookup_None in Hl as [_ ?].
      - intros Hp. apply prefix_length in Hp. rewrite !length_app in Hp. simpl in Hp. lia. }
    unfold mkdir. rewrite Hfault. rewrite app_assoc, parent_snoc, Htarget.
    rewrite <- app_assoc, Hfresh. done.
Qed.
End MkdirAll.

(** ** When the scaffold completes *)

Section Completes.
Local Open Scope list_scope.
Variable env : Env.
Variable basePath : string.
Variable m0 : FS.
Hypothesis basePath_nonempty : basePath <> EmptyString.
Hypothesis env_no_fault : no_fault env.

Local Abbreviation cwd := (env_cwd env).
Local Abbreviation root := (resolve (env_cwd env) basePath).

Lemma canonical_steps_named : Forall step_named (scaffold_steps (map_to_list dirs)).
Proof. compute_done. Qed.

Lemma names_apart : Forall (fun f => f ∉ dir_names) produced_files.
Proof. compute_done. Qed.

Lemma lookup_insert_items_cases (items : list (path * node)) (m : FS) (q : path) (n : node) :
  insert_items items m !! q = Some n -> (q, n) ∈ items \/ m !! q = Some n.
Proof.
  induction items as [|[k v] items IH] using rev_ind; [by right|].
  rewrite insert_items_snoc. destruct (decide (k = q)) as [->|Hne].
  - rewrite lookup_insert_eq. intros [= ->]. left. apply elem_of_app. right.
    by apply list_elem_of_singleton.
  - rewrite lookup_insert_ne by done. intros [Hin|Hm]%IH; [|by right].
    left. apply elem_of_app. by left.
Qed.

Lemma mkdir_step_completes w dir :
  scaffolding m0 root w -> well_named root (fs w) ->
  step_ok (MkdirStep dir) -> step_named (MkdirStep dir) ->
  exists w',
    run_step env basePath (MkdirStep dir) w = Ok tt w'
    /\ scaffolding m0 root w' /\ well_named root (fs w')
    /\ fs_lookup (fs w') (root ++ split_path dir) = Some Dir.
Proof.
  intros Hinv Hnamed Hok Hdirs. pose proof Hinv as (Hwf & Hroot & _).
  pose proof Hok as [Hplain _].
  assert (Hnone : (mkdir_all (env_fault env) (fs w) (root ++ split_path dir)).2 = None).
  { apply mkdir_all_succeeds; try done. intros pre suf c Hpre Hsplit Hfile.
    destruct (last pre) as [x|] eqn:Hlast; [|by apply last_None in Hlast].
    pose proof (Hnamed pre x _ Hlast Hfile) as Hx. cbn in Hx.
    apply last_Some_elem_of in Hlast.
    assert (Hd : x ∈ dir_names).
    { cbn in Hdirs. rewrite Hsplit in Hdirs. apply Forall_app in Hdirs as [Hdirs _].
      by eapply Forall_forall in Hdirs. }
    pose proof names_apart as Hap. eapply Forall_forall in Hap; [|exact Hx]. done. }
  destruct (mkdir_all (env_fault env) (fs w) (root ++ split_path dir)) as [m' o] eqn:Emk.
  cbn in Hnone. subst o.
  assert (Hrun : run_step env basePath (MkdirStep dir) w
                 = Ok tt (emit (step_line basePath (MkdirStep dir)) (set_fs m' w))).
  { unfold run_step, bind, os_MkdirAll. rewrite resolve_dir by done. by rewrite Emk. }
  eexists. split; [exact Hrun|].
  destruct (run_step_Ok env basePath m0 basePath_nonempty _ _ _ Hinv Hok Hrun)
    as (Hfs & _ & _ & Hinv' & _).
  split_and!; [done| |].
  - intros ext x n Hlast Hl. rewrite Hfs in Hl.
    apply lookup_insert_items_cases in Hl as [Hin|Hl]; [|by eapply Hnamed].
    rewrite mkdir_step_slots in Hin. unfold dir_items in Hin.
    apply list_elem_of_fmap in Hin as (p & [= Hp ->] & Hin). cbn.
    apply elem_of_dir_chain in Hin as (pre & suf & Hpre & Hsplit & ->).
    apply app_inv_head in Hp. subst pre. apply last_Some_elem_of in Hlast.
    cbn in Hdirs. rewrite Hsplit in Hdirs. apply Forall_app in Hdirs as [Hdirs _].
    by eapply Forall_forall in Hdirs.
  - cbn [fs emit set_fs]. by eapply mkdir_all_target.
Qed.

Lemma file_step_completes w dir file :
  scaffolding m0 root w -> well_named root (fs w) ->
  step_ok (FileStep dir file) -> step_named (FileStep dir file) ->
  fs_lookup (fs w) (root ++ dir_ext dir) = Some Dir ->
  has_template cwd m0 file -> m0 !! root = None ->
  exists w',
    run_step env basePath (FileStep dir file) w = Ok tt w'
    /\ scaffolding m0 root w' /\ well_named root (fs w')
    /\ forall q, q <> root ++ dir_ext dir ++ [file] -> fs w' !! q = fs w !! q.
Proof.
  intros Hinv Hnamed Hok (Hn1 & Hn2 & Hn3) Hparent Htpl Hm0.
  pose proof Hinv as (Hwf & Hroot & Hframe).
  pose proof Hok as (Hd & Hf & Hin & Hr & Hp & Hn).
  set (key := root ++ dir_ext dir ++ [file]).
  assert (Hkey : key <> []) by (unfold key; rewrite app_assoc; by destruct (root ++ dir_ext dir)).
  assert (Hcreate : create (env_fault env) (fs w) key = inr (<[key := File []]> (fs w))).
  { unfold create. rewrite env_no_fault. unfold key at 1. rewrite app_assoc, parent_snoc, Hparent.
    rewrite fs_lookup_ne by done.
    destruct (fs w !! key) as [[|c]|] eqn:Hl; try done.
    exfalso. apply Hn3. by apply (Hnamed (dir_ext dir ++ [file]) file Dir); [apply last_snoc|]. }
  unfold has_template in Htpl.
  destruct (m0 !! template_path cwd file) as [[|c]|] eqn:Ht; try done.
  assert (Htr : template_path cwd file <> root) by congruence.
  assert (Hkt : key <> template_path cwd file).
  { intros Heq. eapply (template_path_outside env dir file); [done|].
    rewrite <- Heq. unfold key. rewrite app_assoc. by rewrite ends_in_app. }
  assert (Hread : read_file (env_fault env) (<[key := File []]> (fs w)) (template_path cwd file)
                  = inr c).
  { unfold read_file. rewrite env_no_fault.
    destruct (wf_parent _ _ _ Hwf (eq_trans (Hframe _ (template_path_outside env dir file Hok) Htr) Ht))
      as [Hne _].
    rewrite fs_lookup_ne by done. rewrite lookup_insert_ne by done.
    rewrite Hframe; [by rewrite Ht|by eapply template_path_outside|done]. }
  assert (Hwrite : write (env_fault env) (<[key := File []]> (fs w)) key c
                   = inr (<[key := File c]> (<[key := File []]> (fs w)))).
  { unfold write. rewrite env_no_fault, fs_lookup_ne by done.
    by rewrite lookup_insert_eq. }
  assert (Hrun : exists w', run_step env basePath (FileStep dir file) w = Ok tt w').
  { unfold run_step, create_file, bind, os_Create. rewrite resolve_file by done.
    fold key. rewrite Hcreate. cbn [fmt_Print].
    unfold writeContentFromTemplate, bind, ioutil_ReadFile. cbn [fs emit set_fs].
    fold (template_path cwd file). rewrite Hread. unfold file_Write. cbn [fs emit set_fs f_path].
    rewrite Hwrite. by eexists. }
  destruct Hrun as [w' Hrun]. exists w'. split; [exact Hrun|].
  destruct (run_step_Ok env basePath m0 basePath_nonempty _ _ _ Hinv Hok Hrun)
    as (Hfs & _ & _ & Hinv' & _).
  rewrite file_step_slots in Hfs. cbn [insert_items foldl fst snd] in Hfs. fold key in Hfs.
  split_and!; [done| |].
  - intros ext x n Hlast Hl. rewrite Hfs in Hl.
    destruct (decide (key = root ++ ext)) as [Heq|Hne].
    + rewrite Heq, lookup_insert_eq in Hl. injection Hl as <-.
      unfold key in Heq. apply app_inv_head in Heq. subst ext.
      rewrite last_snoc in Hlast. by injection Hlast as <-.
    + rewrite lookup_insert_ne in Hl by done. by eapply Hnamed.
  - intros q Hq. rewrite Hfs. by rewrite lookup_insert_ne.
Qed.
End Completes.

Section Outcome.
Local Open Scope list_scope.
Variable env : Env.
Variable basePath : string.
Variable m0 : FS.
Hypothesis basePath_nonempty : basePath <> EmptyString.
Hypothesis env_no_fault : no_fault env.
Hypothesis root_new : m0 !! resolve (env_cwd env) basePath = None.

Local Abbreviation cwd := (env_cwd env).
Local Abbreviation root := (resolve (env_cwd env) basePath).

Lemma left_empty_mono (l l' : list step) w' :
  (forall s, s ∈ l -> s ∈ l') -> left_empty cwd m0 root l w' -> left_empty cwd m0 root l' w'.
Proof. intros Hsub (dir & file & Hin & Hrest). exists dir, file. split; [by apply Hsub|done]. Qed.

(** A file whose template is not there is created all the same: the run
    ends when the template is read, with the file empty. *)
Lemma file_step_no_template w dir file :
  scaffolding m0 root w -> well_named root (fs w) ->
  step_ok (FileStep dir file) -> step_named (FileStep dir file) ->
  fs_lookup (fs w) (root ++ dir_ext dir) = Some Dir ->
  ~ has_template cwd m0 file ->
  exists w',
    run_step env basePath (FileStep dir file) w = Fatal w'
    /\ fs w' = <[root ++ dir_ext dir ++ [file] := File []]> (fs w).
Proof.
  intros Hinv Hnamed Hok (Hn1 & Hn2 & Hn3) Hparent Htpl.
  pose proof Hinv as (Hwf & Hroot & Hframe).
  pose proof Hok as (Hd & Hf & Hin & Hr & Hp & Hn).
  set (key := root ++ dir_ext dir ++ [file]).
  assert (Hkey : key <> []) by (unfold key; rewrite app_assoc; by destruct (root ++ dir_ext dir)).
  assert (Hcreate : create (env_fault env) (fs w) key = inr (<[key := File []]> (fs w))).
  { unfold create. rewrite env_no_fault. unfold key at 1. rewrite app_assoc, parent_snoc, Hparent.
    rewrite fs_lookup_ne by done.
    destruct (fs w !! key) as [[|c]|] eqn:Hl; try done.
    exfalso. apply Hn3. by apply (Hnamed (dir_ext dir ++ [file]) file Dir); [apply last_snoc|]. }
  assert (Hkt : key <> template_path cwd file).
  { intros Heq. eapply (template_path_outside env dir file); [done|].
    rewrite <- Heq. unfold key. rewrite app_assoc. by rewrite ends_in_app. }
  assert (Hread : exists e, read_file (env_fault env) (<[key := File []]> (fs w))
                              (template_path cwd file) = inl e).
  { unfold read_file. rewrite env_no_fault.
    destruct (template_path cwd file) as [|x p] eqn:Ep; [by eexists|].
    rewrite fs_lookup_ne by done. rewrite lookup_insert_ne by done.
    destruct (decide (x :: p = root)) as [Heq|Hne].
    { rewrite Heq. rewrite fs_lookup_ne in Hroot by by rewrite <- Heq.
      rewrite Hroot. by eexists. }
    rewrite Hframe; [| |done].
    - unfold has_template in Htpl. rewrite Ep in Htpl.
      destruct (m0 !! (x :: p)) as [[|c]|]; [by eexists|done|by eexists].
    - rewrite <- Ep. by eapply template_path_outside. }
  destruct Hread as [e Hread].
  unfold run_step, create_file, bind, os_Create. rewrite resolve_file by done.
  fold key. rewrite Hcreate. cbn [fmt_Print].
  unfold writeContentFromTemplate, bind, ioutil_ReadFile. cbn [fs emit set_fs].
  fold (template_path cwd file). rewrite Hread.
  destruct e; eexists; (split; [reflexivity|]); reflexivity.
Qed.

(** The files of one directory: either all are made, or the run ends at one
    without a template. *)
Lemma files_outcome w dir files :
  scaffolding m0 root w -> well_named root (fs w) ->
  fs_lookup (fs w) (root ++ dir_ext dir) = Some Dir ->
  Forall (fun f => step_ok (FileStep dir f) /\ step_named (FileStep dir f)) files ->
  (exists w',
     for_each (FileStep dir <$> files) (run_step env basePath) w = Ok tt w'
     /\ scaffolding m0 root w' /\ well_named root (fs w'))
  \/ (exists w',
        for_each (FileStep dir <$> files) (run_step env basePath) w = Fatal w'
        /\ left_empty cwd m0 root (FileStep dir <$> files) w').
Proof.
  intros Hinv Hnamed Hparent Hall. revert w Hinv Hnamed Hparent.
  induction Hall as [|f files (Hok & Hsn) _ IH]; intros w Hinv Hnamed Hparent.
  { left. exists w. by split_and!. }
  cbn [fmap list_fmap for_each]. unfold bind.
  destruct (decide (has_template cwd m0 f)) as [Htpl|Htpl].
  - destruct (file_step_completes env basePath m0 basePath_nonempty env_no_fault w dir f
                Hinv Hnamed Hok Hsn Hparent Htpl root_new)
      as (w1 & Hrun & Hinv1 & Hnamed1 & Hframe).
    rewrite Hrun.
    destruct (IH w1 Hinv1 Hnamed1) as [Hgo|(w' & Hrest & Hleft)].
    + destruct (root ++ dir_ext dir) as [|y q] eqn:Eq; [done|]. cbn in *.
      rewrite Hframe; [done|]. rewrite <- Eq. intros Heq.
      apply (f_equal length) in Heq. rewrite !length_app in Heq. simpl in Heq. lia.
    + by left.
    + right. exists w'. split; [done|].
      eapply left_empty_mono; [|exact Hleft]. intros s Hs. by apply list_elem_of_further.
  - destruct (file_step_no_template w dir f Hinv Hnamed Hok Hsn Hparent Htpl)
      as (w' & Hrun & Hfs).
    rewrite Hrun. right. exists w'. split; [done|].
    exists dir, f. split_and!; [apply list_elem_of_here|done|].
    rewrite Hfs. apply lookup_insert_eq.
Qed.

Lemma entry_steps_canonical entry s :
  entry ∈ map_to_list dirs -> s ∈ entry_steps entry ->
  s ∈ scaffold_steps (map_to_list dirs).
Proof.
  intros He Hs. unfold scaffold_steps. apply elem_of_app. left.
  generalize dependent (map_to_list dirs). intros l He.
  apply list_elem_of_In. apply (proj2 (in_flat_map entry_steps l s)).
  exists entry. split; apply list_elem_of_In; assumption.
Qed.

Lemma step_facts (l : list step) s :
  Forall step_ok l -> Forall step_named l -> s ∈ l -> step_ok s /\ step_named s.
Proof.
  intros Hok Hnamed Hs. split.
  - exact (proj1 (Forall_forall _ _) Hok s Hs).
  - exact (proj1 (Forall_forall _ _) Hnamed s Hs).
Qed.

Lemma canonical_step_facts s :
  s ∈ scaffold_steps (map_to_list dirs) -> step_ok s /\ step_named s.
Proof.
  intros Hs. exact (step_facts _ s canonical_steps_ok canonical_steps_named Hs).
Qed.

Lemma entry_outcome w entry :
  entry ∈ map_to_list dirs ->
  scaffolding m0 root w -> well_named root (fs w) ->
  (exists w',
     for_each (entry_steps entry) (run_step env basePath) w = Ok tt w'
     /\ scaffolding m0 root w' /\ well_named root (fs w'))
  \/ (exists w',
        for_each (entry_steps entry) (run_step env basePath) w = Fatal w'
        /\ left_empty cwd m0 root (entry_steps entry) w').
Proof.
  intros He Hinv Hnamed. destruct entry as [dir files].
  destruct (canonical_step_facts (MkdirStep dir)) as (Hok & Hsn).
  { apply (entry_steps_canonical (dir, files)); [exact He|]. apply list_elem_of_here. }
  destruct (mkdir_step_completes env basePath m0 basePath_nonempty env_no_fault w dir
              Hinv Hnamed Hok Hsn) as (w1 & Hrun & Hinv1 & Hnamed1 & Hdir).
  unfold entry_steps. cbn [fst snd for_each]. unfold bind. rewrite Hrun.
  destruct (files_outcome w1 (Some dir) files Hinv1 Hnamed1 Hdir)
    as [Hgo|(w' & Hrest & Hleft)].
  - apply Forall_forall. intros f Hf. apply canonical_step_facts.
    apply (entry_steps_canonical (dir, files)); [exact He|].
    apply list_elem_of_further. cbn [snd fst]. apply list_elem_of_fmap_2. exact Hf.
  - by left.
  - right. exists w'. split; [done|].
    eapply left_empty_mono; [|exact Hleft]. intros s Hs. by apply list_elem_of_further.
Qed.

Lemma entries_outcome (order : list (string * list string)) w :
  Forall (fun entry => entry ∈ map_to_list dirs) order ->
  scaffolding m0 root w -> well_named root (fs w) ->
  (exists w',
     for_each (flat_map entry_steps order) (run_step env basePath) w = Ok tt w'
     /\ scaffolding m0 root w' /\ well_named root (fs w'))
  \/ (exists w',
        for_each (flat_map entry_steps order) (run_step env basePath) w = Fatal w'
        /\ left_empty cwd m0 root (flat_map entry_steps order) w').
Proof.
  intros Hall. revert w. induction Hall as [|entry order He _ IH]; intros w Hinv Hnamed.
  { left. exists w. by split_and!. }
  cbn [flat_map]. rewrite for_each_app. unfold bind.
  destruct (entry_outcome w entry He Hinv Hnamed)
    as [(w1 & Hrun & Hinv1 & Hnamed1)|(w' & Hrun & Hleft)]; rewrite Hrun.
  - destruct (IH w1 Hinv1 Hnamed1) as [Hgo|(w' & Hrest & Hleft)]; [by left|].
    right. exists w'. split; [done|].
    eapply left_empty_mono; [|exact Hleft]. intros s Hs. apply elem_of_app. by right.
  - right. exists w'. split; [done|].
    eapply left_empty_mono; [|exact Hleft]. intros s Hs. apply elem_of_app. by left.
Qed.

(** With no system call refused, [createDirectoriesAndFiles] either makes
    the whole scaffold or ends the run at a file without a template. *)
Lemma scaffold_outcome (order : list (string * list string)) w :
  Forall (fun entry => entry ∈ map_to_list dirs) order ->
  scaffolding m0 root w -> well_named root (fs w) ->
  (exists w',
     createDirectoriesAndFiles env order basePath w = Ok tt w'
     /\ scaffolding m0 root w' /\ well_named root (fs w'))
  \/ (exists w',
        createDirectoriesAndFiles env order basePath w = Fatal w'
        /\ left_empty cwd m0 root (scaffold_steps order) w').
Proof.
  intros Hall Hinv Hnamed. rewrite createDirectoriesAndFiles_steps. unfold scaffold_steps.
  rewrite for_each_app. unfold bind.
  destruct (entries_outcome order w Hall Hinv Hnamed)
    as [(w1 & Hrun & Hinv1 & Hnamed1)|(w' & Hrun & Hleft)]; rewrite Hrun.
  - destruct (files_outcome w1 None dockerFiles Hinv1 Hnamed1)
      as [Hgo|(w' & Hrest & Hleft)].
    + cbn [dir_ext]. rewrite app_nil_r. by destruct Hinv1 as (_ & ? & _).
    + apply Forall_forall. intros f Hf. apply canonical_step_facts.
      unfold scaffold_steps. apply elem_of_app. right. apply list_elem_of_fmap_2. exact Hf.
    + by left.
    + right. exists w'. split; [done|].
      eapply left_empty_mono; [|exact Hleft]. intros s Hs. apply elem_of_app. by right.
  - right. exists w'. split; [done|].
    eapply left_empty_mono; [|exact Hleft]. intros s Hs. apply elem_of_app. by left.
Qed.

Lemma scaffold_steps_canonical (order : list (string * list string)) s :
  Forall (fun entry => entry ∈ map_to_list dirs) order ->
  s ∈ scaffold_steps order -> s ∈ scaffold_steps (map_to_list dirs).
Proof.
  intros Hall Hs. unfold scaffold_steps in Hs. apply elem_of_app in Hs as [Hs|Hs].
  - apply list_elem_of_In, in_flat_map in Hs as (entry & He & Hs).
    apply list_elem_of_In in He, Hs.
    eapply entry_steps_canonical; [|exact Hs].
    by eapply Forall_forall in He; [|exact Hall].
  - unfold scaffold_steps. apply elem_of_app. by right.
Qed.

Lemma scaffold_completes (order : list (string * list string)) w :
  Forall (has_template cwd m0) produced_files ->
  Forall (fun entry => entry ∈ map_to_list dirs) order ->
  scaffolding m0 root w -> well_named root (fs w) ->
  exists w', createDirectoriesAndFiles env order basePath w = Ok tt w'
             /\ scaffolding m0 root w' /\ well_named root (fs w').
Proof.
  intros Htpls Hall Hinv Hnamed.
  destruct (scaffold_outcome order w Hall Hinv Hnamed)
    as [Hgo|(w' & _ & dir & file & Hin & Htpl & _)]; [done|].
  exfalso. apply Htpl.
  apply (scaffold_steps_canonical order _ Hall) in Hin.
  pose proof (proj1 (Forall_forall _ _) canonical_steps_named _ Hin) as (_ & Hf & _).
  exact (proj1 (Forall_forall _ _) Htpls file Hf).
Qed.
End Outcome.

Section Healthy.
Local Open Scope list_scope.
Variable env : Env.
Variable order : list (string * list string).
Hypothesis order_perm : order ≡ₚ map_to_list dirs.
Hypothesis env_no_fault : no_fault env.

Local Abbreviation cwd := (env_cwd env).

Lemma well_named_start (m : FS) (root : path) :
  fs_wf m -> fs_lookup m root = None -> well_named root (<[root := Dir]> m).
Proof.
  intros Hwf Hnone ext x n Hlast Hl.
  rewrite lookup_insert_ne in Hl.
  - by rewrite wf_fresh_under in Hl.
  - intros Heq. rewrite <- (app_nil_r root) in Heq at 1.
    apply app_inv_head in Heq. by subst ext.
Qed.

End Healthy.



(** ** What the run does to its streams *)

Section Disciplines.
Local Open Scope list_scope.
Context (RO RF : World -> World -> Prop) `{!Discipline RO RF}.

Lemma respects_ret {A} (a : A) : respects RO RF (ret a).
Proof. intros w. apply ro_refl. Qed.

Lemma respects_bind {A B} (m : M A) (k : A -> M B) :
  respects RO RF m -> (forall a, respects RO RF (k a)) -> respects RO RF (bind m k).
Proof.
  intros Hm Hk w. unfold bind. specialize (Hm w).
  destruct (m w) as [a w1|w1]; [|done].
  specialize (Hk a w1). destruct (k a w1) as [b w2|w2].
  - by eapply ro_trans.
  - by eapply rf_after.
Qed.

Lemma respects_for_each {A} (l : list A) (body : A -> M unit) :
  (forall x, x ∈ l -> respects RO RF (body x)) -> respects RO RF (for_each l body).
Proof.
  induction l as [|x l IH]; intros Hbody; cbn [for_each].
  - apply respects_ret.
  - apply respects_bind.
    + apply Hbody, list_elem_of_here.
    + intros _. apply IH. intros y Hy. by apply Hbody, list_elem_of_further.
Qed.

(** The program's functions keep a discipline that its primitives keep. *)
Variable env : Env.
Hypothesis alone_respects : forall A (m : M A), streams_alone m -> respects RO RF m.
Hypothesis Print_respects : forall msg, respects RO RF (fmt_Print msg).
Hypothesis Fatal_respects : forall A msg, respects RO RF (@log_Fatal A msg).
Hypothesis Run_respects :
  forall dir command args, respects RO RF (cmd_Run env dir command args).

Lemma os_Mkdir_alone name : streams_alone (os_Mkdir env name).
Proof.
  intros w. unfold os_Mkdir.
  destruct (mkdir _ _ _); eexists _, _; split_and!; reflexivity.
Qed.

Lemma os_MkdirAll_alone name : streams_alone (os_MkdirAll env name).
Proof.
  intros w. unfold os_MkdirAll.
  destruct (mkdir_all _ _ _); eexists _, _; split_and!; reflexivity.
Qed.

Lemma os_Create_alone name : streams_alone (os_Create env name).
Proof.
  intros w. unfold os_Create.
  destruct (create _ _ _); eexists _, _; split_and!; reflexivity.
Qed.

Lemma ioutil_ReadFile_alone name : streams_alone (ioutil_ReadFile env name).
Proof.
  intros w. unfold ioutil_ReadFile.
  destruct (read_file _ _ _) as [[]|]; eexists _, _; split_and!; reflexivity.
Qed.

Lemma file_Write_alone f b : streams_alone (file_Write env f b).
Proof.
  intros w. unfold file_Write.
  destruct (write _ _ _ _); eexists _, _; split_and!; reflexivity.
Qed.

Lemma exec_LookPath_alone cmd : streams_alone (exec_LookPath env cmd).
Proof. intros w. by eexists _, _. Qed.

Lemma user_Current_alone : streams_alone (user_Current env).
Proof. intros w. by eexists _, _. Qed.

Ltac respects_case :=
  match goal with
  | |- respects _ _ (match ?x with _ => _ end) => destruct x
  end.

Ltac respects_step :=
  first
    [ apply respects_ret
    | apply Print_respects
    | apply Fatal_respects
    | apply Run_respects
    | apply alone_respects;
      first [ apply os_Mkdir_alone | apply os_MkdirAll_alone | apply os_Create_alone
            | apply ioutil_ReadFile_alone | apply file_Write_alone
            | apply exec_LookPath_alone | apply user_Current_alone ]
    | apply respects_bind; [|intros ?]
    | apply respects_for_each; intros ? _
    | respects_case ].

Lemma writeContentFromTemplate_respects f templatePath :
  respects RO RF (writeContentFromTemplate env f templatePath).
Proof. unfold writeContentFromTemplate. repeat respects_step. Qed.

Lemma create_file_respects dirPath file : respects RO RF (create_file env dirPath file).
Proof.
  unfold create_file. cbv zeta.
  repeat first [apply writeContentFromTemplate_respects | respects_step].
Qed.

Lemma create_dir_respects basePath entry : respects RO RF (create_dir env basePath entry).
Proof.
  unfold create_dir. destruct entry as [dir files]. cbv zeta.
  repeat first [apply create_file_respects | respects_step].
Qed.

Lemma createDirectoriesAndFiles_respects order basePath :
  respects RO RF (createDirectoriesAndFiles env order basePath).
Proof.
  unfold createDirectoriesAndFiles.
  repeat first [apply create_file_respects | apply create_dir_respects | respects_step].
Qed.

Lemma runCommand_respects dir command args :
  respects RO RF (runCommand env dir command args).
Proof. unfold runCommand. repeat respects_step. Qed.

Lemma initializeGoMod_respects basePath projectName :
  respects RO RF (initializeGoMod env basePath projectName).
Proof.
  unfold initializeGoMod. repeat first [apply runCommand_respects | respects_step].
Qed.

Lemma ensureAirInstalled_respects : respects RO RF (ensureAirInstalled env).
Proof. unfold ensureAirInstalled, checkCommandExists. repeat respects_step. Qed.

Lemma ExpandTilde_respects path : respects RO RF (ExpandTilde env path).
Proof. unfold ExpandTilde. repeat respects_step. Qed.

Lemma build_respects order basePath projectName :
  respects RO RF (build env order basePath projectName).
Proof.
  unfold build.
  repeat first [apply createDirectoriesAndFiles_respects | apply initializeGoMod_respects
               | respects_step].
Qed.

Lemma main_respects order :
  respects RO RF stdin_ReadString -> respects RO RF (main env order).
Proof.
  intros Hread. unfold main.
  repeat first [apply createDirectoriesAndFiles_respects | apply initializeGoMod_respects
               | apply ensureAirInstalled_respects | apply ExpandTilde_respects
               | apply Hread | progress cbv zeta | respects_step].
Qed.
End Disciplines.

Section Console.
Local Open Scope list_scope.

#[global] Instance console_discipline : Discipline went_on gave_up.
Proof.
  split.
  - intros w. exists []. by rewrite app_nil_r.
  - intros a b c (l1 & H1 & S1) (l2 & H2 & S2). exists (l1 ++ l2).
    rewrite H2, H1, <- app_assoc, forallb_app, S1, S2. done.
  - intros a b c (l1 & H1 & S1) (l2 & msg & H2 & S2). exists (l1 ++ l2), msg.
    rewrite H2, H1, <- !app_assoc, forallb_app, S1, S2. done.
Qed.

Lemma went_on_alone {A} (m : M A) : streams_alone m -> respects went_on gave_up m.
Proof.
  intros Hm w. destruct (Hm w) as (a & w' & -> & Hc & _).
  exists []. by rewrite app_nil_r.
Qed.

Lemma went_on_event (e : event) w : silent e = true -> went_on w (emit e w).
Proof. intros He. exists [e]. simpl. by rewrite He. Qed.

Lemma went_on_set_fs m w w' : went_on w w' -> went_on w (set_fs m w').
Proof. done. Qed.

End Console.

(** X2.  Every way [main] can end is orderly on the console: what was there
    stays, a run that completes writes no diagnostic, and a run that is
    given up writes exactly one, as the last thing it does.  In particular
    the checks on the error that [runCommand] returns never write a second
    message after the one of [runCommand].  (The diagnostics are those of the
    program itself, [Stderr]; what a child process writes to the streams it
    inherits is part of its [Exec] event.) *)
Theorem one_diagnostic_per_abort (env : Env) (order : list (string * list string)) (w : World) :
  match main env order w with
  | Ok _ w' =>
      exists l, console w' = (console w ++ l)%list /\ forallb silent l = true
  | Fatal w' =>
      exists l msg, console w' = (console w ++ l ++ [Stderr msg])%list
                    /\ forallb silent l = true
  end.
Proof.
  revert w. change (respects went_on gave_up (main env order)).
  apply main_respects; try apply _.
  - intros A m. apply went_on_alone.
  - intros msg w. by apply went_on_event.
  - intros A msg w. by exists [], msg.
  - intros dir command args w. unfold cmd_Run.
    destruct (env_exec env dir (command :: args) (fs w)) as [m err].
    by apply went_on_set_fs, went_on_event.
  - intros w. unfold stdin_ReadString.
    destruct (reader_ReadString (stdin w)) as [line rest]. exists []. simpl.
    by rewrite app_nil_r.
Qed.

Section Stdin.
Local Open Scope list_scope.

#[local] Instance stdin_discipline : Discipline same_stdin same_stdin.
Proof. unfold same_stdin. split; congruence. Qed.

Lemma build_stdin env order basePath projectName :
  respects same_stdin same_stdin (build env order basePath projectName).
Proof.
  apply build_respects; try apply _.
  - intros A m Hm w. by destruct (Hm w) as (a & w' & -> & _ & Hs).
  - by intros msg w.
  - by intros A msg w.
  - intros dir command args w. unfold cmd_Run.
    by destruct (env_exec env dir (command :: args) (fs w)) as [m err].
Qed.
End Stdin.

(** X3.  What [main] takes from its reader.  A run without [air] calls
    [ReadString] not at all; a run that stops at the base path (empty, or the
    home directory unknown) has taken one line; every other run has taken
    exactly two lines, however it ends: nothing after the second prompt
    reads, neither the scaffold nor [runCommand], which gives the child no
    standard input.  ([stdin] is the input as the [bufio] reader hands it
    out; the bytes the reader buffers ahead are not modelled.) *)
Theorem main_reads_two_lines (env : Env) (order : list (string * list string)) (w : World) :
  stdin (final_world (main env order w)) =
    if env_path env "air" then
      if decide (baseInput_of w = EmptyString) then stdin_after_base w
      else match (expand_tilde env (baseInput_of w)).2 with
           | Some _ => stdin_after_base w
           | None => stdin_after_name w
           end
    else stdin w.
Proof.
  destruct (env_path env "air") eqn:Hair; [|by rewrite main_missing_air].
  case_decide as Hb; [by rewrite main_empty_base|].
  destruct (expand_tilde env (baseInput_of w)).2 as [e|] eqn:He.
  { by rewrite (main_expand_error env order w e). }
  destruct (decide (projectName_of w = EmptyString)) as [Hn|Hn].
  { by rewrite main_empty_name. }
  rewrite main_reaches_build by done.
  pose proof (build_stdin env order
                (filepath_Join [(expand_tilde env (baseInput_of w)).1; projectName_of w])
                (projectName_of w) (prompted w)) as H.
  by destruct (build _ _ _ _ _).
Qed.

(** ** What the run leaves alone *)

Section MkdirAllOld.
Local Open Scope list_scope.
Variable fault : syscall -> option errno.

(** [os.MkdirAll] leaves what exists as it is. *)
Lemma mkdir_all_old (m : FS) (p : path) (m' : FS) (o : option errno) (q : path) (n : node) :
  mkdir_all fault m p = (m', o) -> fs_lookup m q = Some n -> m' !! q = m !! q.
Proof.
  intros Hrun Hq. revert m' o Hrun.
  induction p as [|x p IH] using rev_ind; intros m' o.
  - rewrite mkdir_all_nil. by intros [= <- _].
  - rewrite mkdir_all_snoc. intros Hrun.
    destruct (fs_lookup m (p ++ [x])) as [[|c]|] eqn:Hl; try by injection Hrun as <- _.
    destruct (mkdir_all fault m p) as [m1 [e|]] eqn:E.
    + injection Hrun as <- _. by eapply IH.
    + specialize (IH _ _ eq_refl).
      destruct (mkdir fault m1 (p ++ [x])) as [e|m2] eqn:Em.
      * destruct (fs_lookup m1 (p ++ [x])) as [[|c]|]; by injection Hrun as <- _.
      * injection Hrun as <- _. apply mkdir_inr in Em as (_ & _ & _ & ->).
        rewrite lookup_insert_ne; [done|]. intros <-. congruence.
Qed.
End MkdirAllOld.

Section Frame.
Local Open Scope list_scope.
Variable env : Env.
Variable basePath : string.
Variable m0 : FS.
Hypothesis basePath_nonempty : basePath <> EmptyString.

Local Abbreviation cwd := (env_cwd env).
Local Abbreviation root := (resolve (env_cwd env) basePath).

#[local] Instance scaffold_discipline : Discipline (scaffold_on m0 root) (scaffold_off m0 root).
Proof.
  split.
  - intros w Hinv. by split.
  - intros a b c Hab Hbc Ha. destruct (Hab Ha) as [Hb Hf1]. destruct (Hbc Hb) as [Hc Hf2].
    split; [done|]. intros q Hq. by rewrite Hf2, Hf1.
  - intros a b c Hab Hbc Ha. destruct (Hab Ha) as [Hb Hf1].
    intros q Hq. by rewrite (Hbc Hb), Hf1.
Qed.

(** Above the project directory there are only directories, and they are
    there already. *)
Lemma above_root_exists (m : FS) (ext q : path) :
  fs_wf m -> fs_lookup m root = Some Dir ->
  q `prefix_of` root ++ ext -> ~ root `prefix_of` q -> fs_lookup m q = Some Dir.
Proof.
  intros Hwf Hroot Hq Hnot.
  destruct (prefix_weak_total q root (root ++ ext)) as [[r Hr]|Hp];
    [done|by apply prefix_app_r|..|done].
  destruct r as [|x r].
  { exfalso. apply Hnot. rewrite app_nil_r in Hr. by rewrite Hr. }
  rewrite Hr in Hroot. rewrite fs_lookup_ne in Hroot by apply app_cons_ne.
  eapply wf_prefix_dir; [exact Hwf| |exact Hroot]. done.
Qed.

Lemma run_step_Fatal_outside s w w' :
  scaffolding m0 root w -> step_ok s ->
  run_step env basePath s w = Fatal w' -> outside_kept root (fs w) (fs w').
Proof.
  intros (Hwf & Hroot & _) Hok Hrun q Hq.
  destruct s as [dir|dir file].
  - destruct Hok as [Hplain Hnames].
    unfold run_step, bind, os_MkdirAll in Hrun.
    rewrite resolve_dir in Hrun by done.
    destruct (mkdir_all (env_fault env) (fs w) (root ++ split_path dir))
      as [m' [e|]] eqn:Emk; [|done].
    simpl in Hrun. injection Hrun as <-. cbn [fs set_fs emit].
    destruct (decide (q `prefix_of` root ++ split_path dir)) as [Hp|Hp].
    + eapply mkdir_all_old; [done|]. by eapply above_root_exists.
    + by eapply mkdir_all_frame.
  - pose proof Hok as (Hd & Hf & Hin & Hr & Hp & Hn).
    unfold run_step, create_file, bind, os_Create in Hrun.
    rewrite resolve_file in Hrun by done.
    set (key := root ++ dir_ext dir ++ [file]) in *.
    assert (Hne : key <> q).
    { intros <-. apply Hq. by exists (dir_ext dir ++ [file]). }
    destruct (create (env_fault env) (fs w) key) as [e|m1] eqn:Ecr.
    { simpl in Hrun. by injection Hrun as <-. }
    apply create_inr in Ecr as (Hkey & Hpar & Hnd & ->).
    unfold fmt_Print, writeContentFromTemplate, bind, ioutil_ReadFile in Hrun.
    simpl in Hrun.
    destruct (read_file (env_fault env) _ _) as [e|c] eqn:Erd.
    { assert (Hw' : fs w' = <[key := File []]> (fs w)).
      { destruct e; simpl in Hrun; by injection Hrun as <-. }
      rewrite Hw'. by apply lookup_insert_ne. }
    unfold file_Write in Hrun. simpl in Hrun.
    destruct (write (env_fault env) _ key c) as [e|m2] eqn:Ewr; [|done].
    simpl in Hrun. injection Hrun as <-. cbn [fs set_fs emit].
    by apply lookup_insert_ne.
Qed.

Lemma run_step_outside s :
  step_ok s -> respects (scaffold_on m0 root) (scaffold_off m0 root) (run_step env basePath s).
Proof.
  intros Hok w. destruct (run_step env basePath s w) as [[] w'|w'] eqn:Hrun.
  - intros Hinv.
    destruct (run_step_Ok env basePath m0 basePath_nonempty s w w' Hinv Hok Hrun)
      as (Hfs & _ & _ & Hinv' & _).
    split; [done|]. intros q Hq. rewrite Hfs. apply lookup_insert_items_notin.
    intros Hk. apply (step_keys_below env basePath m0) in Hk as (ext & _ & ->).
    apply Hq. by exists ext.
  - intros Hinv. by eapply run_step_Fatal_outside.
Qed.

Lemma scaffold_outside (order : list (string * list string)) :
  order ≡ₚ map_to_list dirs ->
  respects (scaffold_on m0 root) (scaffold_off m0 root)
    (createDirectoriesAndFiles env order basePath).
Proof.
  intros Hperm w. rewrite createDirectoriesAndFiles_steps. revert w.
  apply respects_for_each; [apply _|].
  intros s Hs. apply run_step_outside.
  by eapply Forall_forall in Hs; [|by apply scaffold_steps_ok].
Qed.
End Frame.

Lemma build_outside env order basePath projectName w :
  order ≡ₚ map_to_list dirs -> basePath <> EmptyString ->
  fs_wf (fs w) -> exec_inside env basePath ->
  outside_kept (resolve (env_cwd env) basePath) (fs w)
    (fs (final_world (build env order basePath projectName w))).
Proof.
  intros Hperm Hne Hwf Hexec. set (root := resolve (env_cwd env) basePath).
  unfold build, bind, os_Mkdir. fold root.
  destruct (mkdir (env_fault env) (fs w) root) as [e|m1] eqn:Emk; [by intros q _|].
  apply mkdir_inr in Emk as (Hroot & Hnone & Hpar & ->). cbn [fmt_Print].
  set (w1 := emit _ (set_fs _ w)).
  assert (Hstart : scaffolding (fs w) root w1) by by apply scaffolding_start.
  assert (H1 : outside_kept root (fs w) (fs w1)).
  { intros q Hq. cbn [w1 fs emit set_fs]. apply lookup_insert_ne. by intros <-. }
  pose proof (scaffold_outside env basePath (fs w) Hne order Hperm w1) as Hsc.
  destruct (createDirectoriesAndFiles env order basePath w1) as [[] w2|w2].
  - destruct (Hsc Hstart) as [_ H2].
    rewrite initializeGoMod_run. cbn zeta.
    pose proof (Hexec (go_mod_init projectName) (fs w2)) as H3.
    destruct (env_exec env basePath (go_mod_init projectName) (fs w2)) as [m1 [e|]].
    { intros q Hq. cbn [final_world fs emit set_fs]. simpl in H3.
      by rewrite H3, H2, H1. }
    pose proof (Hexec go_mod_tidy m1) as H4.
    destruct (env_exec env basePath go_mod_tidy m1) as [m2 [e|]];
      intros q Hq; cbn [final_world fs emit set_fs]; simpl in H3, H4;
      by rewrite H4, H3, H2, H1.
  - intros q Hq. cbn [final_world]. by rewrite (Hsc Hstart), H1.
Qed.

(** X4.  The run keeps to the project directory.  However [main] ends,
    completed or given up at any step, whatever is not the project directory
    or below it is in the file system as it was: nothing is changed, nothing
    removed and nothing made there, not even a missing parent of the project
    directory.  The [go] commands are taken to write only inside the
    directory they run in. *)
Theorem main_keeps_to_project (env : Env) (order : list (string * list string)) (w : World) :
  order ≡ₚ map_to_list dirs -> fs_wf (fs w) ->
  exec_inside env (project_path env w) ->
  forall q, ~ resolve (env_cwd env) (project_path env w) `prefix_of` q ->
    fs (final_world (main env order w)) !! q = fs w !! q.
Proof.
  intros Hperm Hwf Hexec.
  destruct (bool_cases (env_path env "air")) as [Hair|Hair];
    [|by rewrite main_missing_air].
  destruct (decide (baseInput_of w = EmptyString)) as [Hb|Hb];
    [by rewrite main_empty_base|].
  destruct (expand_tilde env (baseInput_of w)).2 as [e|] eqn:He.
  { by rewrite (main_expand_error env order w e). }
  destruct (decide (projectName_of w = EmptyString)) as [Hn|Hn].
  { by rewrite main_empty_name. }
  rewrite main_reaches_build by done. fold (project_path env w).
  apply (build_outside env order (project_path env w) (projectName_of w) (prompted w)
           Hperm (project_path_nonempty env w Hn) Hwf Hexec).
Qed.

Lemma main_keeps_to_project_witness :
  demo_order ≡ₚ map_to_list dirs /\ fs_wf (fs demo_world)
  /\ exec_inside demo_env (project_path demo_env demo_world)
  /\ ~ resolve (env_cwd demo_env) (project_path demo_env demo_world) `prefix_of` ["home"; "u"]
  /\ fs (final_world (main demo_env demo_order demo_world)) !! ["home"; "u"]
     = fs demo_world !! ["home"; "u"].
Proof.
  assert (H1 : demo_order ≡ₚ map_to_list dirs) by reflexivity.
  assert (H2 : fs_wf (fs demo_world)) by compute_done.
  assert (H3 : exec_inside demo_env (project_path demo_env demo_world)).
  { intros argv m q Hq. unfold demo_env, env_exec, demo_exec.
    destruct (argv !! 3); [|done]. cbn [fst]. apply lookup_insert_ne.
    intros <-. apply Hq. by eexists. }
  assert (H4 : ~ resolve (env_cwd demo_env) (project_path demo_env demo_world)
                 `prefix_of` ["home"; "u"]) by compute_done.
  split; [exact H1|]. split; [exact H2|]. split; [exact H3|]. split; [exact H4|].
  exact (main_keeps_to_project demo_env demo_order demo_world H1 H2 H3 ["home"; "u"] H4).
Defined.

(** ** The scaffold, run again *)

Lemma mkdir_fresh (fault : syscall -> option errno) (m : FS) (p : path) :
  fault (SysMkdir p) = None -> fs_lookup m (parent p) = Some Dir -> fs_lookup m p = None ->
  mkdir fault m p = inr (<[p := Dir]> m).
Proof. intros Hf Hpar Hp. unfold mkdir. by rewrite Hf, Hpar, Hp. Qed.

Section Again.
Local Open Scope list_scope.
Variable env : Env.
Variable basePath : string.
Hypothesis basePath_nonempty : basePath <> EmptyString.
Hypothesis env_no_fault : no_fault env.

Local Abbreviation cwd := (env_cwd env).
Local Abbreviation root := (resolve (env_cwd env) basePath).

(** A complete pass from the fresh project directory ends in the tree of
    the scaffold, with every name in its place. *)
Lemma first_pass (order : list (string * list string)) (m : FS) w w1 :
  order ≡ₚ map_to_list dirs -> fs_wf m ->
  mkdir (env_fault env) m root = inr (fs w) ->
  createDirectoriesAndFiles env order basePath w = Ok tt w1 ->
  m !! root = None
  /\ Forall (has_template cwd m) produced_files
  /\ scaffolding m root w1 /\ well_named root (fs w1)
  /\ fs w1 = scaffold_tree cwd m root ∪ m.
Proof.
  intros Hperm Hwf Hmk Hrun.
  apply mkdir_inr in Hmk as (Hroot & Hnone & Hpar & Hfs).
  assert (Hstart : scaffolding m root w) by by apply scaffolding_start.
  pose proof Hrun as Hsteps. rewrite createDirectoriesAndFiles_steps in Hsteps.
  destruct (run_steps_Ok env basePath m basePath_nonempty _ w w1
              (scaffold_steps_ok order Hperm) Hstart Hsteps) as (Hfs1 & _ & _ & Hinv1 & Htpl).
  assert (Htpls : Forall (has_template cwd m) produced_files).
  { apply Forall_forall. intros file Hf.
    destruct (produced_file_step order Hperm file Hf) as [dir Hd].
    unfold has_template. by rewrite (Htpl dir file Hd). }
  assert (Hnamed : well_named root (fs w)).
  { rewrite Hfs. apply well_named_start; [done|]. by rewrite fs_lookup_ne. }
  assert (Hall : Forall (fun entry => entry ∈ map_to_list dirs) order).
  { apply Forall_forall. intros entry He. by rewrite <- Hperm. }
  destruct (scaffold_completes env basePath m basePath_nonempty env_no_fault Hnone
              order w Htpls Hall Hstart Hnamed) as (w1' & Hrun' & _ & Hnamed1).
  rewrite Hrun in Hrun'. injection Hrun' as <-.
  split_and!; try done.
  rewrite Hfs1, Hfs. by apply scaffold_fs.
Qed.
End Again.

(** X5.  The scaffold can be run again.  After [createDirectoriesAndFiles]
    has completed in the project directory that [os.Mkdir] made, a second
    call on the same path completes as well when no system call is refused:
    [os.MkdirAll] accepts the directories that are there and [os.Create]
    truncates the files, which are filled from their templates again.  The
    file system after the second call is the one after the first, whatever
    the order in which either visits the directories.  (It is the
    [os.Mkdir] in [main] that makes a second run of the program fail.) *)
Theorem scaffold_runs_again (env : Env) (order order2 : list (string * list string))
    (basePath : string) (m : FS) (w w1 : World) :
  order ≡ₚ map_to_list dirs -> order2 ≡ₚ map_to_list dirs ->
  basePath <> EmptyString -> no_fault env -> fs_wf m ->
  mkdir (env_fault env) m (resolve (env_cwd env) basePath) = inr (fs w) ->
  createDirectoriesAndFiles env order basePath w = Ok tt w1 ->
  exists w2,
    createDirectoriesAndFiles env order2 basePath w1 = Ok tt w2 /\ fs w2 = fs w1.
Proof.
  intros Hperm Hperm2 Hne Hfault Hwf Hmk Hrun.
  destruct (first_pass env basePath Hne Hfault order m w w1 Hperm Hwf Hmk Hrun)
    as (Hnone & Htpls & Hinv1 & Hnamed1 & Hfs1).
  assert (Hall : Forall (fun entry => entry ∈ map_to_list dirs) order2).
  { apply Forall_forall. intros entry He. by rewrite <- Hperm2. }
  destruct (scaffold_completes env basePath m Hne Hfault Hnone
              order2 w1 Htpls Hall Hinv1 Hnamed1) as (w2 & Hrun2 & _).
  exists w2. split; [exact Hrun2|].
  rewrite createDirectoriesAndFiles_steps in Hrun2.
  destruct (run_steps_Ok env basePath m Hne _ w1 w2
              (scaffold_steps_ok order2 Hperm2) Hinv1 Hrun2) as (Hfs2 & _).
  assert (Hroot : fs w1 !! resolve (env_cwd env) basePath = Some Dir).
  { destruct Hinv1 as (_ & Hr & _). apply mkdir_inr in Hmk as (Hroot & _).
    by rewrite fs_lookup_ne in Hr. }
  rewrite <- (insert_id (fs w1) _ _ Hroot) in Hfs2.
  rewrite scaffold_fs in Hfs2 by exact Hperm2.
  rewrite Hfs2, Hfs1, (assoc_L (∪)), (idemp_L (∪)). done.
Qed.

Lemma scaffold_runs_again_witness :
  demo_order ≡ₚ map_to_list dirs /\ demo_order_reversed ≡ₚ map_to_list dirs
  /\ no_fault demo_env /\ fs_wf demo_fs
  /\ mkdir (env_fault demo_env) demo_fs (resolve (env_cwd demo_env) "/tmp/x/demo")
     = inr (fs demo_started)
  /\ createDirectoriesAndFiles demo_env demo_order "/tmp/x/demo" demo_started
     = Ok tt demo_scaffolded
  /\ exists w2,
       createDirectoriesAndFiles demo_env demo_order_reversed "/tmp/x/demo" demo_scaffolded
       = Ok tt w2
       /\ fs w2 = fs demo_scaffolded.
Proof.
  assert (H1 : demo_order ≡ₚ map_to_list dirs) by reflexivity.
  assert (H2 : demo_order_reversed ≡ₚ map_to_list dirs) by apply reverse_Permutation.
  assert (H3 : "/tmp/x/demo" <> EmptyString) by done.
  assert (H4 : no_fault demo_env) by (intros c; reflexivity).
  assert (H5 : fs_wf demo_fs) by compute_done.
  assert (H6 : mkdir (env_fault demo_env) demo_fs (resolve (env_cwd demo_env) "/tmp/x/demo")
               = inr (fs demo_started))
    by (apply mkdir_fresh; vm_compute; reflexivity).
  assert (H7 : createDirectoriesAndFiles demo_env demo_order "/tmp/x/demo" demo_started
               = Ok tt demo_scaffolded)
    by (unfold demo_scaffolded; apply completes_final; vm_compute; reflexivity).
  split; [exact H1|]. split; [exact H2|]. split; [exact H4|]. split; [exact H5|].
  split; [exact H6|]. split; [exact H7|].
  exact (scaffold_runs_again demo_env demo_order demo_order_reversed "/tmp/x/demo" demo_fs
           demo_started demo_scaffolded H1 H2 H3 H4 H5 H6 H7).
Defined.

(** ** A scaffold that stops at a template *)

(** X6.  How the scaffold fails.  With no system call refused, in the project
    directory that [os.Mkdir] has just made, [createDirectoriesAndFiles] can
    only end the run at a file whose template is not a file below the working
    directory; no directory and no file creation fails by itself.  The file
    is created before its template is read, so it is left behind, empty. *)
Theorem scaffold_fails_only_for_template (env : Env) (order : list (string * list string))
    (basePath : string) (m : FS) (w w' : World) :
  order ≡ₚ map_to_list dirs -> basePath <> EmptyString -> no_fault env -> fs_wf m ->
  mkdir (env_fault env) m (resolve (env_cwd env) basePath) = inr (fs w) ->
  createDirectoriesAndFiles env order basePath w = Fatal w' ->
  exists dir file,
    FileStep dir file ∈ scaffold_steps order
    /\ ~ has_template (env_cwd env) m file
    /\ fs w' !! (resolve (env_cwd env) basePath ++ dir_ext dir ++ [file])%list
       = Some (File []).
Proof.
  intros Hperm Hne Hfault Hwf Hmk Hrun.
  apply mkdir_inr in Hmk as (Hroot & Hnone & Hpar & Hfs).
  assert (Hstart : scaffolding m (resolve (env_cwd env) basePath) w)
    by by apply scaffolding_start.
  assert (Hnamed : well_named (resolve (env_cwd env) basePath) (fs w)).
  { rewrite Hfs. apply well_named_start; [done|]. by rewrite fs_lookup_ne. }
  assert (Hall : Forall (fun entry => entry ∈ map_to_list dirs) order).
  { apply Forall_forall. intros entry He. by rewrite <- Hperm. }
  destruct (scaffold_outcome env basePath m Hne Hfault Hnone order w Hall Hstart Hnamed)
    as [(w1 & Hgo & _)|(w1 & Hstop & Hleft)]; [congruence|].
  rewrite Hrun in Hstop. injection Hstop as <-. exact Hleft.
Qed.

Lemma scaffold_fails_only_for_template_witness :
  demo_order ≡ₚ map_to_list dirs /\ no_fault demo_env /\ fs_wf demo_fs_no_makerun
  /\ mkdir (env_fault demo_env) demo_fs_no_makerun (resolve (env_cwd demo_env) "/tmp/x/demo")
     = inr (fs demo_started_no_makerun)
  /\ createDirectoriesAndFiles demo_env demo_order "/tmp/x/demo" demo_started_no_makerun
     = Fatal demo_left_empty
  /\ exists dir file,
       FileStep dir file ∈ scaffold_steps demo_order
       /\ ~ has_template (env_cwd demo_env) demo_fs_no_makerun file
       /\ fs demo_left_empty
            !! (resolve (env_cwd demo_env) "/tmp/x/demo" ++ dir_ext dir ++ [file])%list
          = Some (File []).
Proof.
  assert (H1 : demo_order ≡ₚ map_to_list dirs) by reflexivity.
  assert (H2 : "/tmp/x/demo" <> EmptyString) by done.
  assert (H3 : no_fault demo_env) by (intros c; reflexivity).
  assert (H4 : fs_wf demo_fs_no_makerun) by compute_done.
  assert (H5 : mkdir (env_fault demo_env) demo_fs_no_makerun
                 (resolve (env_cwd demo_env) "/tmp/x/demo")
               = inr (fs demo_started_no_makerun))
    by (apply mkdir_fresh; vm_compute; reflexivity).
  assert (H6 : createDirectoriesAndFiles demo_env demo_order "/tmp/x/demo"
                 demo_started_no_makerun = Fatal demo_left_empty)
    by (unfold demo_left_empty; apply aborts_final; vm_compute; reflexivity).
  split; [exact H1|]. split; [exact H3|]. split; [exact H4|]. split; [exact H5|].
  split; [exact H6|].
  exact (scaffold_fails_only_for_template demo_env demo_order "/tmp/x/demo"
           demo_fs_no_makerun demo_started_no_makerun demo_left_empty H1 H2 H3 H4 H5 H6).
Defined.

(** ** The base path *)

Section BasePath.
Local Open Scope list_scope.


End BasePath.



(** ** The end of the input *)

Section EndOfInput.

(** At the end of the input [ReadString] hands back what is left. *)
Lemma ReadString_eof a : no_newline a = true -> reader_ReadString a = (a, EmptyString).
Proof.
  induction a as [|c a IH]; intros Ha; [done|].
  cbn [no_newline] in Ha. apply andb_prop in Ha as [Hc Ha].
  apply negb_true_iff in Hc. cbn [reader_ReadString]. by rewrite Hc, IH.
Qed.

Lemma unfinished_inputs m con w1 b w2 w3 n w4 :
  white w1 -> white w2 -> white w3 -> white w4 -> tight b -> tight n ->
  no_newline (w1 ++ b ++ w2) = true -> no_newline (w3 ++ n ++ w4) = true ->
  baseInput_of (unfinished_world m con w1 b w2 w3 n w4) = b
  /\ projectName_of (unfinished_world m con w1 b w2 w3 n w4) = n
  /\ stdin_after_name (unfinished_world m con w1 b w2 w3 n w4) = EmptyString.
Proof.
  intros H1 H2 H3 H4 Hb Hn Hl1 Hl2.
  unfold baseInput_of, projectName_of, stdin_after_name, stdin_after_base, unfinished_world.
  cbn [stdin]. rewrite ReadString_line by done. cbn [fst snd].
  rewrite ReadString_eof by done. cbn [fst snd].
  split_and!; [| |done].
  - rewrite !append_assoc. apply TrimSpace_strip; [done| |done].
    apply white_app; [done|apply white_newline].
  - by apply TrimSpace_strip.
Qed.
End EndOfInput.

(** X8.  The end of the input.  [main] ignores the error of [ReadString], so
    an answer that is cut off by the end of the input counts as it stands: a
    project name with no line feed behind it gives the same run, with the
    same file system and console, as the same input with the line feed.
    When the input ends before the project name, the name read is empty and
    the run ends with the file system as it was. *)
Theorem answers_at_end_of_input (env : Env) (order : list (string * list string)) :
  (forall m con w1 b w2 w3 n w4,
     white w1 -> white w2 -> white w3 -> white w4 -> tight b -> tight n ->
     no_newline (w1 ++ b ++ w2) = true -> no_newline (w3 ++ n ++ w4) = true ->
     projectName_of (unfinished_world m con w1 b w2 w3 n w4) = n
     /\ same_outcome (main env order (unfinished_world m con w1 b w2 w3 n w4))
          (main env order (typed_world m con w1 b w2 w3 n w4 EmptyString)))
  /\ (forall w, stdin_after_base w = EmptyString ->
        exists w', main env order w = Fatal w' /\ fs w' = fs w).
Proof.
  split.
  - intros m con w1 b w2 w3 n w4 H1 H2 H3 H4 Hb Hn Hl1 Hl2.
    destruct (unfinished_inputs m con w1 b w2 w3 n w4 H1 H2 H3 H4 Hb Hn Hl1 Hl2)
      as (Eb & En & Er).
    destruct (typed_inputs m con w1 b w2 w3 n w4 EmptyString H1 H2 H3 H4 Hb Hn Hl1 Hl2)
      as (Eb' & En' & Er').
    split; [exact En|].
    apply main_same_outcome; [done|done|congruence|congruence|congruence].
  - intros w Hend.
    destruct (main_empty_input env order w) as (w' & Hrun & Hfs & _).
    { right. unfold projectName_of. by rewrite Hend. }
    by exists w'.
Qed.

Lemma answers_at_end_of_input_witness :
  white "  " /\ white demo_nbsp_space /\ white (str1 tab)
  /\ tight "/tmp/x" /\ tight "demo"
  /\ no_newline ("  " ++ "/tmp/x" ++ demo_nbsp_space) = true
  /\ no_newline (str1 tab ++ "demo" ++ "  ") = true
  /\ projectName_of demo_unfinished = "demo"
  /\ same_outcome (main demo_env demo_order demo_unfinished)
       (main demo_env demo_order demo_typed).
Proof.
  assert (H1 : white "  ") by (do 2 (apply spaces_1; [reflexivity|]); constructor).
  assert (H2 : white demo_nbsp_space).
  { apply spaces_2; [reflexivity|]. apply spaces_1; [reflexivity|]. constructor. }
  assert (H3 : white (str1 tab)) by (apply spaces_1; [reflexivity|]; constructor).
  assert (H4 : tight "/tmp/x") by (split; reflexivity).
  assert (H5 : tight "demo") by (split; reflexivity).
  assert (H6 : no_newline ("  " ++ "/tmp/x" ++ demo_nbsp_space) = true) by reflexivity.
  assert (H7 : no_newline (str1 tab ++ "demo" ++ "  ") = true) by reflexivity.
  split; [exact H1|]. split; [exact H2|]. split; [exact H3|]. split; [exact H4|].
  split; [exact H5|]. split; [exact H6|]. split; [exact H7|].
  exact (proj1 (answers_at_end_of_input demo_env demo_order)
           demo_fs [] "  " "/tmp/x" demo_nbsp_space (str1 tab) "demo" "  "
           H1 H2 H3 H1 H4 H5 H6 H7).
Defined.

(** ** The run up to the [go] commands *)

Section Commands_start.
Local Open Scope list_scope.
Variable env : Env.
Variable order : list (string * list string).
Hypothesis order_perm : order ≡ₚ map_to_list dirs.
Hypothesis env_no_fault : no_fault env.


End Commands_start.



(** ** The processes the run starts *)

#[global] Instance process_discipline : Discipline no_process no_process.
Proof.
  split.
  - intros w. exists []. by rewrite app_nil_r.
  - intros a b c (l1 & H1 & S1) (l2 & H2 & S2). exists (l1 ++ l2)%list.
    unfold commands_of in *. rewrite H2, H1, <- app_assoc, omap_app, S1, S2. done.
  - intros a b c (l1 & H1 & S1) (l2 & H2 & S2). exists (l1 ++ l2)%list.
    unfold commands_of in *. rewrite H2, H1, <- app_assoc, omap_app, S1, S2. done.
Qed.

Section Processes.
Local Open Scope list_scope.
Variable env : Env.
Variable order : list (string * list string).

Lemma scaffold_no_process basePath :
  respects no_process no_process (createDirectoriesAndFiles env order basePath).
Proof.
  apply createDirectoriesAndFiles_respects; try apply _.
  - intros A m Hm w. destruct (Hm w) as (a & w' & -> & Hc & _).
    exists []. by rewrite app_nil_r.
  - intros msg w. by exists [Stdout msg].
  - intros A msg w. by exists [Stderr msg].
Qed.

Lemma respects_final (R : World -> World -> Prop) {A} (m : M A) w :
  respects R R m -> R w (final_world (m w)).
Proof. intros H. specialize (H w). by destruct (m w). Qed.

Lemma commands_of_app (l1 l2 : list event) :
  commands_of (l1 ++ l2) = commands_of l1 ++ commands_of l2.
Proof. apply omap_app. Qed.

Lemma build_processes basePath projectName w :
  exists evs,
    console (final_world (build env order basePath projectName w)) = console w ++ evs
    /\ commands_of evs `prefix_of` [(basePath, go_mod_init projectName); (basePath, go_mod_tidy)].
Proof.
  unfold build, bind, os_Mkdir.
  destruct (mkdir (env_fault env) (fs w) (resolve (env_cwd env) basePath)) as [e|m1].
  { eexists [_]. split; [reflexivity|]. apply prefix_nil. }
  cbn [fmt_Print]. set (w1 := emit _ (set_fs _ w)).
  destruct (respects_final no_process _ w1 (scaffold_no_process basePath)) as (l & Hl & Hc).
  set (l0 := [base_created_line basePath] ++ l).
  assert (Hq : commands_of l0 = []) by (unfold l0; by rewrite commands_of_app, Hc).
  assert (Hw2 : console (final_world (createDirectoriesAndFiles env order basePath w1))
                = console w ++ l0).
  { rewrite Hl. cbn [w1 console emit set_fs]. by rewrite <- app_assoc. }
  clearbody l0. clear Hl Hc.
  destruct (createDirectoriesAndFiles env order basePath w1) as [[] w2|w2];
    cbn [final_world] in Hw2.
  2:{ exists l0. split; [exact Hw2|]. rewrite Hq. apply prefix_nil. }
  rewrite initializeGoMod_run. cbn zeta.
  destruct (env_exec env basePath (go_mod_init projectName) (fs w2)) as [m2 [e|]].
  { cbn [final_world console emit set_fs]. rewrite Hw2, <- !app_assoc.
    eexists. split; [reflexivity|]. rewrite commands_of_app, Hq.
    by exists [(basePath, go_mod_tidy)]. }
  destruct (env_exec env basePath go_mod_tidy m2) as [m3 [e|]];
    cbn [final_world console emit set_fs]; rewrite Hw2, <- !app_assoc;
    (eexists; split; [reflexivity|]); rewrite commands_of_app, Hq; done.
Qed.
End Processes.

(** X10.  The processes [main] starts.  In every run, whatever the
    environment, the input and the order of the directories, the processes
    started are a beginning of the list [go mod init <name>], [go mod tidy],
    both in the project directory: nothing else is ever executed, neither
    command runs twice, and [go mod tidy] never runs without [go mod init]
    before it.  ([exec.LookPath] only looks [air] up; it starts nothing.) *)
Theorem main_starts_only_go_mod (env : Env) (order : list (string * list string)) (w : World) :
  exists evs,
    console (final_world (main env order w)) = (console w ++ evs)%list
    /\ commands_of evs
         `prefix_of` [ (project_path env w, go_mod_init (projectName_of w));
                       (project_path env w, go_mod_tidy) ].
Proof.
  destruct (bool_cases (env_path env "air")) as [Hair|Hair].
  2:{ rewrite main_missing_air by done. eexists [_]. split; [reflexivity|]. apply prefix_nil. }
  destruct (decide (baseInput_of w = EmptyString)) as [Hb|Hb].
  { rewrite main_empty_base by done. eexists. split; [reflexivity|]. apply prefix_nil. }
  destruct (expand_tilde env (baseInput_of w)).2 as [e|] eqn:He.
  { rewrite (main_expand_error env order w e) by done.
    eexists. split; [reflexivity|]. apply prefix_nil. }
  destruct (decide (projectName_of w = EmptyString)) as [Hn|Hn].
  { rewrite main_empty_name by done. eexists. split; [reflexivity|]. apply prefix_nil. }
  rewrite main_reaches_build by done. fold (project_path env w).
  destruct (build_processes env order (project_path env w) (projectName_of w) (prompted w))
    as (evs & Hcon & Hcmd).
  exists ([Stdout prompt_base; Stdout prompt_name] ++ evs)%list. split.
  - rewrite Hcon. cbn [prompted console]. by rewrite <- app_assoc.
  - exact Hcmd.
Qed.

(** ** No error of a system call is ignored *)

Section CallsMade.
Local Open Scope list_scope.
Variable fault : syscall -> option errno.





End CallsMade.

Section CallsOfRun.
Local Open Scope list_scope.
Variable env : Env.
Variable basePath : string.
Variable m0 : FS.
Variable start : FS.
Hypothesis basePath_nonempty : basePath <> EmptyString.

Local Abbreviation cwd := (env_cwd env).
Local Abbreviation root := (resolve (env_cwd env) basePath).



End CallsOfRun.



